(** * The spaced-repetition scheduler of book-learning (src/lib/srs.ts)

    A shallow embedding of [nextSrs], [addDays] and [initialSrsState]
    together with the part of the JavaScript runtime they call:
    Numbers (IEEE 754 binary64, through the Standard Library's
    [SpecFloat]), [Math.max], [Math.floor], [Math.round], and [Date]
    objects with [getDate]/[setDate].

    [nextSrs] reads the clock with [new Date()] and [addDays] mutates a
    Date object with [setDate]: both run in a state monad over a world
    made of the clock and the Date objects allocated so far. The time
    zone of the host, which [getDate] and [setDate] depend on, is a
    parameter.

    The same runtime carries the day headings and the grouping of the
    reading log (src/pages/LogHistory.tsx): [startOfDay], [isSameDay],
    [formatDayHeading] and [grouped]; and [toLocalDateTimeInputValue]
    (src/lib/dates.ts). *)

From Stdlib Require Import ZArith Zpower Lia Bool List Sorted SpecFloat.
From Stdlib Require String Ascii DecimalString.
Import ListNotations.
Local Open Scope Z_scope.

(** ** JavaScript Numbers *)

Module JsNumber.

Definition prec : Z := 53.
Definition emax : Z := 1024.

(** A Number is a binary64 value; [S754_finite s m e] is [(-1)^s * m * 2^e]. *)
Definition number : Type := spec_float.

Definition NaN : number := S754_nan.
Definition pos_zero : number := S754_zero false.
Definition neg_zero : number := S754_zero true.
Definition pos_infinity : number := S754_infinity false.
Definition neg_infinity : number := S754_infinity true.

Definition add : number -> number -> number := SFadd prec emax.
Definition sub : number -> number -> number := SFsub prec emax.
Definition mul : number -> number -> number := SFmul prec emax.
Definition div : number -> number -> number := SFdiv prec emax.

(** [x < y], [x <= y] and [x === y] on Numbers. *)
Definition ltb : number -> number -> bool := SFltb.
Definition leb : number -> number -> bool := SFleb.
Definition strict_eq : number -> number -> bool := SFeqb.

(** The Number of a mathematical integer (round to nearest, ties to even). *)
Definition of_Z (z : Z) : number := binary_normalize prec emax z 0 false.

(** The value of the decimal literal [m / 10^k]: the quotient of two
    exactly representable integers, correctly rounded. *)
Definition decimal (m : Z) (k : Z) : number := div (of_Z m) (of_Z (10 ^ k)).

Definition is_nan (x : number) : bool :=
  match x with S754_nan => true | _ => false end.

Definition is_finite (x : number) : bool :=
  match x with S754_zero _ | S754_finite _ _ _ => true | _ => false end.

(** The signed mantissa of a finite Number. *)
Definition signed (s : bool) (m : positive) : Z := cond_Zopp s (Zpos m).

(** [Math.floor]: non-finite values and zeros are returned as they are;
    otherwise the greatest integral Number not above the argument. *)
Definition Math_floor (x : number) : number :=
  match x with
  | S754_finite s m e =>
      if 0 <=? e then x else of_Z (signed s m / 2 ^ (- e))
  | _ => x
  end.

(** [Math.round]: the integral Number closest to the argument, the one
    closer to +Infinity on a tie; a result of zero keeps the sign of the
    argument. *)
Definition Math_round (x : number) : number :=
  match x with
  | S754_finite s m e =>
      if 0 <=? e then x
      else
        let q := (2 * signed s m + 2 ^ (- e)) / 2 ^ (- e + 1) in
        if q =? 0 then S754_zero s else of_Z q
  | _ => x
  end.

(** One round of the loop of [Math.max]: [highest] is replaced by [n] when
    [n] is +0 and [highest] is -0, or when [n > highest]. *)
Definition max_step (highest n : number) : number :=
  match n, highest with
  | S754_zero false, S754_zero true => n
  | _, _ => if ltb highest n then n else highest
  end.

(** [Math.max(a, b)]: NaN when an argument is NaN, else the loop started
    at -Infinity. *)
Definition Math_max (a b : number) : number :=
  if is_nan a || is_nan b then NaN
  else max_step (max_step neg_infinity a) b.

(** [ToIntegerOrInfinity] restricted to its finite results: truncation
    towards zero; [None] stands for NaN and the infinities. *)
Definition to_integer (x : number) : option Z :=
  match x with
  | S754_zero _ => Some 0
  | S754_finite s m e =>
      Some (if 0 <=? e then signed s m * 2 ^ e
            else Z.quot (signed s m) (2 ^ (- e)))
  | _ => None
  end.

(** [Number.isInteger]. *)
Definition isInteger (x : number) : bool :=
  is_finite x && strict_eq (Math_floor x) x.

(** Well-formed binary64 values. *)
Definition valid (x : number) : bool := valid_binary prec emax x.

(** A rounded mantissa and exponent, with overflow to infinity. *)
Definition rounded (s : bool) (m : positive) (e : Z) : number :=
  if e <=? emax - prec then S754_finite s m e else S754_infinity s.

(** The canonical binary64 form of an integer [0 < z < 2^53]. *)
Definition int_float (s : bool) (z : Z) : number :=
  S754_finite s (Z.to_pos (z * 2 ^ (53 - Zdigits2 z))) (Zdigits2 z - 53).

End JsNumber.

Import JsNumber.

(** ** JavaScript Dates *)

Module JsDate.

Definition msPerDay : Z := 86400000.

Definition Day (t : Z) : Z := t / msPerDay.
Definition TimeWithinDay (t : Z) : Z := t mod msPerDay.

Definition DaysInYear (y : Z) : Z :=
  if (y mod 4 =? 0) && (negb (y mod 100 =? 0) || (y mod 400 =? 0))
  then 366 else 365.

Definition DayFromYear (y : Z) : Z :=
  365 * (y - 1970) + (y - 1969) / 4 - (y - 1901) / 100 + (y - 1601) / 400.

Definition TimeFromYear (y : Z) : Z := msPerDay * DayFromYear y.

(** The largest [y] with [TimeFromYear y <= t]: an estimate from the mean
    length of a Gregorian year, corrected by at most one. *)
Definition YearFromTime (t : Z) : Z :=
  let d := Day t in
  let y := 1970 + (400 * d) / 146097 in
  if d <? DayFromYear y then y - 1
  else if DayFromYear (y + 1) <=? d then y + 1
  else y.

Definition InLeapYear (t : Z) : Z :=
  if DaysInYear (YearFromTime t) =? 366 then 1 else 0.

Definition DayWithinYear (t : Z) : Z := Day t - DayFromYear (YearFromTime t).

Definition MonthFromTime (t : Z) : Z :=
  let d := DayWithinYear t in
  let l := InLeapYear t in
  if d <? 31 then 0
  else if d <? 59 + l then 1
  else if d <? 90 + l then 2
  else if d <? 120 + l then 3
  else if d <? 151 + l then 4
  else if d <? 181 + l then 5
  else if d <? 212 + l then 6
  else if d <? 243 + l then 7
  else if d <? 273 + l then 8
  else if d <? 304 + l then 9
  else if d <? 334 + l then 10
  else 11.

(** Days of the year before the first of month [m] (0 = January). *)
Definition DaysBeforeMonth (m leap : Z) : Z :=
  match m with
  | 0 => 0
  | 1 => 31
  | 2 => 59 + leap
  | 3 => 90 + leap
  | 4 => 120 + leap
  | 5 => 151 + leap
  | 6 => 181 + leap
  | 7 => 212 + leap
  | 8 => 243 + leap
  | 9 => 273 + leap
  | 10 => 304 + leap
  | _ => 334 + leap
  end.

Definition DateFromTime (t : Z) : Z :=
  let d := DayWithinYear t in
  let l := InLeapYear t in
  match MonthFromTime t with
  | 0 => d + 1
  | 1 => d - 30
  | 2 => d - 58 - l
  | 3 => d - 89 - l
  | 4 => d - 119 - l
  | 5 => d - 150 - l
  | 6 => d - 180 - l
  | 7 => d - 211 - l
  | 8 => d - 242 - l
  | 9 => d - 272 - l
  | 10 => d - 303 - l
  | _ => d - 333 - l
  end.

(** [MakeDay year month date]: the day number of the first of the month
    ([month] folded into 0..11, the excess carried to the year), plus
    [date - 1]. A [date] that is not finite gives NaN ([None]). *)
Definition MakeDay (year month : Z) (date : number) : option Z :=
  match to_integer date with
  | None => None
  | Some dt =>
      let ym := year + month / 12 in
      let mn := month mod 12 in
      let leap := if DaysInYear ym =? 366 then 1 else 0 in
      Some (DayFromYear ym + DaysBeforeMonth mn leap + dt - 1)
  end.

Definition MakeDate (day time : Z) : Z := day * msPerDay + time.

(** [TimeClip]: time values beyond 8.64e15 ms from the epoch are NaN. *)
Definition TimeClip (t : Z) : option Z :=
  if 8640000000000000 <? Z.abs t then None else Some t.

(** The host: its time-zone rule, the offset of local time from UTC at a
    time value ([LocalTZA t isUTC]). *)
Record Host : Type := { LocalTZA : Z -> bool -> Z }.

Definition LocalTime (h : Host) (t : Z) : Z := t + LocalTZA h t true.
Definition UTC (h : Host) (t : Z) : Z := t - LocalTZA h t false.

(** The mutable world a call runs in: the clock and the Date objects
    allocated so far, each with its time value ([None] is NaN, an
    Invalid Date). *)
Record World : Type := { clock : Z; dates : list (option Z) }.

Definition M (A : Type) : Type := World -> A * World.
Definition ret {A} (a : A) : M A := fun w => (a, w).
Definition bind {A B} (c : M A) (k : A -> M B) : M B :=
  fun w => let (a, w') := c w in k a w'.

Definition date_ref : Type := nat.

Fixpoint list_set {A} (i : nat) (x : A) (l : list A) : list A :=
  match l, i with
  | [], _ => []
  | _ :: l', O => x :: l'
  | y :: l', S i' => y :: list_set i' x l'
  end.

Definition alloc (tv : option Z) : M date_ref :=
  fun w => (length (dates w), {| clock := clock w; dates := dates w ++ [tv] |}).

Definition thisTimeValue (d : date_ref) : M (option Z) :=
  fun w => (nth d (dates w) None, w).

Definition setTimeValue (d : date_ref) (tv : option Z) : M unit :=
  fun w => (tt, {| clock := clock w; dates := list_set d tv (dates w) |}).

(** [new Date()] *)
Definition Date_new : M date_ref :=
  fun w => alloc (Some (clock w)) w.

(** [new Date(date)] for a Date object [date] *)
Definition Date_copy (date : date_ref) : M date_ref :=
  bind (thisTimeValue date) alloc.

(** [d.getDate()] *)
Definition getDate (h : Host) (d : date_ref) : M number :=
  bind (thisTimeValue d) (fun tv =>
  ret match tv with
      | None => NaN
      | Some t => of_Z (DateFromTime (LocalTime h t))
      end).

(** The time value [d.setDate(date)] stores when the Date holds [t0]. *)
Definition setDate_value (h : Host) (t0 : Z) (date : number) : option Z :=
  let t := LocalTime h t0 in
  match MakeDay (YearFromTime t) (MonthFromTime t) date with
  | None => None
  | Some day => TimeClip (UTC h (MakeDate day (TimeWithinDay t)))
  end.

(** [d.setDate(date)] *)
Definition setDate (h : Host) (d : date_ref) (date : number) : M unit :=
  bind (thisTimeValue d) (fun tv =>
  match tv with
  | None => ret tt
  | Some t0 => setTimeValue d (setDate_value h t0 date)
  end).

End JsDate.

Import JsDate.

Declare Scope js_scope.
Delimit Scope js_scope with js.
Notation "x <- c ;; k" := (bind c (fun x => k))
  (at level 61, c at next level, right associativity) : js_scope.
Notation "c ;;; k" := (bind c (fun _ => k))
  (at level 61, right associativity) : js_scope.

(** ** srs.ts *)

(** A stored field as the code reads it: a Number, or absent. *)
Inductive value : Type :=
  | VUndefined
  | VNull
  | VNumber (x : number).

(** [v ?? d] *)
Definition nullish (v d : value) : value :=
  match v with
  | VUndefined | VNull => d
  | _ => v
  end.

(** [typeof v === 'number'] *)
Definition typeof_number (v : value) : bool :=
  match v with VNumber _ => true | _ => false end.

(** [ToNumber], applied by [Math.floor] to its argument. *)
Definition ToNumber (v : value) : number :=
  match v with
  | VUndefined => NaN
  | VNull => pos_zero
  | VNumber x => x
  end.

(** The state object: its fields are declared [number]; the code guards
    against absent ones. *)
Record SrsState : Type := mkSrsState {
  intervalDays : value;
  ease : value;
  reps : value
}.

Inductive SrsRating : Type := again | hard | good | easy.

Record SrsResult : Type := mkSrsResult {
  next : SrsState;
  dueAt : date_ref
}.

(** The Number literals of srs.ts. *)
Definition lit_0 : number := Eval vm_compute in of_Z 0.
Definition lit_1 : number := Eval vm_compute in of_Z 1.
Definition lit_2 : number := Eval vm_compute in of_Z 2.
Definition lit_3 : number := Eval vm_compute in of_Z 3.
Definition lit_1_2 : number := Eval vm_compute in decimal 12 1.
Definition lit_1_3 : number := Eval vm_compute in decimal 13 1.
Definition lit_2_5 : number := Eval vm_compute in decimal 25 1.
Definition lit_0_15 : number := Eval vm_compute in decimal 15 2.
Definition lit_0_2 : number := Eval vm_compute in decimal 2 1.

Definition initialSrsState : SrsState :=
  {| intervalDays := VNumber lit_0; ease := VNumber lit_2_5; reps := VNumber lit_0 |}.

Local Open Scope js_scope.

(** [Math.max(0, Math.floor(v ?? 0))], the reading of [intervalDays] and of
    [reps] (lines 22 and 24). *)
Definition read_count (v : value) : number :=
  Math_max lit_0 (Math_floor (ToNumber (nullish v (VNumber lit_0)))).

(** [typeof v === 'number' ? v : 2.5], the reading of [ease] (line 23). *)
Definition read_ease (v : value) : number :=
  if typeof_number v then ToNumber v else lit_2_5.

(** [addDays(date, days)]: a copy of [date] with [days] added to its day of
    the month. *)
Definition addDays (h : Host) (date : date_ref) (days : number) : M date_ref :=
  d <- Date_copy date ;;
  today <- getDate h d ;;
  setDate h d (add today days) ;;;
  ret d.

(** [nextSrs(state, rating)]: reads the clock, normalizes the state,
    applies the rating and returns the next state with its due date. *)
Definition nextSrs (h : Host) (state : SrsState) (rating : SrsRating) : M SrsResult :=
  now <- Date_new ;;
  let intervalDays0 := read_count (intervalDays state) in
  let ease0 := read_ease (ease state) in
  let reps0 := read_count (reps state) in
  match rating with
  | again =>
      let reps1 := lit_0 in
      let intervalDays1 := lit_1 in
      let ease1 := Math_max lit_1_3 (sub ease0 lit_0_2) in
      due <- addDays h now intervalDays1 ;;
      ret {| next := mkSrsState (VNumber intervalDays1) (VNumber ease1) (VNumber reps1);
             dueAt := due |}
  | _ =>
      let reps1 := add reps0 lit_1 in
      let '(intervalDays1, ease1) :=
        match rating with
        | hard =>
            (if strict_eq intervalDays0 lit_0 then lit_1
             else Math_max lit_1 (Math_round (mul intervalDays0 lit_1_2)),
             Math_max lit_1_3 (sub ease0 lit_0_15))
        | good =>
            (if strict_eq intervalDays0 lit_0 then lit_1
             else Math_max lit_1 (Math_round (mul intervalDays0 lit_2_5)),
             ease0)
        | _ =>
            (if strict_eq intervalDays0 lit_0 then lit_2
             else Math_max lit_2 (Math_round (mul intervalDays0 lit_3)),
             add ease0 lit_0_15)
        end in
      due <- addDays h now intervalDays1 ;;
      ret {| next := mkSrsState (VNumber intervalDays1) (VNumber ease1) (VNumber reps1);
             dueAt := due |}
  end.

(** What a caller observes of a call: the next state and the time value of
    the returned Date. *)
Definition run_nextSrs (h : Host) (state : SrsState) (rating : SrsRating)
    (w : World) : SrsState * option Z :=
  let (r, w') := nextSrs h state rating w in
  (next r, fst (thisTimeValue (dueAt r) w')).

(** ** LogHistory.tsx: the day headings *)

Import String.StringSyntax.
Delimit Scope string_scope with string.

(** [d.getFullYear()] *)
Definition getFullYear (h : Host) (d : date_ref) : M number :=
  bind (thisTimeValue d) (fun tv =>
  ret match tv with
      | None => NaN
      | Some t => of_Z (YearFromTime (LocalTime h t))
      end).

(** [d.getMonth()] *)
Definition getMonth (h : Host) (d : date_ref) : M number :=
  bind (thisTimeValue d) (fun tv =>
  ret match tv with
      | None => NaN
      | Some t => of_Z (MonthFromTime (LocalTime h t))
      end).

(** [MakeFullYear]: a year from 0 to 99 stands for 1900 to 1999. *)
Definition MakeFullYear (y : Z) : Z :=
  if (0 <=? y) && (y <=? 99) then 1900 + y else y.

(** The time value of [new Date(year, month, date)]: midnight, local time,
    of the day [MakeDay] gives; NaN ([None]) when an argument is not
    finite or the instant is out of range. *)
Definition Date_fields_value (h : Host) (year month date : number) : option Z :=
  match to_integer year, to_integer month with
  | Some y, Some m =>
      match MakeDay (MakeFullYear y) m date with
      | None => None
      | Some day => TimeClip (UTC h (MakeDate day 0))
      end
  | _, _ => None
  end.

(** [new Date(year, month, date)] *)
Definition Date_of_fields (h : Host) (year month date : number) : M date_ref :=
  alloc (Date_fields_value h year month date).

(** [startOfDay(d)] (LogHistory.tsx, line 58) *)
Definition startOfDay (h : Host) (d : date_ref) : M date_ref :=
  y <- getFullYear h d ;;
  m <- getMonth h d ;;
  dt <- getDate h d ;;
  Date_of_fields h y m dt.

(** [isSameDay(a, b)] (line 62); [&&] evaluates its right operand only
    when the left one is true. *)
Definition isSameDay (h : Host) (a b : date_ref) : M bool :=
  ya <- getFullYear h a ;;
  yb <- getFullYear h b ;;
  if strict_eq ya yb then
    ma <- getMonth h a ;;
    mb <- getMonth h b ;;
    if strict_eq ma mb then
      da <- getDate h a ;;
      db <- getDate h b ;;
      ret (strict_eq da db)
    else ret false
  else ret false.

(** The locale of the host: what [toLocaleDateString], with the options
    [formatDayHeading] passes, prints for a time value. *)
Record Locale : Type := { toLocaleDateString : option Z -> String.string }.

(** [formatDayHeading(d)] (line 66) *)
Definition formatDayHeading (h : Host) (l : Locale) (d : date_ref) : M String.string :=
  now <- Date_new ;;
  today <- startOfDay h now ;;
  yesterday <- Date_copy today ;;
  t <- getDate h today ;;
  setDate h yesterday (sub t lit_1) ;;;
  same <- isSameDay h d today ;;
  if same then ret "Today"%string
  else
    same' <- isSameDay h d yesterday ;;
    if same' then ret "Yesterday"%string
    else
      tv <- thisTimeValue d ;;
      ret (toLocaleDateString l tv).

(** A group of the timeline: a day and the events shown under it. *)
Record Group (E : Type) : Type := mkGroup { day : date_ref; events : list E }.

Arguments mkGroup {E}.
Arguments day {E}.
Arguments events {E}.

(** One round of the loop of [grouped] (LogHistory.tsx, line 203): the
    event [e], whose Date is [at_ e], opens a group when there is none or
    when the last one is of another day, and else joins the last one. *)
Definition group_event {E} (at_ : E -> date_ref) (h : Host)
    (groups : list (Group E)) (e : E) : M (list (Group E)) :=
  d <- startOfDay h (at_ e) ;;
  match rev groups with
  | [] => ret (groups ++ [mkGroup d [e]])
  | last :: _ =>
      same <- isSameDay h (day last) d ;;
      if same
      then ret (removelast groups ++ [mkGroup (day last) (events last ++ [e])])
      else ret (groups ++ [mkGroup d [e]])
  end.

Fixpoint group_events {E} (at_ : E -> date_ref) (h : Host) (es : list E)
    (groups : list (Group E)) : M (list (Group E)) :=
  match es with
  | [] => ret groups
  | e :: rest =>
      groups' <- group_event at_ h groups e ;;
      group_events at_ h rest groups'
  end.

(** [grouped] (line 200) on the visible events. *)
Definition grouped {E} (at_ : E -> date_ref) (h : Host) (visibleEvents : list E)
    : M (list (Group E)) :=
  group_events at_ h visibleEvents [].

(** ** dates.ts: the value of a datetime-local input *)

Definition msPerHour : Z := 3600000.
Definition msPerMinute : Z := 60000.

Definition HourFromTime (t : Z) : Z := (t / msPerHour) mod 24.
Definition MinFromTime (t : Z) : Z := (t / msPerMinute) mod 60.

(** [d.getHours()] *)
Definition getHours (h : Host) (d : date_ref) : M number :=
  bind (thisTimeValue d) (fun tv =>
  ret match tv with
      | None => NaN
      | Some t => of_Z (HourFromTime (LocalTime h t))
      end).

(** [d.getMinutes()] *)
Definition getMinutes (h : Host) (d : date_ref) : M number :=
  bind (thisTimeValue d) (fun tv =>
  ret match tv with
      | None => NaN
      | Some t => of_Z (MinFromTime (LocalTime h t))
      end).

(** [String(n)] for a Number that is NaN, a zero, an infinity or an
    integer below 2^53 in magnitude, printed with all its digits; the
    other Numbers, which the Date getters never return, are not
    modelled ([None]). *)
Definition Number_toString (x : number) : option String.string :=
  match x with
  | S754_nan => Some "NaN"%string
  | S754_zero _ => Some "0"%string
  | S754_infinity s => Some (if s then "-Infinity" else "Infinity")%string
  | S754_finite _ _ _ =>
      match to_integer x with
      | Some z =>
          if isInteger x && (Z.abs z <? 2 ^ 53)
          then Some (DecimalString.NilZero.string_of_int (Z.to_int z))
          else None
      | None => None
      end
  end.

(** The first [n] characters of [fill] repeated, [cur] being what is left
    of the copy in progress. *)
Fixpoint filler (n : nat) (fill cur : String.string) : String.string :=
  match n with
  | O => String.EmptyString
  | S n' =>
      match cur with
      | String.String c rest => String.String c (filler n' fill rest)
      | String.EmptyString =>
          match fill with
          | String.String c rest => String.String c (filler n' fill rest)
          | String.EmptyString => String.EmptyString
          end
      end
  end.

(** [s.padStart(maxLength, fillString)] *)
Definition padStart (maxLength : nat) (fillString s : String.string) : String.string :=
  if (maxLength <=? String.length s)%nat then s
  else String.append (filler (maxLength - String.length s) fillString fillString) s.

(** [pad(n)]: [String(n).padStart(2, '0')] (line 2) *)
Definition pad (n : number) : option String.string :=
  option_map (padStart 2 "0"%string) (Number_toString n).

(** [toLocalDateTimeInputValue(date)] (line 1) *)
Definition toLocalDateTimeInputValue (h : Host) (date : date_ref)
    : M (option String.string) :=
  y <- getFullYear h date ;;
  m <- getMonth h date ;;
  d <- getDate h date ;;
  hh <- getHours h date ;;
  mi <- getMinutes h date ;;
  ret match Number_toString y, pad (add m lit_1), pad d, pad hh, pad mi with
      | Some yyyy, Some mm, Some dd, Some hh', Some min =>
          Some (String.concat ""%string
                  [yyyy; "-"; mm; "-"; dd; "T"; hh'; ":"; min]%string)
      | _, _, _, _, _ => None
      end.

(** ** Notions used in the properties *)

(** A host on UTC, and the clock at 2024-01-30T10:00:00Z with no Date
    allocated yet. *)
Definition utc : Host := {| LocalTZA := fun _ _ => 0 |}.
Definition jan30 : World := {| clock := 1706608800000; dates := [] |}.

(** A host whose clocks go forward by one hour at 2024-03-31T01:00:00Z,
    from UTC+1 to UTC+2: local times from 02:00 to 03:00 of that day do
    not exist and are read with the offset before the change. *)
Definition dst_host : Host :=
  {| LocalTZA := fun t isUTC =>
       if isUTC then (if t <? 1711846800000 then 3600000 else 7200000)
       else (if t <? 1711846800000 + 7200000 then 3600000 else 7200000) |}.

(** [x] is a binary64 value nearest to the fraction [p / q]: it is well
    formed and at most half a unit in the last place away. *)
Definition nearest (x : number) (p q : Z) : Prop :=
  match x with
  | S754_finite false m e =>
      valid x = true /\ e < 0 /\ 2 * Z.abs (q * Zpos m - p * 2 ^ (- e)) <= q
  | _ => False
  end.

(** The time value [addDays] leaves in its fresh Date when [now] holds [t0]. *)
Definition due_value (h : Host) (t0 : Z) (days : number) : option Z :=
  setDate_value h t0 (add (of_Z (DateFromTime (LocalTime h t0))) days).

(** The next state [nextSrs] returns; it depends neither on the host nor
    on the world (lemma [nextSrs_run]), so it is taken from a call on the
    UTC host at the epoch. *)
Definition next_state (state : SrsState) (rating : SrsRating) : SrsState :=
  next (fst (nextSrs utc state rating {| clock := 0; dates := [] |})).

(** A Number that is a non-negative integer. *)
Definition nonneg_integer (x : number) : Prop :=
  valid x = true /\ isInteger x = true /\ leb lit_0 x = true.

(** The state [nextSrs] computes with. *)
Definition normalize (state : SrsState) : SrsState :=
  mkSrsState (VNumber (read_count (intervalDays state)))
             (VNumber (read_ease (ease state)))
             (VNumber (read_count (reps state))).

(** A stored interval of at most 2^53 is read as zero or as a Number
    below 2^54. *)
Definition small_count (y : number) : Prop :=
  y = pos_zero
  \/ exists m e, y = S754_finite false m e
                 /\ canonical_mantissa prec emax m e = true
                 /\ Zpos (digits2_pos m) + e <= 54.

(** The transition of the specification (its section 4.1, step by step in
    its words) on the fields of a normalized state, in the arithmetic of
    Numbers: the next interval ... *)
Definition spec_interval (rating : SrsRating) (i : number) : number :=
  match rating with
  | again => lit_1
  | hard => if strict_eq i lit_0 then lit_1 else Math_max lit_1 (Math_round (mul i lit_1_2))
  | good => if strict_eq i lit_0 then lit_1 else Math_max lit_1 (Math_round (mul i lit_2_5))
  | easy => if strict_eq i lit_0 then lit_2 else Math_max lit_2 (Math_round (mul i lit_3))
  end.

(** ... and the next ease. *)
Definition spec_ease (rating : SrsRating) (e : number) : number :=
  match rating with
  | again => Math_max lit_1_3 (sub e lit_0_2)
  | hard => Math_max lit_1_3 (sub e lit_0_15)
  | good => e
  | easy => add e lit_0_15
  end.

(** Successive reviews of one word: each review runs in its own world and
    starts from the state the previous one returned. *)
Fixpoint review (h : Host) (steps : list (SrsRating * World)) (state : SrsState)
    : SrsState :=
  match steps with
  | [] => state
  | (rating, w) :: rest => review h rest (fst (run_nextSrs h state rating w))
  end.

(** A host whose offset from UTC never changes. *)
Definition fixed_offset (h : Host) (off : Z) : Prop :=
  forall t isUTC, LocalTZA h t isUTC = off.

(** What a caller observes of [addDays(date, days)]: the time value of the
    Date returned, and the world after the call. *)
Definition run_addDays (h : Host) (date : date_ref) (days : number) (w : World)
    : option Z * World :=
  let (d, w') := addDays h date days w in (fst (thisTimeValue d w'), w').

(** The canonical binary64 form of [z * 2^j], for [0 < z < 2^53]. *)
Definition dyadic (z j : Z) : number :=
  S754_finite false (Z.to_pos (z * 2 ^ (53 - Zdigits2 z))) (Zdigits2 z - 53 + j).

(** The next interval in integers: halves are rounded up. *)
Definition interval_Z (rating : SrsRating) (n : Z) : Z :=
  match rating with
  | again => 1
  | hard => Z.max 1 ((12 * n + 5) / 10)
  | good => Z.max 1 ((5 * n + 1) / 2)
  | easy => Z.max 2 (3 * n)
  end.

(** The number of ratings since the last [again], counted from [k]. *)
Fixpoint streak (k : Z) (ratings : list SrsRating) : Z :=
  match ratings with
  | [] => k
  | again :: rest => streak 0 rest
  | _ :: rest => streak (k + 1) rest
  end.

(** Two Dates that read, in local time, as the same calendar day. *)
Definition same_day (h : Host) (ta tb : option Z) : bool :=
  match ta, tb with
  | Some a, Some b => Day (LocalTime h a) =? Day (LocalTime h b)
  | _, _ => false
  end.

(** A time value whose local time is less than 2^53 ms away from the
    epoch, as that of every valid Date is on a host whose offset is
    below 4000 days; an Invalid Date passes. *)
Definition local_range (h : Host) (tv : option Z) : Prop :=
  match tv with
  | Some t => Z.abs (LocalTime h t) < 2 ^ 53
  | None => True
  end.

(** The time value [startOfDay] leaves in its fresh Date. *)
Definition start_value (h : Host) (tv : option Z) : option Z :=
  match tv with
  | None => None
  | Some t =>
      Date_fields_value h (of_Z (YearFromTime (LocalTime h t)))
        (of_Z (MonthFromTime (LocalTime h t))) (of_Z (DateFromTime (LocalTime h t)))
  end.

(** The local calendar day an event reads as, in the world [w]. *)
Definition local_day {E} (at_ : E -> date_ref) (h : Host) (w : World) (e : E)
    : option Z :=
  match nth (at_ e) (dates w) None with
  | Some t => Some (Day (LocalTime h t))
  | None => None
  end.

(** On a host at the constant offset [off]: the Date of the group [g] is
    midnight, local time, of a day [k], and its events read as that day
    (the events in the world [w] the loop started in, the group in the
    world [w'] it has reached). *)
Definition group_is_day {E} (at_ : E -> date_ref) (h : Host) (off : Z)
    (w w' : World) (g : Group E) : Prop :=
  exists k, nth (day g) (dates w') None = Some (k * msPerDay - off)
            /\ forall e, In e (events g) -> local_day at_ h w e = Some k.

(** The Dates of two groups that follow one another are different. *)
Definition neighbours_differ {E} (w' : World) (groups : list (Group E)) : Prop :=
  forall i d1 d2,
    nth_error (map day groups) i = Some d1 ->
    nth_error (map day groups) (S i) = Some d2 ->
    nth d1 (dates w') None <> nth d2 (dates w') None.

(** The decimal digit [d], and numbers written with two and with four
    digits, zeros in front. *)
Definition digit (d : Z) : Ascii.ascii := Ascii.ascii_of_nat (48 + Z.to_nat d).

Definition two_digits (n : Z) : String.string :=
  String.String (digit (n / 10)) (String.String (digit (n mod 10)) String.EmptyString).

Definition four_digits (n : Z) : String.string :=
  String.String (digit (n / 1000))
    (String.String (digit (n / 100 mod 10)) (two_digits (n mod 100))).

(** * Facts on binary64 rounding *)

Module Rounding.

Local Abbreviation fexp := (SpecFloat.fexp prec emax).

Lemma fexp_eq (e : Z) : fexp e = Z.max (e - 53) (-1074).
Proof. reflexivity. Qed.

Lemma fexp_mono (a b : Z) : a <= b -> fexp a <= fexp b.
Proof. rewrite !fexp_eq. lia. Qed.

(** [digits2_pos] counts binary digits. *)
Lemma digits2_pos_log2 (m : positive) :
  Zpos (digits2_pos m) = Z.log2 (Zpos m) + 1.
Proof.
  induction m as [m IH | m IH |]; cbn [digits2_pos]; try reflexivity.
  - rewrite Pos2Z.inj_succ, IH.
    change (Zpos m~1) with (2 * Zpos m + 1).
    rewrite Z.log2_succ_double by lia. lia.
  - rewrite Pos2Z.inj_succ, IH.
    change (Zpos m~0) with (2 * Zpos m).
    rewrite Z.log2_double by lia. lia.
Qed.

Lemma Zdigits2_pos (z : Z) : 0 < z -> Zdigits2 z = Z.log2 z + 1.
Proof.
  destruct z as [| m | m]; try lia. intros _. apply digits2_pos_log2.
Qed.

Lemma Zdigits2_bounds (z : Z) :
  0 < z -> 2 ^ (Zdigits2 z - 1) <= z < 2 ^ Zdigits2 z.
Proof.
  intros Hz. rewrite Zdigits2_pos by assumption.
  replace (Z.log2 z + 1 - 1) with (Z.log2 z) by lia.
  replace (Z.log2 z + 1) with (Z.succ (Z.log2 z)) by lia.
  apply Z.log2_spec. assumption.
Qed.

Lemma Zdigits2_unique (z d : Z) :
  0 < z -> 2 ^ (d - 1) <= z < 2 ^ d -> Zdigits2 z = d.
Proof.
  intros Hz H. rewrite Zdigits2_pos by assumption.
  assert (0 <= d - 1).
  { destruct (Z.le_gt_cases 0 (d - 1)) as [|Hd]; [assumption|].
    assert (2 ^ d <= 1); [|lia].
    destruct (Z.eq_dec d 0) as [->|]; [reflexivity|].
    rewrite Z.pow_neg_r by lia. lia. }
  rewrite (Z.log2_unique z (d - 1)); try lia.
  replace (Z.succ (d - 1)) with d by lia. assumption.
Qed.

Lemma Zdigits2_nonneg (z : Z) : 0 <= Zdigits2 z.
Proof. destruct z; cbn; lia. Qed.

Lemma Zdigits2_mul_pow2 (z j : Z) :
  0 < z -> 0 <= j -> Zdigits2 (z * 2 ^ j) = Zdigits2 z + j.
Proof.
  intros Hz Hj.
  assert (0 < 2 ^ j) by (apply Z.pow_pos_nonneg; lia).
  rewrite !Zdigits2_pos by nia.
  rewrite Z.log2_mul_pow2 by lia. lia.
Qed.

Lemma Zdigits2_div_pow2 (z k : Z) :
  0 < z -> 0 <= k -> k < Zdigits2 z ->
  0 < z / 2 ^ k /\ Zdigits2 (z / 2 ^ k) = Zdigits2 z - k.
Proof.
  intros Hz Hk Hd.
  pose proof (Zdigits2_bounds z Hz) as [Hlo Hhi].
  assert (Hp : 0 < 2 ^ k) by (apply Z.pow_pos_nonneg; lia).
  assert (Hq : 2 ^ (Zdigits2 z - 1 - k) <= z / 2 ^ k).
  { apply Z.div_le_lower_bound; [assumption|].
    rewrite <- Z.pow_add_r by lia.
    replace (k + (Zdigits2 z - 1 - k)) with (Zdigits2 z - 1) by lia. assumption. }
  assert (0 < 2 ^ (Zdigits2 z - 1 - k)) by (apply Z.pow_pos_nonneg; lia).
  split; [lia|].
  apply Zdigits2_unique; [lia|].
  replace (Zdigits2 z - k - 1) with (Zdigits2 z - 1 - k) by lia.
  split; [assumption|].
  apply Z.div_lt_upper_bound; [assumption|].
  rewrite <- Z.pow_add_r by lia.
  replace (k + (Zdigits2 z - k)) with (Zdigits2 z) by lia. assumption.
Qed.

Lemma Zdigits2_small_div (z k : Z) :
  0 < z -> Zdigits2 z <= k -> z / 2 ^ k = 0.
Proof.
  intros Hz Hk. apply Z.div_small.
  pose proof (Zdigits2_bounds z Hz) as [_ Hhi].
  pose proof (Zdigits2_nonneg z).
  assert (2 ^ Zdigits2 z <= 2 ^ k) by (apply Z.pow_le_mono_r; lia).
  lia.
Qed.

Lemma Zdigits2_mono (a b : Z) : 0 < a -> a <= b -> Zdigits2 a <= Zdigits2 b.
Proof.
  intros Ha Hab. rewrite !Zdigits2_pos by lia.
  pose proof (Z.log2_le_mono a b Hab). lia.
Qed.

(** *** Right shifts with round and sticky bits *)

Lemma shr_1_m (r : shr_record) : 0 <= shr_m r -> shr_m (shr_1 r) = shr_m r / 2.
Proof.
  destruct r as [m r s]; cbn [shr_m]; intros Hm.
  destruct m as [| [p | p |] | p]; try lia; cbn [shr_1 shr_m].
  - reflexivity.
  - apply (Z.div_unique _ _ _ 1); lia.
  - apply (Z.div_unique _ _ _ 0); lia.
  - reflexivity.
Qed.

Lemma iter_shr_1_m (p : positive) (r : shr_record) :
  0 <= shr_m r -> shr_m (iter_pos shr_1 p r) = shr_m r / 2 ^ Zpos p.
Proof.
  revert r. induction p as [p IH | p IH |]; intros r Hr; cbn [iter_pos];
    try assert (Hp : 0 < 2 ^ Zpos p) by (apply Z.pow_pos_nonneg; lia).
  - assert (H1 : 0 <= shr_m (shr_1 r)) by (rewrite shr_1_m by assumption; apply Z.div_pos; lia).
    assert (H2 : 0 <= shr_m (iter_pos shr_1 p (shr_1 r)))
      by (rewrite IH by assumption; apply Z.div_pos; assumption).
    rewrite IH, IH, shr_1_m by assumption.
    rewrite !Z.div_div by lia.
    f_equal.
    replace (Zpos p~1) with (1 + Zpos p + Zpos p) by lia.
    rewrite !Z.pow_add_r by lia. change (2 ^ 1) with 2. ring.
  - assert (H2 : 0 <= shr_m (iter_pos shr_1 p r))
      by (rewrite IH by assumption; apply Z.div_pos; assumption).
    rewrite IH, IH by assumption.
    rewrite Z.div_div by lia.
    f_equal.
    replace (Zpos p~0) with (Zpos p + Zpos p) by lia.
    rewrite Z.pow_add_r by lia. reflexivity.
  - rewrite shr_1_m by assumption. reflexivity.
Qed.

Lemma shr_1_exact (c : Z) :
  0 <= c ->
  shr_1 (Build_shr_record (2 * c) false false) = Build_shr_record c false false.
Proof.
  intros Hc. destruct c as [| q | q]; try lia; reflexivity.
Qed.

Lemma iter_shr_1_exact (p : positive) (c : Z) :
  0 <= c ->
  iter_pos shr_1 p (Build_shr_record (c * 2 ^ Zpos p) false false)
  = Build_shr_record c false false.
Proof.
  revert c. induction p as [p IH | p IH |]; intros c Hc; cbn [iter_pos].
  - assert (0 < 2 ^ Zpos p) by (apply Z.pow_pos_nonneg; lia).
    replace (c * 2 ^ Zpos p~1) with (2 * (c * 2 ^ Zpos p * 2 ^ Zpos p)).
    + rewrite shr_1_exact by nia. rewrite IH by nia. apply IH; assumption.
    + replace (Zpos p~1) with (Zpos p + Zpos p + 1) by lia.
      rewrite !Z.pow_add_r by lia. change (2 ^ 1) with 2. ring.
  - assert (0 < 2 ^ Zpos p) by (apply Z.pow_pos_nonneg; lia).
    replace (c * 2 ^ Zpos p~0) with (c * 2 ^ Zpos p * 2 ^ Zpos p).
    + rewrite IH by nia. apply IH; assumption.
    + replace (Zpos p~0) with (Zpos p + Zpos p) by lia.
      rewrite !Z.pow_add_r by lia. ring.
  - replace (c * 2 ^ 1) with (2 * c) by lia. apply shr_1_exact; assumption.
Qed.

(** The shift of an exact record: the mantissa is divided by [2^k], and
    nothing is lost when [2^k] divides it. *)
Lemma shr_exact_record (m e k : Z) :
  0 <= m ->
  exists R,
    shr (Build_shr_record m false false) e k = (R, if 0 <? k then e + k else e)
    /\ shr_m R = (if 0 <? k then m / 2 ^ k else m)
    /\ ((k <= 0 \/ m mod 2 ^ k = 0) -> R = Build_shr_record (shr_m R) false false).
Proof.
  intros Hm. destruct k as [| p | p]; cbn [shr Z.ltb Z.compare].
  - eexists; split; [reflexivity|]. split; [reflexivity|]. intros _. reflexivity.
  - eexists; split; [reflexivity|]. split.
    + apply iter_shr_1_m. assumption.
    + intros [Hk | Hmod]; [lia|].
      assert (Hp : 0 < 2 ^ Zpos p) by (apply Z.pow_pos_nonneg; lia).
      assert (Hq : m = m / 2 ^ Zpos p * 2 ^ Zpos p).
      { pose proof (Z.div_mod m (2 ^ Zpos p)). lia. }
      rewrite Hq at 1 2.
      rewrite iter_shr_1_exact by (apply Z.div_pos; lia). reflexivity.
  - eexists; split; [reflexivity|]. split; [reflexivity|]. intros _. reflexivity.
Qed.

Lemma round_nearest_even_bounds (m : Z) (l : location) :
  m <= round_nearest_even m l <= m + 1.
Proof.
  destruct l as [| []]; cbn [round_nearest_even]; try lia.
  destruct (Z.even m); lia.
Qed.

(** *** The rounding step *)

Lemma succ_digits (q : Z) :
  0 < q ->
  Zdigits2 (q + 1) = Zdigits2 q
  \/ (Zdigits2 (q + 1) = Zdigits2 q + 1 /\ exists m2, 0 < m2 /\ q + 1 = 2 * m2).
Proof.
  intros Hq. rewrite !Zdigits2_pos by lia.
  change (q + 1) with (Z.succ q) at 1 2.
  destruct (Z.log2_succ_or q) as [H | H]; [right | left; lia].
  split; [lia|].
  destruct (Z.log2_eq_succ_is_pow2 q H) as [b Hb].
  assert (1 <= b).
  { destruct (Z.le_gt_cases 1 b) as [|Hlt]; [assumption|].
    assert (2 ^ b <= 1); [|lia].
    destruct (Z.eq_dec b 0) as [->|]; [reflexivity|].
    rewrite Z.pow_neg_r by lia. lia. }
  exists (2 ^ (b - 1)). split; [apply Z.pow_pos_nonneg; lia|].
  replace (q + 1) with (Z.succ q) by lia. rewrite Hb.
  replace b with (1 + (b - 1)) at 1 by lia.
  rewrite Z.pow_add_r by lia. reflexivity.
Qed.

(** Rounding an exact mantissa [mx] at exponent [ex] to the format: with
    [q] the mantissa truncated at the format's exponent [e1], the result
    is zero (then [q = 0]) or a canonical [m * 2^e] within [q .. q + 1]
    units of [2^e1], equal to [q] when nothing is lost. *)
Lemma binary_round_aux_exact (s : bool) (mx ex : Z) :
  0 < mx ->
  ex <= fexp (Zdigits2 mx + ex) ->
  let e1 := fexp (Zdigits2 mx + ex) in
  let q := mx / 2 ^ (e1 - ex) in
  (q = 0 /\ binary_round_aux prec emax s mx ex loc_Exact = S754_zero s)
  \/ exists m e,
       e1 <= e <= e1 + 1
       /\ canonical_mantissa prec emax m e = true
       /\ q <= Zpos m * 2 ^ (e - e1) <= q + 1
       /\ (mx mod 2 ^ (e1 - ex) = 0 -> Zpos m * 2 ^ (e - e1) = q)
       /\ binary_round_aux prec emax s mx ex loc_Exact = rounded s m e.
Proof.
  intros Hmx Hk e1 q.
  assert (Hpk : 0 < 2 ^ (e1 - ex)) by (apply Z.pow_pos_nonneg; lia).
  assert (Hq0 : 0 <= q) by (apply Z.div_pos; lia).
  unfold binary_round_aux, shr_fexp. cbn [shr_record_of_loc]. fold e1.
  destruct (shr_exact_record mx ex (e1 - ex)) as (R & HR & HmR & HexR); [lia|].
  rewrite HR. cbv beta iota.
  assert (He1 : (if 0 <? e1 - ex then ex + (e1 - ex) else ex) = e1)
    by (destruct (Z.ltb_spec 0 (e1 - ex)); lia).
  rewrite He1. clear He1 HR.
  assert (HmR' : shr_m R = q).
  { rewrite HmR. destruct (Z.ltb_spec 0 (e1 - ex)); [reflexivity|].
    unfold q. replace (e1 - ex) with 0 by lia. rewrite Z.div_1_r. reflexivity. }
  clear HmR.
  set (m1 := round_nearest_even (shr_m R) (loc_of_shr_record R)).
  assert (Hm1 : q <= m1 <= q + 1).
  { unfold m1. rewrite <- HmR'. apply round_nearest_even_bounds. }
  assert (Hm1x : mx mod 2 ^ (e1 - ex) = 0 -> m1 = q).
  { intros Hx. unfold m1. rewrite HexR by (right; assumption).
    cbn. assumption. }
  clearbody m1. clear HexR HmR' R.
  set (k2 := fexp (Zdigits2 m1 + e1) - e1).
  destruct (shr_exact_record m1 e1 k2) as (R2 & HR2 & HmR2 & _); [lia|].
  rewrite HR2. cbv beta iota. clear HR2.
  assert (He1 : -1074 <= e1) by (unfold e1; rewrite fexp_eq; lia).
  destruct (Z.eq_dec m1 0) as [Hz | Hnz].
  - (* the rounded mantissa is zero *)
    left. split; [lia|].
    assert (Hk2 : k2 <= 0) by (unfold k2; rewrite Hz; cbn [Zdigits2]; rewrite fexp_eq; lia).
    destruct (Z.ltb_spec 0 k2); [lia|].
    rewrite HmR2, Hz. reflexivity.
  - right.
    assert (Hk2 : k2 = 0 \/ (k2 = 1 /\ exists m2, 0 < m2 /\ m1 = 2 * m2)).
    { destruct (Z.eq_dec q 0) as [Hqz | Hqnz].
      - (* deep underflow: the mantissa was rounded up to one *)
        left. assert (m1 = 1) by lia. subst m1.
        assert (Zdigits2 mx <= e1 - ex).
        { destruct (Z.le_gt_cases (Zdigits2 mx) (e1 - ex)) as [|Hlt]; [assumption|].
          pose proof (Zdigits2_div_pow2 mx (e1 - ex) Hmx ltac:(lia) Hlt) as [Hpos _].
          fold q in Hpos. lia. }
        assert (e1 = -1074) by (unfold e1 in *; rewrite fexp_eq in *; lia).
        unfold k2. cbn [Zdigits2 digits2_pos]. rewrite fexp_eq. lia.
      - assert (Hlt : e1 - ex < Zdigits2 mx).
        { destruct (Z.le_gt_cases (Zdigits2 mx) (e1 - ex)) as [Hle|]; [|lia].
          apply (Zdigits2_small_div mx (e1 - ex) Hmx) in Hle. fold q in Hle. lia. }
        pose proof (Zdigits2_div_pow2 mx (e1 - ex) Hmx ltac:(lia) Hlt) as [_ Hdq].
        fold q in Hdq.
        assert (Hfq : fexp (Zdigits2 q + e1) = e1)
          by (rewrite Hdq; unfold e1; f_equal; lia).
        assert (Hcase : m1 = q \/ m1 = q + 1) by lia.
        destruct Hcase as [-> | ->]; [left; unfold k2; lia|].
        destruct (succ_digits q) as [Hs | [Hs Hev]]; [lia| |].
        + left. unfold k2. rewrite Hs. lia.
        + unfold k2. rewrite Hs.
          assert (fexp (Zdigits2 q + 1 + e1) = e1 \/ fexp (Zdigits2 q + 1 + e1) = e1 + 1).
          { rewrite fexp_eq in *. lia. }
          destruct H as [H | H]; [left; lia | right; split; [lia | assumption]]. }
    destruct Hk2 as [Hk2 | [Hk2 (m2 & Hm2 & Heq)]].
    + destruct (Z.ltb_spec 0 k2); [lia|].
      rewrite HmR2. destruct m1 as [| m | m]; try lia.
      exists m, e1. split; [lia|]. split.
      { unfold canonical_mantissa. apply Z.eqb_eq. unfold k2 in Hk2.
        cbn [Zdigits2] in Hk2. lia. }
      replace (e1 - e1) with 0 by lia. rewrite Z.pow_0_r, Z.mul_1_r.
      split; [lia|]. split; [assumption | reflexivity].
    + destruct (Z.ltb_spec 0 k2); [|lia].
      rewrite HmR2, Hk2.
      replace (m1 / 2 ^ 1) with m2
        by (rewrite Heq, Z.mul_comm; change (2 ^ 1) with 2; rewrite Z.div_mul by lia; reflexivity).
      destruct m2 as [| m | m]; try lia.
      exists m, (e1 + 1). split; [lia|]. split.
      { unfold canonical_mantissa. apply Z.eqb_eq. unfold k2 in Hk2.
        rewrite Heq in Hk2.
        replace (2 * Zpos m) with (Zpos m * 2 ^ 1) in Hk2 by lia.
        rewrite Zdigits2_mul_pow2 in Hk2 by lia.
        cbn [Zdigits2] in Hk2.
        replace (Zpos (digits2_pos m) + (e1 + 1)) with (Zpos (digits2_pos m) + 1 + e1) by lia.
        lia. }
      replace (e1 + 1 - e1) with 1 by lia. change (2 ^ 1) with 2.
      split; [lia|]. split; [intros Hx; specialize (Hm1x Hx); lia | reflexivity].
Qed.

Lemma shl_align_spec (m : positive) (e e' : Z) :
  snd (shl_align m e e') = Z.min e e'
  /\ Zpos (fst (shl_align m e e')) = Zpos m * 2 ^ (e - Z.min e e').
Proof.
  unfold shl_align. destruct (e' - e) as [| d | d] eqn:Hd; cbn [fst snd].
  - split; [lia|]. replace (e - Z.min e e') with 0 by lia. lia.
  - split; [lia|]. replace (e - Z.min e e') with 0 by lia. lia.
  - split; [lia|]. replace (e - Z.min e e') with (Zpos d) by lia.
    fold (shift_pos d m). rewrite shift_pos_correct.
    rewrite Z.mul_comm. reflexivity.
Qed.

(** [binary_round] first aligns the mantissa on the format's exponent,
    then rounds: [q] is the value in units of [2^e1], truncated. *)
Lemma binary_round_spec (s : bool) (m : positive) (e : Z) :
  let e1 := fexp (Zpos (digits2_pos m) + e) in
  let q := if e1 <=? e then Zpos m * 2 ^ (e - e1) else Zpos m / 2 ^ (e1 - e) in
  (q = 0 /\ binary_round prec emax s m e = S754_zero s)
  \/ exists m' e',
       e1 <= e' <= e1 + 1
       /\ canonical_mantissa prec emax m' e' = true
       /\ q <= Zpos m' * 2 ^ (e' - e1) <= q + 1
       /\ ((e1 <= e \/ Zpos m mod 2 ^ (e1 - e) = 0) -> Zpos m' * 2 ^ (e' - e1) = q)
       /\ binary_round prec emax s m e = rounded s m' e'.
Proof.
  intros e1 q. unfold binary_round. fold e1.
  pose proof (shl_align_spec m e e1) as [Hez Hmz].
  destruct (shl_align m e e1) as [mz ez]. cbn [fst snd] in Hez, Hmz.
  assert (Hp : 0 < 2 ^ (e - Z.min e e1)) by (apply Z.pow_pos_nonneg; lia).
  assert (HD : Zdigits2 (Zpos mz) + ez = Zpos (digits2_pos m) + e).
  { rewrite Hmz, Zdigits2_mul_pow2 by lia. cbn [Zdigits2]. lia. }
  pose proof (binary_round_aux_exact s (Zpos mz) ez ltac:(lia)) as H.
  rewrite HD in H. fold e1 in H.
  specialize (H ltac:(lia)). cbv zeta in H.
  assert (Hq : Zpos mz / 2 ^ (e1 - ez) = q
               /\ ((e1 <= e \/ Zpos m mod 2 ^ (e1 - e) = 0) -> Zpos mz mod 2 ^ (e1 - ez) = 0)).
  { unfold q. destruct (Z.leb_spec e1 e) as [Hle | Hlt].
    - replace (e1 - ez) with 0 by lia. rewrite Z.div_1_r, Hmz.
      replace (Z.min e e1) with e1 by lia. split; [reflexivity|].
      intros _. apply Z.mod_1_r.
    - replace (Z.min e e1) with e in * by lia. subst ez.
      replace (e - e) with 0 in Hmz by lia. rewrite Z.mul_1_r in Hmz.
      rewrite Hmz. split; [reflexivity|]. intros [Hle | Hm]; [lia | assumption]. }
  destruct Hq as [Hq Hx]. rewrite Hq in H.
  destruct H as [[H1 H2] | (m' & e' & H1 & H2 & H3 & H4 & H5)]; [left; auto|].
  right. exists m', e'. split; [assumption|]. split; [assumption|].
  split; [assumption|]. split; [|assumption].
  intros Hc. apply H4, Hx, Hc.
Qed.

Lemma rounded_not_nan (s : bool) (m : positive) (e : Z) : rounded s m e <> S754_nan.
Proof. unfold rounded. destruct (e <=? emax - prec); discriminate. Qed.

Lemma rounded_valid (s : bool) (m : positive) (e : Z) :
  canonical_mantissa prec emax m e = true -> valid (rounded s m e) = true.
Proof.
  intros Hc. unfold rounded. destruct (e <=? emax - prec) eqn:He; [|reflexivity].
  unfold valid, valid_binary, bounded. rewrite Hc, He. reflexivity.
Qed.

Lemma binary_round_valid (s : bool) (m : positive) (e : Z) :
  valid (binary_round prec emax s m e) = true.
Proof.
  destruct (binary_round_spec s m e) as [[_ ->] | (m' & e' & _ & Hc & _ & _ & ->)];
    [reflexivity | apply rounded_valid; assumption].
Qed.

Lemma binary_round_not_nan (s : bool) (m : positive) (e : Z) :
  binary_round prec emax s m e <> S754_nan.
Proof.
  destruct (binary_round_spec s m e) as [[_ ->] | (m' & e' & _ & _ & _ & _ & ->)];
    [discriminate | apply rounded_not_nan].
Qed.

Lemma binary_normalize_valid (z e : Z) (s : bool) :
  valid (binary_normalize prec emax z e s) = true.
Proof. destruct z; [reflexivity | apply binary_round_valid ..]. Qed.

Lemma binary_normalize_not_nan (z e : Z) (s : bool) :
  binary_normalize prec emax z e s <> S754_nan.
Proof. destruct z; [discriminate | apply binary_round_not_nan ..]. Qed.

Lemma binary_round_sign (s : bool) (m : positive) (e : Z) :
  binary_round prec emax s m e
  = (if s then SFopp (binary_round prec emax false m e)
     else binary_round prec emax false m e).
Proof.
  destruct s; [|reflexivity].
  unfold binary_round, binary_round_aux.
  destruct (shl_align m e _) as [mz ez].
  destruct (shr_fexp prec emax (Zpos mz) ez loc_Exact) as [r1 e1].
  destruct (shr_fexp prec emax _ e1 loc_Exact) as [r2 e2].
  destruct (shr_m r2); [reflexivity | | reflexivity].
  destruct (e2 <=? emax - prec); reflexivity.
Qed.

(** *** Integers below 2^53 are represented exactly *)

Lemma Zdigits2_le_53 (z : Z) : 0 < z -> (Zdigits2 z <= 53 <-> z < 2 ^ 53).
Proof.
  intros Hz. pose proof (Zdigits2_bounds z Hz) as [Hlo Hhi]. split; intros H.
  - assert (2 ^ Zdigits2 z <= 2 ^ 53) by (apply Z.pow_le_mono_r; lia). lia.
  - destruct (Z.le_gt_cases (Zdigits2 z) 53) as [|Hgt]; [assumption|].
    assert (2 ^ 53 <= 2 ^ (Zdigits2 z - 1)) by (apply Z.pow_le_mono_r; lia). lia.
Qed.

Lemma canonical_int (m : positive) (e z : Z) :
  0 < z -> Zdigits2 z <= 53 ->
  canonical_mantissa prec emax m e = true ->
  Zdigits2 z - 53 <= e ->
  Zpos m * 2 ^ (e - (Zdigits2 z - 53)) = z * 2 ^ (53 - Zdigits2 z) ->
  e = Zdigits2 z - 53 /\ m = Z.to_pos (z * 2 ^ (53 - Zdigits2 z)).
Proof.
  intros Hz Hd Hc He Hv.
  pose proof (Zdigits2_nonneg z).
  assert (Hdz : 1 <= Zdigits2 z) by (rewrite Zdigits2_pos by lia; pose proof (Z.log2_nonneg z); lia).
  assert (Hdig : Zdigits2 (Zpos m) + (e - (Zdigits2 z - 53)) = 53).
  { rewrite <- Zdigits2_mul_pow2 by lia. rewrite Hv.
    rewrite Zdigits2_mul_pow2 by lia. lia. }
  cbn [Zdigits2] in Hdig.
  unfold canonical_mantissa in Hc. apply Z.eqb_eq in Hc.
  rewrite fexp_eq in Hc.
  assert (e = Zdigits2 z - 53) by lia. split; [assumption|].
  subst e. replace (Zdigits2 z - 53 - (Zdigits2 z - 53)) with 0 in Hv by lia.
  rewrite Z.pow_0_r, Z.mul_1_r in Hv. rewrite <- Hv. rewrite Pos2Z.id. reflexivity.
Qed.

Lemma binary_round_int (s : bool) (z k : Z) :
  0 < z -> Zdigits2 z <= 53 -> 0 <= k ->
  binary_round prec emax s (Z.to_pos (z * 2 ^ k)) (- k) = int_float s z.
Proof.
  intros Hz Hd Hk.
  assert (Hpk : 0 < 2 ^ k) by (apply Z.pow_pos_nonneg; lia).
  assert (Hdz : 1 <= Zdigits2 z) by (rewrite Zdigits2_pos by lia; pose proof (Z.log2_nonneg z); lia).
  assert (Hm : Zpos (Z.to_pos (z * 2 ^ k)) = z * 2 ^ k) by (apply Z2Pos.id; nia).
  pose proof (binary_round_spec s (Z.to_pos (z * 2 ^ k)) (- k)) as H.
  change (Zpos (digits2_pos (Z.to_pos (z * 2 ^ k))))
    with (Zdigits2 (Zpos (Z.to_pos (z * 2 ^ k)))) in H.
  rewrite Hm, Zdigits2_mul_pow2 in H by lia.
  replace (Zdigits2 z + k + - k) with (Zdigits2 z) in H by lia.
  rewrite fexp_eq in H.
  replace (Z.max (Zdigits2 z - 53) (-1074)) with (Zdigits2 z - 53) in H by lia.
  cbv zeta in H.
  set (e1 := Zdigits2 z - 53) in *.
  assert (Hp1 : 0 < 2 ^ (53 - Zdigits2 z)) by (apply Z.pow_pos_nonneg; lia).
  assert (Hq : (if e1 <=? - k then z * 2 ^ k * 2 ^ (- k - e1) else z * 2 ^ k / 2 ^ (e1 - - k))
               = z * 2 ^ (53 - Zdigits2 z)
               /\ (e1 <= - k \/ (z * 2 ^ k) mod 2 ^ (e1 - - k) = 0)).
  { destruct (Z.leb_spec e1 (- k)).
    - split; [|left; assumption].
      rewrite <- Z.mul_assoc, <- Z.pow_add_r by lia. do 2 f_equal. lia.
    - assert (Hs : z * 2 ^ k = z * 2 ^ (53 - Zdigits2 z) * 2 ^ (e1 - - k)).
      { rewrite <- Z.mul_assoc, <- Z.pow_add_r by lia. do 2 f_equal. lia. }
      assert (0 < 2 ^ (e1 - - k)) by (apply Z.pow_pos_nonneg; lia).
      rewrite Hs. split; [apply Z.div_mul; lia | right; apply Z.mod_mul; lia]. }
  destruct Hq as [Hq Hx]. rewrite Hq in H.
  destruct H as [[H0 _] | (m' & e' & He' & Hc & _ & Hex & ->)]; [nia|].
  specialize (Hex Hx).
  destruct (canonical_int m' e' z Hz Hd Hc (proj1 He') Hex) as [-> ->].
  unfold rounded, int_float. fold e1.
  destruct (Z.leb_spec e1 (emax - prec)) as [|Hgt]; [reflexivity|].
  unfold emax, prec, e1 in Hgt. lia.
Qed.

Lemma of_Z_pos (z : Z) : 0 < z -> z < 2 ^ 53 -> of_Z z = int_float false z.
Proof.
  intros Hz Hlt. destruct z as [| p | p]; try lia.
  unfold of_Z, binary_normalize.
  rewrite <- (binary_round_int false (Zpos p) 0) by (try apply Zdigits2_le_53; lia).
  rewrite Z.pow_0_r, Z.mul_1_r. reflexivity.
Qed.

Lemma of_Z_neg (z : Z) : 0 < z -> z < 2 ^ 53 -> of_Z (- z) = int_float true z.
Proof.
  intros Hz Hlt. destruct z as [| p | p]; try lia.
  unfold of_Z. cbn [Z.opp binary_normalize].
  rewrite <- (binary_round_int true (Zpos p) 0) by (try apply Zdigits2_le_53; lia).
  rewrite Z.pow_0_r, Z.mul_1_r. reflexivity.
Qed.

(** Addition of two non-negative integers whose sum is below 2^53 is exact. *)
Lemma add_int_float (a b : Z) :
  0 < a -> 0 < b -> a + b < 2 ^ 53 ->
  add (int_float false a) (int_float false b) = int_float false (a + b).
Proof.
  intros Ha Hb Hab.
  assert (Hda : Zdigits2 a <= 53) by (apply Zdigits2_le_53; lia).
  assert (Hdb : Zdigits2 b <= 53) by (apply Zdigits2_le_53; lia).
  assert (Hdab : Zdigits2 (a + b) <= 53) by (apply Zdigits2_le_53; lia).
  assert (H1a : 1 <= Zdigits2 a) by (rewrite Zdigits2_pos by lia; pose proof (Z.log2_nonneg a); lia).
  assert (H1b : 1 <= Zdigits2 b) by (rewrite Zdigits2_pos by lia; pose proof (Z.log2_nonneg b); lia).
  unfold add, int_float, SFadd. cbn [cond_Zopp].
  set (ea := Zdigits2 a - 53). set (eb := Zdigits2 b - 53).
  set (ez := Z.min ea eb).
  pose proof (shl_align_spec (Z.to_pos (a * 2 ^ (53 - Zdigits2 a))) ea ez) as [_ Hxa].
  pose proof (shl_align_spec (Z.to_pos (b * 2 ^ (53 - Zdigits2 b))) eb ez) as [_ Hxb].
  assert (Hpa : 0 < 2 ^ (53 - Zdigits2 a)) by (apply Z.pow_pos_nonneg; lia).
  assert (Hpb : 0 < 2 ^ (53 - Zdigits2 b)) by (apply Z.pow_pos_nonneg; lia).
  rewrite Z2Pos.id in Hxa, Hxb by nia.
  replace (Z.min ea ez) with ez in Hxa by lia.
  replace (Z.min eb ez) with ez in Hxb by lia.
  rewrite <- Z.mul_assoc, <- Z.pow_add_r in Hxa, Hxb by lia.
  replace (53 - Zdigits2 a + (ea - ez)) with (- ez) in Hxa by lia.
  replace (53 - Zdigits2 b + (eb - ez)) with (- ez) in Hxb by lia.
  rewrite Hxa, Hxb.
  assert (Hpz : 0 < 2 ^ (- ez)) by (apply Z.pow_pos_nonneg; lia).
  replace (a * 2 ^ (- ez) + b * 2 ^ (- ez)) with ((a + b) * 2 ^ (- ez)) by ring.
  destruct ((a + b) * 2 ^ (- ez)) as [| p | p] eqn:Hp; try nia.
  cbn [binary_normalize].
  replace p with (Z.to_pos ((a + b) * 2 ^ (- ez))) by (rewrite Hp; reflexivity).
  replace ez with (- (- ez)) at 2 by lia.
  apply binary_round_int; lia.
Qed.

Lemma add_of_Z (a b : Z) :
  0 <= a -> 0 <= b -> a + b < 2 ^ 53 -> add (of_Z a) (of_Z b) = of_Z (a + b).
Proof.
  intros Ha Hb Hab.
  destruct (Z.eq_dec a 0) as [-> | Hna]; destruct (Z.eq_dec b 0) as [-> | Hnb].
  - reflexivity.
  - rewrite Z.add_0_l, (of_Z_pos b) by lia. reflexivity.
  - rewrite Z.add_0_r, (of_Z_pos a) by lia. reflexivity.
  - rewrite !of_Z_pos by lia. apply add_int_float; lia.
Qed.

(** *** Order *)

Lemma leb_refl (x : number) : x <> S754_nan -> leb x x = true.
Proof.
  unfold leb, SFleb, SFcompare.
  destruct x as [sx | sx | | sx mx ex]; intros Hx; try congruence; try (destruct sx; reflexivity).
  change (Pos.compare_cont Eq mx mx) with (Pos.compare mx mx).
  rewrite Z.compare_refl, Pos.compare_refl. destruct sx; reflexivity.
Qed.

Lemma leb_trans (x y z : number) :
  leb x y = true -> leb y z = true -> leb x z = true.
Proof.
  unfold leb, SFleb, SFcompare.
  destruct x as [sx | sx | | sx mx ex], y as [sy | sy | | sy my ey],
           z as [sz | sz | | sz mz ez];
    try discriminate; try (intros; reflexivity);
    try destruct sx; try destruct sy; try destruct sz;
    try discriminate; try (intros; reflexivity);
    change (Pos.compare_cont Eq) with Pos.compare;
    destruct (Z.compare_spec ex ey), (Z.compare_spec ey ez), (Z.compare_spec ex ez);
    try discriminate; try (intros; reflexivity); try lia; subst;
    destruct (Pos.compare_spec mx my), (Pos.compare_spec my mz), (Pos.compare_spec mx mz);
    cbn; try discriminate; try (intros; reflexivity); lia.
Qed.

(** Adding a positive Number never gives less. *)
Lemma add_ge (mx my : positive) (ex ey : Z) :
  canonical_mantissa prec emax mx ex = true ->
  leb (S754_finite false mx ex)
      (add (S754_finite false mx ex) (S754_finite false my ey)) = true.
Proof.
  intros Hc. unfold canonical_mantissa in Hc. apply Z.eqb_eq in Hc.
  change (Zpos (digits2_pos mx)) with (Zdigits2 (Zpos mx)) in Hc.
  unfold add, SFadd. cbn [cond_Zopp].
  set (ez := Z.min ex ey).
  pose proof (shl_align_spec mx ex ez) as [_ Hpx].
  pose proof (shl_align_spec my ey ez) as [_ Hpy].
  replace (Z.min ex ez) with ez in Hpx by lia.
  replace (Z.min ey ez) with ez in Hpy by lia.
  set (px := fst (shl_align mx ex ez)) in *.
  set (py := fst (shl_align my ey ez)) in *.
  change (Zpos px + Zpos py) with (Zpos (px + py)).
  cbn [binary_normalize].
  assert (Hpk : 0 < 2 ^ (ex - ez)) by (apply Z.pow_pos_nonneg; lia).
  assert (Hdx : Zdigits2 (Zpos px) = Zdigits2 (Zpos mx) + (ex - ez))
    by (rewrite Hpx; apply Zdigits2_mul_pow2; lia).
  assert (Hdm : Zdigits2 (Zpos px) <= Zdigits2 (Zpos (px + py)))
    by (apply Zdigits2_mono; lia).
  assert (H1 : 1 <= Zdigits2 (Zpos mx)) by (cbn [Zdigits2]; lia).
  pose proof (binary_round_spec false (px + py) ez) as H.
  change (Zpos (digits2_pos (px + py))) with (Zdigits2 (Zpos (px + py))) in H.
  cbv zeta in H.
  set (e1 := fexp (Zdigits2 (Zpos (px + py)) + ez)) in *.
  assert (He1 : ex <= e1).
  { rewrite <- Hc. apply fexp_mono. lia. }
  assert (He1D : e1 < Zdigits2 (Zpos (px + py)) + ez).
  { unfold e1. rewrite fexp_eq in *. lia. }
  set (q := if e1 <=? ez then Zpos (px + py) * 2 ^ (ez - e1)
            else Zpos (px + py) / 2 ^ (e1 - ez)) in *.
  assert (Hq : 0 < q /\ (e1 = ex -> Zpos mx <= q)).
  { unfold q. destruct (Z.leb_spec e1 ez) as [Hle | Hlt].
    - replace (ez - e1) with 0 by lia. rewrite Z.pow_0_r, Z.mul_1_r.
      split; [lia|]. intros _. replace (ex - ez) with 0 in Hpx by lia.
      rewrite Z.pow_0_r, Z.mul_1_r in Hpx. lia.
    - split.
      + apply Zdigits2_div_pow2; lia.
      + intros Heq. rewrite Heq.
        replace (Zpos mx) with (Zpos px / 2 ^ (ex - ez))
          by (rewrite Hpx; apply Z.div_mul; lia).
        apply Z.div_le_mono; lia. }
  destruct Hq as [Hq0 Hqx].
  destruct H as [[H0 _] | (m' & e' & He' & _ & [Hlo _] & _ & ->)]; [lia|].
  unfold rounded. destruct (e' <=? emax - prec); [|reflexivity].
  unfold leb, SFleb, SFcompare.
  change (Pos.compare_cont Eq mx m') with (Pos.compare mx m').
  destruct (Z.compare_spec ex e') as [Heq | Hlt | Hgt]; [|reflexivity|lia].
  assert (e1 = ex) by lia. specialize (Hqx H).
  replace (e' - e1) with 0 in Hlo by lia. rewrite Z.pow_0_r, Z.mul_1_r in Hlo.
  destruct (Pos.compare_spec mx m'); try reflexivity. lia.
Qed.

Lemma leb_add_pos (x : number) (my : positive) (ey : Z) :
  valid x = true -> leb pos_zero x = true ->
  leb x (add x (S754_finite false my ey)) = true.
Proof.
  intros Hv Hx. destruct x as [sx | [] | | [] mx ex]; try discriminate.
  - reflexivity.
  - reflexivity.
  - apply add_ge. unfold valid, valid_binary, bounded in Hv.
    apply andb_true_iff in Hv. apply Hv.
Qed.

(** *** [Math.floor], [Math.round] and [Math.max] *)

Lemma of_Z_valid (z : Z) : valid (of_Z z) = true.
Proof. apply binary_normalize_valid. Qed.

Lemma of_Z_not_nan (z : Z) : of_Z z <> S754_nan.
Proof. apply binary_normalize_not_nan. Qed.

Lemma of_Z_signed (s : bool) (p : positive) :
  of_Z (signed s p) = binary_round prec emax s p 0.
Proof. destruct s; reflexivity. Qed.

Lemma floor_binary_round (s : bool) (p : positive) :
  Math_floor (binary_round prec emax s p 0) = binary_round prec emax s p 0.
Proof.
  pose proof (binary_round_spec s p 0) as H. cbv zeta in H.
  set (e1 := fexp (Zpos (digits2_pos p) + 0)) in *.
  destruct H as [[_ ->] | (m' & e' & He' & _ & _ & Hex & Hres)]; [reflexivity|].
  rewrite Hres. unfold rounded in *.
  destruct (e' <=? emax - prec); [|reflexivity].
  cbn [Math_floor]. destruct (Z.leb_spec 0 e') as [|Hneg]; [reflexivity|].
  rewrite <- Hres, <- of_Z_signed. f_equal.
  specialize (Hex ltac:(lia)).
  destruct (Z.leb_spec e1 0) as [_|]; [|lia].
  assert (Hp1 : 0 < 2 ^ (e' - e1)) by (apply Z.pow_pos_nonneg; lia).
  assert (Hp2 : 0 < 2 ^ (- e')) by (apply Z.pow_pos_nonneg; lia).
  assert (Hm : Zpos m' = Zpos p * 2 ^ (- e')).
  { apply (Z.mul_reg_r _ _ (2 ^ (e' - e1))); [lia|].
    rewrite Hex, <- Z.mul_assoc, <- Z.pow_add_r by lia. do 2 f_equal. lia. }
  unfold signed. destruct s; cbn [cond_Zopp].
  - rewrite Hm, <- Z.mul_opp_l. apply Z.div_mul. lia.
  - rewrite Hm. apply Z.div_mul. lia.
Qed.

Lemma floor_of_Z (z : Z) : Math_floor (of_Z z) = of_Z z.
Proof.
  destruct z as [| p | p]; [reflexivity | |].
  - apply (floor_binary_round false).
  - apply (floor_binary_round true).
Qed.

(** The results of [Math.floor] and [Math.round] have no fractional part. *)
Lemma floor_floor (x : number) : Math_floor (Math_floor x) = Math_floor x.
Proof.
  destruct x as [sx | sx | | sx m e]; try reflexivity.
  cbn [Math_floor]. destruct (0 <=? e) eqn:He.
  - cbn [Math_floor]. rewrite He. reflexivity.
  - apply floor_of_Z.
Qed.

Lemma floor_round (x : number) : Math_floor (Math_round x) = Math_round x.
Proof.
  destruct x as [sx | sx | | sx m e]; try reflexivity.
  cbn [Math_round]. destruct (0 <=? e) eqn:He.
  - cbn [Math_floor]. rewrite He. reflexivity.
  - cbv zeta. destruct (_ =? 0); [reflexivity | apply floor_of_Z].
Qed.

Lemma floor_valid (x : number) : valid x = true -> valid (Math_floor x) = true.
Proof.
  destruct x as [sx | sx | | sx m e]; try (intros; reflexivity).
  intros Hv. cbn [Math_floor]. destruct (0 <=? e); [assumption | apply of_Z_valid].
Qed.

Lemma floor_not_nan (x : number) : x <> S754_nan -> Math_floor x <> S754_nan.
Proof.
  destruct x as [sx | sx | | sx m e]; try (intros; assumption).
  intros _. cbn [Math_floor]. destruct (0 <=? e); [discriminate | apply of_Z_not_nan].
Qed.

Lemma round_not_nan (x : number) : x <> S754_nan -> Math_round x <> S754_nan.
Proof.
  destruct x as [sx | sx | | sx m e]; try (intros; assumption).
  intros _. cbn [Math_round]. destruct (0 <=? e); [discriminate |].
  cbv zeta. destruct (_ =? 0); [discriminate | apply of_Z_not_nan].
Qed.

Lemma max_step_neg_infinity (a : number) :
  a <> S754_nan -> max_step neg_infinity a = a.
Proof. destruct a as [[] | [] | | [] m e]; intros H; try reflexivity; congruence. Qed.

Lemma Math_max_not_nan (a b : number) :
  a <> S754_nan -> b <> S754_nan -> Math_max a b = max_step a b.
Proof.
  intros Ha Hb. unfold Math_max.
  replace (is_nan a) with false by (destruct a; cbn; congruence).
  replace (is_nan b) with false by (destruct b; cbn; congruence).
  cbn [orb]. rewrite max_step_neg_infinity by assumption. reflexivity.
Qed.

Lemma max_step_cases (h n : number) : max_step h n = h \/ max_step h n = n.
Proof.
  unfold max_step. destruct n as [[] | | |], h as [[] | | |]; auto;
    match goal with |- context [if ?c then _ else _] => destruct c end; auto.
Qed.

Lemma Math_max_cases (a b : number) :
  Math_max a b = S754_nan \/ Math_max a b = a \/ Math_max a b = b.
Proof.
  destruct a as [sa | sa | | sa ma ea] eqn:Ea; try (left; reflexivity);
  destruct b as [sb | sb | | sb mb eb] eqn:Eb; try (left; reflexivity);
    right; rewrite Math_max_not_nan by discriminate; apply max_step_cases.
Qed.

Lemma ltb_leb (a b : number) : ltb a b = true -> leb a b = true.
Proof.
  unfold ltb, leb, SFltb, SFleb. destruct (SFcompare a b) as [[]|]; congruence.
Qed.

Lemma max_step_ge (h n : number) :
  h <> S754_nan -> leb h (max_step h n) = true.
Proof.
  intros Hh. unfold max_step.
  destruct n as [[] | sn | | sn mn en], h as [[] | sh | | sh mh eh];
    try congruence; try reflexivity;
    match goal with
    | |- context [if ltb ?a ?b then _ else _] =>
        destruct (ltb a b) eqn:E; [apply ltb_leb, E | apply leb_refl; discriminate]
    end.
Qed.

(** [Math.max(a, b) >= a] unless an argument is NaN. *)
Lemma Math_max_ge (a b : number) :
  a <> S754_nan -> b <> S754_nan -> leb a (Math_max a b) = true.
Proof.
  intros Ha Hb. rewrite Math_max_not_nan by assumption. apply max_step_ge, Ha.
Qed.

Lemma Math_max_valid (a b : number) :
  valid a = true -> valid b = true -> valid (Math_max a b) = true.
Proof.
  intros Ha Hb. destruct (Math_max_cases a b) as [-> | [-> | ->]]; auto.
Qed.

Lemma Math_max_floor (a b : number) :
  Math_floor a = a -> Math_floor b = b -> Math_floor (Math_max a b) = Math_max a b.
Proof.
  intros Ha Hb. destruct (Math_max_cases a b) as [-> | [-> | ->]]; auto.
Qed.

(** *** Arithmetic keeps Numbers well formed *)

Lemma add_valid (x y : number) :
  valid x = true -> valid y = true -> valid (add x y) = true.
Proof.
  intros Hx Hy. destruct x as [sx | sx | | sx mx ex], y as [sy | sy | | sy my ey];
    try reflexivity; try assumption;
    try (destruct sx, sy; reflexivity).
  apply binary_normalize_valid.
Qed.

Lemma sub_valid (x y : number) :
  valid x = true -> valid y = true -> valid (sub x y) = true.
Proof.
  intros Hx Hy. destruct x as [sx | sx | | sx mx ex], y as [sy | sy | | sy my ey];
    try reflexivity; try assumption;
    try (destruct sx, sy; reflexivity).
  apply binary_normalize_valid.
Qed.

Lemma add_not_nan (x y : number) :
  x <> S754_nan -> is_finite y = true -> add x y <> S754_nan.
Proof.
  intros Hx Hy. destruct x as [sx | sx | | sx mx ex], y as [sy | sy | | sy my ey];
    try discriminate; try congruence;
    try (destruct sx, sy; discriminate).
  apply binary_normalize_not_nan.
Qed.

Lemma sub_not_nan (x y : number) :
  x <> S754_nan -> is_finite y = true -> sub x y <> S754_nan.
Proof.
  intros Hx Hy. destruct x as [sx | sx | | sx mx ex], y as [sy | sy | | sy my ey];
    try discriminate; try congruence;
    try (destruct sx, sy; discriminate).
  apply binary_normalize_not_nan.
Qed.

Lemma shr_record_of_loc_m (m : Z) (l : location) : shr_m (shr_record_of_loc m l) = m.
Proof. destruct l as [| []]; reflexivity. Qed.

Lemma shr_m_nonneg (r : shr_record) (e k : Z) :
  0 <= shr_m r -> 0 <= shr_m (fst (shr r e k)).
Proof.
  intros Hr. destruct k as [| p | p]; cbn [shr fst]; try assumption.
  rewrite iter_shr_1_m by assumption.
  apply Z.div_pos; [assumption | apply Z.pow_pos_nonneg; lia].
Qed.

Lemma binary_round_aux_not_nan (s : bool) (mx ex : Z) (lx : location) :
  0 <= mx -> binary_round_aux prec emax s mx ex lx <> S754_nan.
Proof.
  intros Hmx. unfold binary_round_aux, shr_fexp.
  pose proof (shr_m_nonneg (shr_record_of_loc mx lx) ex
                (fexp (Zdigits2 mx + ex) - ex)) as H1.
  rewrite shr_record_of_loc_m in H1. specialize (H1 Hmx).
  destruct (shr (shr_record_of_loc mx lx) ex _) as [r1 e1]. cbn [fst] in H1.
  set (m1 := round_nearest_even (shr_m r1) (loc_of_shr_record r1)).
  assert (Hm1 : 0 <= m1)
    by (pose proof (round_nearest_even_bounds (shr_m r1) (loc_of_shr_record r1)); unfold m1; lia).
  pose proof (shr_m_nonneg (shr_record_of_loc m1 loc_Exact) e1
                (fexp (Zdigits2 m1 + e1) - e1)) as H2.
  rewrite shr_record_of_loc_m in H2. specialize (H2 Hm1).
  destruct (shr (shr_record_of_loc m1 loc_Exact) e1 _) as [r2 e2]. cbn [fst] in H2.
  destruct (shr_m r2) as [| m | m]; [discriminate | | lia].
  destruct (e2 <=? emax - prec); discriminate.
Qed.

Lemma mul_not_nan (x y : number) :
  x <> S754_nan -> (exists s m e, y = S754_finite s m e) -> mul x y <> S754_nan.
Proof.
  intros Hx (sy & my & ey & ->).
  destruct x as [sx | sx | | sx mx ex]; try discriminate; try congruence.
  apply binary_round_aux_not_nan. lia.
Qed.

Lemma Zdigits2_mul (a b : Z) :
  0 < a -> 0 < b ->
  Zdigits2 a + Zdigits2 b - 1 <= Zdigits2 (a * b) <= Zdigits2 a + Zdigits2 b.
Proof.
  intros Ha Hb. rewrite !Zdigits2_pos by nia.
  pose proof (Z.log2_mul_below a b Ha Hb).
  pose proof (Z.log2_mul_above a b ltac:(lia) ltac:(lia)). lia.
Qed.

(** A product of well-formed Numbers that stays below [2^1023] is finite. *)
Lemma mul_finite (sx sy : bool) (mx my : positive) (ex ey : Z) :
  canonical_mantissa prec emax mx ex = true ->
  canonical_mantissa prec emax my ey = true ->
  Zpos (digits2_pos mx) + ex + (Zpos (digits2_pos my) + ey) <= 1023 ->
  is_finite (mul (S754_finite sx mx ex) (S754_finite sy my ey)) = true
  /\ valid (mul (S754_finite sx mx ex) (S754_finite sy my ey)) = true.
Proof.
  intros Hcx Hcy Hmag.
  unfold canonical_mantissa in Hcx, Hcy. apply Z.eqb_eq in Hcx, Hcy.
  rewrite fexp_eq in Hcx, Hcy.
  pose proof (Zdigits2_mul (Zpos mx) (Zpos my) ltac:(lia) ltac:(lia)) as Hd.
  change (Zpos mx * Zpos my) with (Zpos (mx * my)) in Hd. cbn [Zdigits2] in Hd.
  unfold mul, SFmul.
  pose proof (binary_round_aux_exact (xorb sx sy) (Zpos (mx * my)) (ex + ey) ltac:(lia)) as H.
  cbn [Zdigits2] in H. rewrite fexp_eq in H.
  specialize (H ltac:(lia)). cbv zeta in H.
  destruct H as [[_ ->] | (m' & e' & He' & Hc & _ & _ & ->)]; [split; reflexivity|].
  split; [|apply rounded_valid; assumption].
  unfold rounded. destruct (Z.leb_spec e' (emax - prec)) as [|Hgt]; [reflexivity|].
  unfold emax, prec in Hgt. lia.
Qed.

End Rounding.

(** * Facts on the calendar *)

Module Calendar.

Import Rounding.

Lemma DayFromYear_succ (y : Z) : DayFromYear (y + 1) = DayFromYear y + DaysInYear y.
Proof.
  unfold DayFromYear, DaysInYear.
  destruct (Z.eqb_spec (y mod 4) 0), (Z.eqb_spec (y mod 100) 0),
    (Z.eqb_spec (y mod 400) 0); cbn [andb orb negb];
    Z.div_mod_to_equations; lia.
Qed.

(** [YearFromTime] is the year the day falls in. *)
Lemma YearFromTime_spec (t : Z) :
  DayFromYear (YearFromTime t) <= Day t < DayFromYear (YearFromTime t + 1).
Proof.
  unfold YearFromTime. set (d := Day t). clearbody d.
  set (y := 1970 + 400 * d / 146097).
  assert (Hy : 146097 * (y - 1970) <= 400 * d < 146097 * (y - 1970) + 146097)
    by (unfold y; Z.div_mod_to_equations; lia).
  clearbody y.
  destruct (Z.ltb_spec d (DayFromYear y)) as [H1 | H1];
    [|destruct (Z.leb_spec (DayFromYear (y + 1)) d) as [H2 | H2]].
  - split; [|replace (y - 1 + 1) with y by lia; assumption].
    unfold DayFromYear in *. Z.div_mod_to_equations. lia.
  - split; [assumption|].
    unfold DayFromYear in *. Z.div_mod_to_equations. lia.
  - split; assumption.
Qed.

Lemma InLeapYear_eq (t : Z) : DaysInYear (YearFromTime t) = 365 + InLeapYear t.
Proof.
  unfold InLeapYear, DaysInYear.
  destruct (_ && _); reflexivity.
Qed.

Lemma InLeapYear_range (t : Z) : InLeapYear t = 0 \/ InLeapYear t = 1.
Proof. unfold InLeapYear. destruct (_ =? 366); auto. Qed.

Lemma DayWithinYear_range (t : Z) : 0 <= DayWithinYear t < 365 + InLeapYear t.
Proof.
  unfold DayWithinYear. pose proof (YearFromTime_spec t) as H.
  rewrite DayFromYear_succ, InLeapYear_eq in H. lia.
Qed.

Ltac month_cases :=
  repeat match goal with
         | |- context [?a <? ?b] => destruct (Z.ltb_spec a b)
         end.

Lemma MonthFromTime_range (t : Z) : 0 <= MonthFromTime t <= 11.
Proof. unfold MonthFromTime. cbv zeta. month_cases; lia. Qed.

(** The day of the month counts from the first of the month. *)
Lemma DateFromTime_eq (t : Z) :
  DateFromTime t
  = DayWithinYear t - DaysBeforeMonth (MonthFromTime t) (InLeapYear t) + 1.
Proof.
  unfold DateFromTime, MonthFromTime. cbv zeta.
  month_cases; cbn [DaysBeforeMonth]; lia.
Qed.

Lemma DateFromTime_range (t : Z) : 1 <= DateFromTime t <= 31.
Proof.
  pose proof (DayWithinYear_range t). pose proof (InLeapYear_range t).
  unfold DateFromTime, MonthFromTime. cbv zeta.
  month_cases; lia.
Qed.

Lemma DayFromYear_mono (a b : Z) : a <= b -> DayFromYear a <= DayFromYear b.
Proof.
  intros Hab. unfold DayFromYear.
  pose proof (Z.div_le_mono (a - 1969) (b - 1969) 4 ltac:(lia) ltac:(lia)).
  pose proof (Z.div_le_mono (a - 1601) (b - 1601) 400 ltac:(lia) ltac:(lia)).
  assert ((b - 1901) / 100 - (a - 1901) / 100 <= 365 * (b - a))
    by (Z.div_mod_to_equations; lia).
  lia.
Qed.

Lemma YearFromTime_unique (t y : Z) :
  DayFromYear y <= Day t < DayFromYear (y + 1) -> YearFromTime t = y.
Proof.
  intros Hy. pose proof (YearFromTime_spec t) as HY.
  set (Y := YearFromTime t) in *. clearbody Y.
  destruct (Z.lt_trichotomy Y y) as [Hlt | [Heq | Hgt]]; [|assumption|].
  - pose proof (DayFromYear_mono (Y + 1) y ltac:(lia)). lia.
  - pose proof (DayFromYear_mono (y + 1) Y ltac:(lia)). lia.
Qed.

(** The day [MakeDay] starts from is the first of the month asked for. *)
Lemma first_of_month (y m : Z) :
  0 <= m <= 11 ->
  let leap := if DaysInYear y =? 366 then 1 else 0 in
  let t := (DayFromYear y + DaysBeforeMonth m leap) * msPerDay in
  YearFromTime t = y /\ MonthFromTime t = m /\ DateFromTime t = 1.
Proof.
  intros Hm leap t.
  assert (Hday : Day t = DayFromYear y + DaysBeforeMonth m leap)
    by (unfold t, Day, msPerDay; apply Z.div_mul; lia).
  assert (Hleap : DaysInYear y = 365 + leap).
  { unfold leap, DaysInYear. destruct (_ && _); reflexivity. }
  assert (Hl : leap = 0 \/ leap = 1) by (unfold leap; destruct (_ =? _); auto).
  assert (Hb : 0 <= DaysBeforeMonth m leap < 365).
  { assert (Hc : m = 0 \/ m = 1 \/ m = 2 \/ m = 3 \/ m = 4 \/ m = 5 \/ m = 6
                 \/ m = 7 \/ m = 8 \/ m = 9 \/ m = 10 \/ m = 11) by lia.
    repeat (destruct Hc as [-> | Hc]; [cbn [DaysBeforeMonth]; lia|]).
    subst m. cbn [DaysBeforeMonth]. lia. }
  assert (HY : YearFromTime t = y).
  { apply YearFromTime_unique. rewrite Hday, DayFromYear_succ. lia. }
  assert (HL : InLeapYear t = leap) by (unfold InLeapYear; rewrite HY; reflexivity).
  assert (HW : DayWithinYear t = DaysBeforeMonth m leap)
    by (unfold DayWithinYear; rewrite HY, Hday; lia).
  assert (HM : MonthFromTime t = m).
  { unfold MonthFromTime. cbv zeta. rewrite HW, HL.
    assert (Hc : m = 0 \/ m = 1 \/ m = 2 \/ m = 3 \/ m = 4 \/ m = 5 \/ m = 6
                 \/ m = 7 \/ m = 8 \/ m = 9 \/ m = 10 \/ m = 11) by lia.
    clear -Hl Hc.
    repeat (destruct Hc as [-> | Hc]; [cbn [DaysBeforeMonth]; month_cases; lia|]).
    subst m. cbn [DaysBeforeMonth]. month_cases; lia. }
  split; [assumption|]. split; [assumption|].
  rewrite DateFromTime_eq, HW, HM, HL. lia.
Qed.

Lemma to_integer_of_Z (z : Z) : 0 <= z < 2 ^ 53 -> to_integer (of_Z z) = Some z.
Proof.
  intros Hz. destruct (Z.eq_dec z 0) as [-> | Hnz]; [reflexivity|].
  rewrite of_Z_pos by lia. unfold int_float, to_integer, signed. cbn [cond_Zopp].
  assert (Hd : Zdigits2 z <= 53) by (apply Zdigits2_le_53; lia).
  assert (Hp : 0 < 2 ^ (53 - Zdigits2 z)) by (apply Z.pow_pos_nonneg; lia).
  rewrite Z2Pos.id by nia. f_equal.
  destruct (Z.leb_spec 0 (Zdigits2 z - 53)).
  - replace (53 - Zdigits2 z) with 0 by lia. replace (Zdigits2 z - 53) with 0 by lia. lia.
  - replace (- (Zdigits2 z - 53)) with (53 - Zdigits2 z) by lia.
    apply Z.quot_mul. lia.
Qed.

(** [setDate(getDate() + n)] moves the day number by [n]. *)
Lemma MakeDay_from_date (t n : Z) :
  0 <= n -> n < 2 ^ 53 - 31 ->
  MakeDay (YearFromTime t) (MonthFromTime t) (add (of_Z (DateFromTime t)) (of_Z n))
  = Some (Day t + n).
Proof.
  intros Hn0 Hn.
  pose proof (DateFromTime_range t) as Hd.
  pose proof (MonthFromTime_range t) as Hm.
  rewrite add_of_Z by lia.
  unfold MakeDay. rewrite to_integer_of_Z by lia.
  replace (MonthFromTime t / 12) with 0 by (symmetry; apply Z.div_small; lia).
  rewrite Z.mod_small, Z.add_0_r by lia.
  fold (InLeapYear t). rewrite DateFromTime_eq. unfold DayWithinYear.
  f_equal. lia.
Qed.

Lemma MakeDate_Day (day time : Z) :
  0 <= time < msPerDay ->
  Day (MakeDate day time) = day /\ TimeWithinDay (MakeDate day time) = time.
Proof.
  intros Ht. unfold Day, TimeWithinDay, MakeDate, msPerDay in *.
  Z.div_mod_to_equations. lia.
Qed.

Lemma TimeWithinDay_range (t : Z) : 0 <= TimeWithinDay t < msPerDay.
Proof. unfold TimeWithinDay, msPerDay. apply Z.mod_pos_bound. lia. Qed.

End Calendar.

(** * The scheduler *)

Module Srs.

Import Rounding.

(** ** The calls on Date objects *)

Lemma nth_length {A} (l : list A) (x d : A) : nth (length l) (l ++ [x]) d = x.
Proof. induction l as [| y l IH]; [reflexivity | exact IH]. Qed.

Lemma list_set_length {A} (l : list A) (x y : A) :
  list_set (length l) y (l ++ [x]) = l ++ [y].
Proof. induction l as [| z l IH]; [reflexivity | cbn; rewrite IH; reflexivity]. Qed.

(** [addDays] allocates one Date, a copy of its argument moved by [days];
    the argument and every other Date are left as they were. *)
Lemma addDays_run (h : Host) (d : date_ref) (days : number) (w : World) :
  addDays h d days w
  = (length (dates w),
     {| clock := clock w;
        dates := dates w ++ [match nth d (dates w) None with
                             | None => None
                             | Some t0 => due_value h t0 days
                             end] |}).
Proof.
  unfold addDays, Date_copy, getDate, setDate, bind, thisTimeValue, alloc, ret,
    setTimeValue.
  cbn [clock dates]. rewrite nth_length.
  destruct (nth d (dates w) None) as [t0 |]; cbn [clock dates].
  - rewrite list_set_length. reflexivity.
  - reflexivity.
Qed.

Opaque addDays.

Lemma nextSrs_run (h : Host) (state : SrsState) (rating : SrsRating) (w : World) :
  nextSrs h state rating w
  = ({| next := next_state state rating; dueAt := S (length (dates w)) |},
     {| clock := clock w;
        dates := (dates w ++ [Some (clock w)])
                 ++ [due_value h (clock w)
                       (ToNumber (intervalDays (next_state state rating)))] |}).
Proof.
  unfold next_state, nextSrs, bind, Date_new, alloc, ret.
  destruct rating; cbn [clock dates]; rewrite !addDays_run;
    cbn [clock dates fst next intervalDays ToNumber length app];
    rewrite nth_length, length_app; cbn [length nth];
    rewrite Nat.add_1_r; reflexivity.
Qed.

(** What a caller observes of a call. *)
Lemma run_nextSrs_eq (h : Host) (state : SrsState) (rating : SrsRating) (w : World) :
  run_nextSrs h state rating w
  = (next_state state rating,
     due_value h (clock w) (ToNumber (intervalDays (next_state state rating)))).
Proof.
  unfold run_nextSrs. rewrite nextSrs_run.
  cbn [next dueAt thisTimeValue fst dates].
  replace (S (length (dates w))) with (length (dates w ++ [Some (clock w)]))
    by (rewrite length_app, Nat.add_1_r; reflexivity).
  rewrite nth_length. reflexivity.
Qed.

(** ** The four branches *)

Lemma next_state_again (state : SrsState) :
  next_state state again
  = mkSrsState (VNumber lit_1)
      (VNumber (Math_max lit_1_3 (sub (read_ease (ease state)) lit_0_2)))
      (VNumber lit_0).
Proof.
  unfold next_state, nextSrs, bind, Date_new, alloc, ret.
  rewrite addDays_run. reflexivity.
Qed.

Lemma next_state_hard (state : SrsState) :
  next_state state hard
  = mkSrsState
      (VNumber (if strict_eq (read_count (intervalDays state)) lit_0 then lit_1
                else Math_max lit_1 (Math_round (mul (read_count (intervalDays state)) lit_1_2))))
      (VNumber (Math_max lit_1_3 (sub (read_ease (ease state)) lit_0_15)))
      (VNumber (add (read_count (reps state)) lit_1)).
Proof.
  unfold next_state, nextSrs, bind, Date_new, alloc, ret.
  rewrite addDays_run. reflexivity.
Qed.

Lemma next_state_good (state : SrsState) :
  next_state state good
  = mkSrsState
      (VNumber (if strict_eq (read_count (intervalDays state)) lit_0 then lit_1
                else Math_max lit_1 (Math_round (mul (read_count (intervalDays state)) lit_2_5))))
      (VNumber (read_ease (ease state)))
      (VNumber (add (read_count (reps state)) lit_1)).
Proof.
  unfold next_state, nextSrs, bind, Date_new, alloc, ret.
  rewrite addDays_run. reflexivity.
Qed.

Lemma next_state_easy (state : SrsState) :
  next_state state easy
  = mkSrsState
      (VNumber (if strict_eq (read_count (intervalDays state)) lit_0 then lit_2
                else Math_max lit_2 (Math_round (mul (read_count (intervalDays state)) lit_3))))
      (VNumber (add (read_ease (ease state)) lit_0_15))
      (VNumber (add (read_count (reps state)) lit_1)).
Proof.
  unfold next_state, nextSrs, bind, Date_new, alloc, ret.
  rewrite addDays_run. reflexivity.
Qed.

(** ** Reading a normalized state *)

Lemma strict_eq_finite (a : number) (s : bool) (m : positive) (e : Z) :
  strict_eq a (S754_finite s m e) = true -> a = S754_finite s m e.
Proof.
  unfold strict_eq, SFeqb, SFcompare.
  destruct a as [sa | sa | | sa ma ea]; try discriminate;
    try (destruct sa; discriminate); try (destruct s; discriminate).
  change (Pos.compare_cont Eq ma m) with (Pos.compare ma m).
  destruct sa, s; try discriminate;
    destruct (Z.compare_spec ea e); try discriminate;
    destruct (Pos.compare_spec ma m); try discriminate; intros _; subst; reflexivity.
Qed.

(** Reading a non-negative integer gives it back, and +0 for -0. *)
Lemma read_count_integer (x : number) :
  nonneg_integer x ->
  read_count (VNumber x) = x \/ (x = neg_zero /\ read_count (VNumber x) = pos_zero).
Proof.
  intros (_ & Hi & Hp). unfold isInteger in Hi. apply andb_true_iff in Hi.
  destruct Hi as [Hf He].
  destruct x as [[] | sx | | [] m e]; try discriminate.
  - right. split; reflexivity.
  - left. reflexivity.
  - left. apply strict_eq_finite in He.
    unfold read_count. cbn [nullish ToNumber]. rewrite He. reflexivity.
Qed.

(** The literals of srs.ts and the decimals of the specification's
    examples denote the nearest binary64 values. *)
Lemma literals_nearest :
  nearest lit_1_2 12 10 /\ nearest lit_1_3 13 10 /\ nearest lit_2_5 25 10
  /\ nearest lit_0_15 15 100 /\ nearest lit_0_2 2 10
  /\ nearest (decimal 265 2) 265 100 /\ nearest (decimal 235 2) 235 100
  /\ nearest (decimal 23 1) 23 10.
Proof. repeat split; vm_compute; congruence. Qed.

(** ** Reading any stored value *)

Lemma canonical_lt (m : positive) (e : Z) :
  canonical_mantissa prec emax m e = true -> Zpos m < 2 ^ 53.
Proof.
  intros Hc. unfold canonical_mantissa in Hc. apply Z.eqb_eq in Hc.
  rewrite fexp_eq in Hc. apply Zdigits2_le_53; [lia|]. cbn [Zdigits2]. lia.
Qed.

Lemma valid_canonical (s : bool) (m : positive) (e : Z) :
  valid (S754_finite s m e) = true -> canonical_mantissa prec emax m e = true.
Proof.
  unfold valid, valid_binary, bounded. intros H.
  apply andb_true_iff in H. apply H.
Qed.

Lemma of_Z_finite (z : Z) : - 2 ^ 53 < z < 2 ^ 53 -> is_finite (of_Z z) = true.
Proof.
  intros Hz. destruct (Z.lt_trichotomy z 0) as [Hneg | [-> | Hpos]].
  - replace z with (- (- z)) by lia. rewrite of_Z_neg by lia. reflexivity.
  - reflexivity.
  - rewrite of_Z_pos by lia. reflexivity.
Qed.

Lemma floor_finite (x : number) :
  valid x = true -> is_finite x = true -> is_finite (Math_floor x) = true.
Proof.
  destruct x as [sx | sx | | s m e]; try (intros; assumption).
  intros Hv _. apply valid_canonical, canonical_lt in Hv.
  cbn [Math_floor]. destruct (Z.leb_spec 0 e); [reflexivity|].
  apply of_Z_finite.
  assert (Hp : 0 < 2 ^ (- e)) by (apply Z.pow_pos_nonneg; lia).
  unfold signed. destruct s; cbn [cond_Zopp].
  - split.
    + apply Z.lt_le_trans with (- Zpos m); [lia|].
      apply Z.div_le_lower_bound; [assumption | nia].
    + apply Z.le_lt_trans with 0; [|lia].
      apply Z.div_le_upper_bound; [assumption | nia].
  - split.
    + apply Z.lt_le_trans with 0; [lia|]. apply Z.div_pos; lia.
    + apply Z.le_lt_trans with (Zpos m); [|assumption].
      apply Z.div_le_upper_bound; [assumption | nia].
Qed.

Lemma round_finite (x : number) :
  valid x = true -> is_finite x = true -> is_finite (Math_round x) = true.
Proof.
  destruct x as [sx | sx | | s m e]; try (intros; assumption).
  intros Hv _. apply valid_canonical, canonical_lt in Hv.
  cbn [Math_round]. destruct (Z.leb_spec 0 e); [reflexivity|].
  cbv zeta. destruct (_ =? 0); [reflexivity|].
  apply of_Z_finite.
  assert (Hp : 2 <= 2 ^ (- e))
    by (change 2 with (2 ^ 1) at 1; apply Z.pow_le_mono_r; lia).
  replace (2 ^ (- e + 1)) with (2 * 2 ^ (- e))
    by (rewrite Z.pow_add_r by lia; change (2 ^ 1) with 2; ring).
  unfold signed. destruct s; cbn [cond_Zopp].
  - split.
    + apply Z.lt_le_trans with (- Zpos m); [lia|].
      apply Z.div_le_lower_bound; [lia | nia].
    + apply Z.le_lt_trans with 1; [|lia].
      apply Z.div_le_upper_bound; [lia | nia].
  - split.
    + apply Z.lt_le_trans with 0; [lia|]. apply Z.div_pos; lia.
    + apply Z.le_lt_trans with (Zpos m); [|assumption].
      apply Z.div_le_upper_bound; [lia | nia].
Qed.

Lemma strict_eq_refl (x : number) : is_finite x = true -> strict_eq x x = true.
Proof.
  destruct x as [sx | sx | | s m e]; try discriminate; intros _; [reflexivity|].
  unfold strict_eq, SFeqb, SFcompare.
  change (Pos.compare_cont Eq m m) with (Pos.compare m m).
  rewrite Z.compare_refl, Pos.compare_refl. destruct s; reflexivity.
Qed.

Lemma isInteger_intro (x : number) :
  is_finite x = true -> Math_floor x = x -> isInteger x = true.
Proof.
  intros Hf Hx. unfold isInteger. rewrite Hx, Hf, strict_eq_refl by assumption.
  reflexivity.
Qed.

Lemma finite_not_nan (x : number) : is_finite x = true -> x <> S754_nan.
Proof. intros H ->. discriminate. Qed.

Lemma Math_max_finite (a b : number) :
  is_finite a = true -> is_finite b = true -> is_finite (Math_max a b) = true.
Proof.
  intros Ha Hb. rewrite Math_max_not_nan by (apply finite_not_nan; assumption).
  destruct (max_step_cases a b) as [-> | ->]; assumption.
Qed.

(** A finite stored count is read as a non-negative integer. *)
Lemma read_count_finite (x : number) :
  valid x = true -> is_finite x = true -> nonneg_integer (read_count (VNumber x)).
Proof.
  intros Hv Hf. unfold read_count. cbn [nullish ToNumber].
  pose proof (floor_finite x Hv Hf) as Hff.
  repeat split.
  - apply Math_max_valid; [reflexivity | apply floor_valid, Hv].
  - apply isInteger_intro.
    + apply Math_max_finite; [reflexivity | assumption].
    + apply Math_max_floor; [reflexivity | apply floor_floor].
  - apply Math_max_ge; [discriminate | apply finite_not_nan, Hff].
Qed.

(** A stored count that is zero or negative is read as 0. *)
Lemma read_count_nonpositive (x : number) :
  leb x lit_0 = true -> read_count (VNumber x) = lit_0.
Proof.
  intros Hle. destruct x as [[] | [] | | [] m e]; try discriminate; try reflexivity.
  unfold read_count. cbn [nullish ToNumber Math_floor].
  destruct (Z.leb_spec 0 e); [reflexivity|].
  assert (Hp : 0 < 2 ^ (- e)) by (apply Z.pow_pos_nonneg; lia).
  assert (Hq : signed true m / 2 ^ (- e) < 0).
  { apply Z.div_lt_upper_bound; [assumption|]. unfold signed. cbn [cond_Zopp]. lia. }
  destruct (signed true m / 2 ^ (- e)) as [| q | q]; try lia.
  unfold of_Z. cbn [binary_normalize].
  destruct (binary_round_spec true q 0) as [[_ ->] | (m' & e' & _ & _ & _ & _ & ->)];
    [reflexivity|].
  unfold rounded. destruct (e' <=? emax - prec); reflexivity.
Qed.

Lemma max_step_idem (a b : number) :
  a <> S754_nan -> max_step a (max_step a b) = max_step a b.
Proof.
  intros Ha. destruct (max_step_cases a b) as [H | H]; rewrite H; [|exact H].
  unfold max_step. destruct a as [[] | [] | | sa ma ea]; try congruence; try reflexivity.
  destruct (ltb _ _); reflexivity.
Qed.

Lemma Math_max_idem (a b : number) : Math_max a (Math_max a b) = Math_max a b.
Proof.
  destruct a as [sa | sa | | sa ma ea]; try reflexivity;
  destruct b as [sb | sb | | sb mb eb]; try reflexivity;
    match goal with
    | |- Math_max ?a (Math_max ?a ?b) = _ =>
        assert (Ha : a <> S754_nan) by discriminate;
        assert (Hb : b <> S754_nan) by discriminate;
        assert (Hc : max_step a b <> S754_nan)
          by (destruct (max_step_cases a b) as [-> | ->]; assumption);
        rewrite (Math_max_not_nan a b Ha Hb);
        rewrite (Math_max_not_nan _ _ Ha Hc);
        apply max_step_idem, Ha
    end.
Qed.

(** Reading what was read changes nothing. *)
Lemma read_count_idem (v : value) :
  read_count (VNumber (read_count v)) = read_count v.
Proof.
  unfold read_count at 1. cbn [nullish ToNumber].
  unfold read_count. rewrite Math_max_floor by (try reflexivity; apply floor_floor).
  apply Math_max_idem.
Qed.

Lemma next_state_normalize (state : SrsState) (rating : SrsRating) :
  next_state (normalize state) rating = next_state state rating.
Proof.
  destruct rating;
    rewrite ?next_state_again, ?next_state_hard, ?next_state_good, ?next_state_easy;
    unfold normalize; cbn [intervalDays ease reps];
    rewrite ?read_count_idem; reflexivity.
Qed.

Lemma read_count_small (x : number) :
  valid x = true -> x <> S754_nan -> leb x (of_Z (2 ^ 53)) = true ->
  small_count (read_count (VNumber x)).
Proof.
  intros Hv Hnan Hle.
  destruct x as [sx | [] | | [] m e]; try congruence;
    try (left; apply read_count_nonpositive; first [destruct sx; reflexivity | reflexivity]).
  - vm_compute in Hle. discriminate.
  - apply valid_canonical in Hv.
    unfold read_count. cbn [nullish ToNumber Math_floor].
    destruct (Z.leb_spec 0 e) as [He | He].
    + right. exists m, e. split; [reflexivity|]. split; [assumption|].
      change (of_Z (2 ^ 53)) with (S754_finite false 4503599627370496 1) in Hle.
      unfold leb, SFleb, SFcompare in Hle.
      unfold canonical_mantissa in Hv. apply Z.eqb_eq in Hv. rewrite fexp_eq in Hv.
      destruct (Z.compare_spec e 1); try discriminate; lia.
    + pose proof (canonical_lt m e Hv) as Hm.
      assert (Hp : 0 < 2 ^ (- e)) by (apply Z.pow_pos_nonneg; lia).
      assert (Hq : 0 <= signed false m / 2 ^ (- e) <= Zpos m).
      { unfold signed. cbn [cond_Zopp]. split; [apply Z.div_pos; lia|].
        apply Z.div_le_upper_bound; [assumption | nia]. }
      set (q := signed false m / 2 ^ (- e)) in *.
      destruct (Z.eq_dec q 0) as [-> | Hnz]; [left; reflexivity|].
      right. pose proof (of_Z_valid q) as Hvq.
      rewrite of_Z_pos in * by lia. unfold int_float in *.
      eexists _, _. split; [reflexivity|]. split; [apply valid_canonical in Hvq; exact Hvq|].
      assert (Hd : Zdigits2 q <= 53) by (apply Zdigits2_le_53; lia).
      assert (Hp2 : 0 < 2 ^ (53 - Zdigits2 q)) by (apply Z.pow_pos_nonneg; lia).
      change (Zpos (digits2_pos ?p)) with (Zdigits2 (Zpos p)).
      rewrite Z2Pos.id by nia. rewrite Zdigits2_mul_pow2 by lia. lia.
Qed.

(** The next interval from a small count: an integer, at least [c]. *)
Lemma interval_of_small (c y : number) (mk : positive) (ek : Z) :
  is_finite c = true -> Math_floor c = c ->
  canonical_mantissa prec emax mk ek = true -> Zpos (digits2_pos mk) + ek <= 2 ->
  small_count y ->
  isInteger (if strict_eq y lit_0 then c
             else Math_max c (Math_round (mul y (S754_finite false mk ek)))) = true
  /\ leb c (if strict_eq y lit_0 then c
            else Math_max c (Math_round (mul y (S754_finite false mk ek)))) = true.
Proof.
  intros Hc Hfc Hk Hmag [-> | (m & e & -> & Hm & Hme)].
  - cbn [strict_eq]. split; [apply isInteger_intro; assumption|].
    apply leb_refl, finite_not_nan, Hc.
  - replace (strict_eq (S754_finite false m e) lit_0) with false by reflexivity.
    destruct (mul_finite false false m mk e ek Hm Hk ltac:(lia)) as [Hf Hv].
    pose proof (round_finite _ Hv Hf) as Hrf.
    split.
    + apply isInteger_intro; [apply Math_max_finite; assumption|].
      apply Math_max_floor; [assumption | apply floor_round].
    + apply Math_max_ge; apply finite_not_nan; assumption.
Qed.


(** ** Integer values, order and floor *)

(** A well-formed Number with a non-negative exponent whose value is
    below 2^53 is the Number of that integer. *)
Lemma finite_int_of_Z (m : positive) (e : Z) :
  canonical_mantissa prec emax m e = true -> 0 <= e -> Zpos m * 2 ^ e < 2 ^ 53 ->
  S754_finite false m e = of_Z (Zpos m * 2 ^ e).
Proof.
  intros Hv He0 Hlt.
  assert (Hpe : 0 < 2 ^ e) by (apply Z.pow_pos_nonneg; lia).
  assert (Hz : 0 < Zpos m * 2 ^ e) by (apply Z.mul_pos_pos; lia).
  assert (Hd : Zdigits2 (Zpos m * 2 ^ e) <= 53) by (apply Zdigits2_le_53; lia).
  rewrite of_Z_pos by lia. unfold int_float.
  destruct (canonical_int m e (Zpos m * 2 ^ e) Hz Hd Hv ltac:(lia)) as [H1 H2].
  { rewrite <- Z.mul_assoc, <- !Z.pow_add_r
      by (pose proof (Zdigits2_nonneg (Zpos m * 2 ^ e)); lia).
    f_equal. f_equal. lia. }
  rewrite <- H1, <- H2. reflexivity.
Qed.

(** A non-negative integer Number whose value [n] is below 2^53 is the
    Number of [n], or -0. *)
Lemma integer_of_Z (r : number) (n : Z) :
  nonneg_integer r -> to_integer r = Some n -> n < 2 ^ 53 ->
  0 <= n /\ (r = of_Z n \/ (r = neg_zero /\ n = 0)).
Proof.
  intros (Hv & Hi & Hp) Hn Hlt.
  unfold isInteger in Hi. apply andb_true_iff in Hi. destruct Hi as [Hf He].
  destruct r as [[] | sr | | [] m e]; try discriminate.
  - assert (Hn' : 0 = n) by (cbn [to_integer] in Hn; congruence). subst n.
    split; [lia|]. right. split; reflexivity.
  - assert (Hn' : 0 = n) by (cbn [to_integer] in Hn; congruence). subst n.
    split; [lia|]. left. reflexivity.
  - apply valid_canonical in Hv.
    change (to_integer (S754_finite false m e))
      with (Some (if 0 <=? e then Zpos m * 2 ^ e else Z.quot (Zpos m) (2 ^ (- e)))) in Hn.
    change (Math_floor (S754_finite false m e))
      with (if 0 <=? e then S754_finite false m e else of_Z (Zpos m / 2 ^ (- e))) in He.
    destruct (Z.leb_spec 0 e) as [He0 | He0].
    + assert (Hn' : Zpos m * 2 ^ e = n) by congruence. subst n. clear Hn.
      assert (Hpe : 0 < 2 ^ e) by (apply Z.pow_pos_nonneg; lia).
      split; [apply Z.mul_nonneg_nonneg; lia|]. left.
      apply finite_int_of_Z; assumption.
    + apply strict_eq_finite in He.
      assert (Hpe : 0 < 2 ^ (- e)) by (apply Z.pow_pos_nonneg; lia).
      rewrite Z.quot_div_nonneg in Hn by lia.
      assert (Hn' : Zpos m / 2 ^ (- e) = n) by congruence. subst n. clear Hn.
      split; [apply Z.div_pos; lia|]. left. symmetry. exact He.
Qed.

(** Adding 1 to an integer below 2^53 is exact. *)
Lemma succ_of_Z (n : Z) :
  0 <= n -> n < 2 ^ 53 ->
  add (of_Z n) lit_1 = of_Z (n + 1) /\ to_integer (of_Z (n + 1)) = Some (n + 1).
Proof.
  intros Hn0 Hn. change lit_1 with (of_Z 1).
  destruct (Z.eq_dec n (2 ^ 53 - 1)) as [-> | Hne].
  - split; vm_compute; reflexivity.
  - split; [apply add_of_Z; lia | apply Calendar.to_integer_of_Z; lia].
Qed.

Lemma canonical_cases (m : positive) (e : Z) :
  canonical_mantissa prec emax m e = true ->
  -1074 <= e /\ Zpos m < 2 ^ 53 /\ (2 ^ 52 <= Zpos m \/ e = -1074).
Proof.
  intros Hc. pose proof (canonical_lt m e Hc) as Hlt.
  unfold canonical_mantissa in Hc. apply Z.eqb_eq in Hc. rewrite fexp_eq in Hc.
  split; [lia|]. split; [assumption|].
  destruct (Z.eq_dec e (-1074)) as [|Hne]; [right; assumption | left].
  assert (Hd : Zpos (digits2_pos m) = 53) by lia.
  pose proof (Zdigits2_bounds (Zpos m) ltac:(lia)) as [Hlo _].
  cbn [Zdigits2] in Hlo. rewrite Hd in Hlo. exact Hlo.
Qed.

Lemma pow2_step (a b : Z) : 0 <= a -> a < b -> 0 < 2 ^ a /\ 2 * 2 ^ a <= 2 ^ b.
Proof.
  intros Ha Hab. split; [apply Z.pow_pos_nonneg; lia|].
  replace (2 * 2 ^ a) with (2 ^ (a + 1))
    by (rewrite Z.pow_add_r by lia; change (2 ^ 1) with 2; ring).
  apply Z.pow_le_mono_r; lia.
Qed.

(** Two well-formed positive Numbers compare as their values do (both
    written in units of 2^-1074). *)
Lemma compare_finite (m1 m2 : positive) (e1 e2 : Z) :
  canonical_mantissa prec emax m1 e1 = true ->
  canonical_mantissa prec emax m2 e2 = true ->
  SFcompare (S754_finite false m1 e1) (S754_finite false m2 e2)
  = Some (Zpos m1 * 2 ^ (e1 + 1074) ?= Zpos m2 * 2 ^ (e2 + 1074)).
Proof.
  intros H1 H2.
  destruct (canonical_cases m1 e1 H1) as (Hm1 & Hu1 & Hn1).
  destruct (canonical_cases m2 e2 H2) as (Hm2 & Hu2 & Hn2).
  change (2 ^ 53) with 9007199254740992 in *.
  change (2 ^ 52) with 4503599627370496 in *.
  unfold SFcompare. change (Pos.compare_cont Eq m1 m2) with (Pos.compare m1 m2).
  f_equal.
  destruct (Z.compare_spec e1 e2) as [He | He | He].
  - subst e2. assert (0 < 2 ^ (e1 + 1074)) by (apply Z.pow_pos_nonneg; lia).
    rewrite Pos2Z.inj_compare.
    destruct (Z.compare_spec (Zpos m1) (Zpos m2)),
      (Z.compare_spec (Zpos m1 * 2 ^ (e1 + 1074)) (Zpos m2 * 2 ^ (e1 + 1074)));
      try reflexivity; nia.
  - symmetry. apply Z.compare_lt_iff.
    destruct (pow2_step (e1 + 1074) (e2 + 1074)) as [Hp Hs]; [lia | lia |].
    destruct Hn2 as [Hn2 | Hn2]; [nia | lia].
  - symmetry. apply Z.compare_gt_iff.
    destruct (pow2_step (e2 + 1074) (e1 + 1074)) as [Hp Hs]; [lia | lia |].
    destruct Hn1 as [Hn1 | Hn1]; [nia | lia].
Qed.

(** The Number of an integer [0 < k <= 2^53] has the value [k]. *)
Lemma of_Z_value (k : Z) :
  0 < k -> k <= 2 ^ 53 ->
  exists m e, of_Z k = S754_finite false m e
              /\ canonical_mantissa prec emax m e = true
              /\ Zpos m * 2 ^ (e + 1074) = k * 2 ^ 1074.
Proof.
  intros Hk Hle. destruct (Z.eq_dec k (2 ^ 53)) as [-> | Hne].
  - exists 4503599627370496%positive, 1. repeat split.
  - pose proof (of_Z_valid k) as Hv. rewrite of_Z_pos in * by lia.
    unfold int_float in *. eexists _, _. split; [reflexivity|].
    split; [apply valid_canonical in Hv; exact Hv|].
    assert (Hd : Zdigits2 k <= 53) by (apply Zdigits2_le_53; lia).
    assert (Hd1 : 1 <= Zdigits2 k)
      by (rewrite Zdigits2_pos by lia; pose proof (Z.log2_nonneg k); lia).
    assert (Hp : 0 < 2 ^ (53 - Zdigits2 k)) by (apply Z.pow_pos_nonneg; lia).
    rewrite Z2Pos.id by nia.
    rewrite <- Z.mul_assoc, <- Z.pow_add_r by lia. do 2 f_equal. lia.
Qed.

Lemma pow2_split (a b : Z) : 0 <= a -> 0 <= b -> 2 ^ (a + b) = 2 ^ a * 2 ^ b.
Proof. intros. apply Z.pow_add_r; assumption. Qed.

(** Below 2^53 the floor of a positive Number is the Number of the
    integer [q] with [q <= x < q + 1]. *)
Lemma floor_value (m : positive) (e : Z) :
  canonical_mantissa prec emax m e = true ->
  Zpos m * 2 ^ (e + 1074) < 2 ^ 53 * 2 ^ 1074 ->
  exists q, 0 <= q < 2 ^ 53
            /\ Math_floor (S754_finite false m e) = of_Z q
            /\ q * 2 ^ 1074 <= Zpos m * 2 ^ (e + 1074) < (q + 1) * 2 ^ 1074.
Proof.
  intros Hc Hlt. destruct (canonical_cases m e Hc) as (He & Hm & _).
  assert (HP : 0 < 2 ^ 1074) by (apply Z.pow_pos_nonneg; lia).
  cbn [Math_floor signed cond_Zopp]. destruct (Z.leb_spec 0 e) as [He0 | He0].
  - assert (Hpe : 0 < 2 ^ e) by (apply Z.pow_pos_nonneg; lia).
    rewrite pow2_split in * by lia.
    assert (Hq : Zpos m * 2 ^ e < 2 ^ 53) by nia.
    exists (Zpos m * 2 ^ e). split; [split; [apply Z.mul_nonneg_nonneg; lia | assumption]|].
    split; [apply finite_int_of_Z; assumption|]. nia.
  - assert (Hpe : 0 < 2 ^ (- e)) by (apply Z.pow_pos_nonneg; lia).
    assert (Hpf : 0 < 2 ^ (e + 1074)) by (apply Z.pow_pos_nonneg; lia).
    assert (Hs : 2 ^ 1074 = 2 ^ (- e) * 2 ^ (e + 1074)).
    { rewrite <- Z.pow_add_r by lia. f_equal. lia. }
    exists (Zpos m / 2 ^ (- e)).
    pose proof (Z.div_mod (Zpos m) (2 ^ (- e)) ltac:(lia)) as Hdm.
    pose proof (Z.mod_pos_bound (Zpos m) (2 ^ (- e)) Hpe) as Hmod.
    assert (Hq0 : 0 <= Zpos m / 2 ^ (- e)) by (apply Z.div_pos; lia).
    set (q := Zpos m / 2 ^ (- e)) in *.
    split; [split; [assumption | nia]|]. split; [reflexivity|].
    rewrite Hs. nia.
Qed.

Lemma Math_max_0_pos (m : positive) (e : Z) :
  Math_max lit_0 (S754_finite false m e) = S754_finite false m e.
Proof. reflexivity. Qed.

Lemma Math_max_0_of_Z (q : Z) :
  0 <= q < 2 ^ 53 -> Math_max lit_0 (of_Z q) = of_Z q.
Proof.
  intros Hq. destruct (Z.eq_dec q 0) as [-> | Hnz]; [reflexivity|].
  rewrite of_Z_pos by lia. apply Math_max_0_pos.
Qed.

(** Reading a positive finite Number floors it: the value read is not
    above the stored one, which is below the value read plus 1; from
    2^53 on every Number is an integer and is read as it is. *)
Lemma read_count_floor (x : number) :
  valid x = true -> is_finite x = true -> ltb lit_0 x = true ->
  leb (read_count (VNumber x)) x = true
  /\ (ltb x (of_Z (2 ^ 53)) = true ->
      ltb x (add (read_count (VNumber x)) lit_1) = true)
  /\ (leb (of_Z (2 ^ 53)) x = true -> read_count (VNumber x) = x).
Proof.
  intros Hv Hf Hpos.
  destruct x as [[] | sx | | [] m e]; try discriminate.
  apply valid_canonical in Hv.
  assert (H53 : of_Z (2 ^ 53) = S754_finite false 4503599627370496 1) by reflexivity.
  assert (Hc53 : canonical_mantissa prec emax 4503599627370496 1 = true) by reflexivity.
  assert (HP : 0 < 2 ^ 1074) by (apply Z.pow_pos_nonneg; lia).
  assert (Hv53 : Zpos 4503599627370496 * 2 ^ (1 + 1074) = 2 ^ 53 * 2 ^ 1074)
    by (vm_compute; reflexivity).
  unfold read_count. cbn [nullish ToNumber].
  rewrite H53. unfold ltb, leb, SFltb, SFleb.
  rewrite !compare_finite by assumption. rewrite Hv53.
  destruct (Z.lt_ge_cases (Zpos m * 2 ^ (e + 1074)) (2 ^ 53 * 2 ^ 1074)) as [Hlt | Hge].
  - destruct (floor_value m e Hv Hlt) as (q & Hq & -> & Hlo & Hhi).
    rewrite (Math_max_0_of_Z q) by lia.
    split; [|split].
    + destruct (Z.eq_dec q 0) as [-> | Hnz]; [reflexivity|].
      destruct (of_Z_value q) as (mq & eq & -> & Hcq & Hvq); [lia | lia |].
      rewrite compare_finite, Hvq by assumption.
      destruct (Z.compare_spec (q * 2 ^ 1074) (Zpos m * 2 ^ (e + 1074)));
        [reflexivity | reflexivity | lia].
    + intros _. destruct (succ_of_Z q) as [-> _]; [lia | lia |].
      destruct (of_Z_value (q + 1)) as (mq & eq & -> & Hcq & Hvq); [lia | lia |].
      rewrite compare_finite, Hvq by assumption.
      destruct (Z.compare_spec (Zpos m * 2 ^ (e + 1074)) ((q + 1) * 2 ^ 1074));
        [lia | reflexivity | lia].
    + destruct (Z.compare_spec (2 ^ 53 * 2 ^ 1074) (Zpos m * 2 ^ (e + 1074)));
        [lia | lia | discriminate].
  - assert (He0 : 0 <= e).
    { destruct (Z.le_gt_cases 0 e) as [|Hneg]; [assumption | exfalso].
      destruct (canonical_cases m e Hv) as (He & Hm & _).
      assert (Hpf : 0 < 2 ^ (e + 1074)) by (apply Z.pow_pos_nonneg; lia).
      assert (2 * 2 ^ (e + 1074) <= 2 ^ 1074) by (apply pow2_step; lia).
      nia. }
    cbn [Math_floor]. rewrite (proj2 (Z.leb_le 0 e) He0), Math_max_0_pos.
    rewrite compare_finite by assumption.
    split; [|split].
    + rewrite Z.compare_refl. reflexivity.
    + destruct (Z.compare_spec (Zpos m * 2 ^ (e + 1074)) (2 ^ 53 * 2 ^ 1074));
        [discriminate | lia | discriminate].
    + reflexivity.
Qed.

(** ** The due date and the host *)

Lemma TimeClip_value (t u : Z) : TimeClip t = Some u -> u = t.
Proof. unfold TimeClip. destruct (8640000000000000 <? Z.abs t); congruence. Qed.

(** The due date depends on the host through its time-zone rule only. *)
Lemma due_value_same_rule (h1 h2 : Host) (t0 : Z) (days : number) :
  (forall t isUTC, LocalTZA h1 t isUTC = LocalTZA h2 t isUTC) ->
  due_value h1 t0 days = due_value h2 t0 days.
Proof.
  intros Hrule. unfold due_value, setDate_value, LocalTime, UTC.
  rewrite (Hrule t0 true). cbv zeta.
  destruct (MakeDay _ _ _) as [day |]; [|reflexivity].
  rewrite Hrule. reflexivity.
Qed.

(** ** Properties *)

(** C1: on a normalized state (intervalDays and reps non-negative integers,
    ease a Number) the ratings hard, good and easy give the interval and
    the ease of the specification: 1 (2 for easy) from interval 0, else
    max(1, round(i * 1.2)), max(1, round(i * 2.5)), max(2, round(i * 3));
    ease max(1.3, e - 0.15), e unchanged, e + 0.15 without upper clamp. *)
Theorem nextSrs_refines_spec (h : Host) (state : SrsState) (i e r : number)
    (rating : SrsRating) (w : World) :
  intervalDays state = VNumber i -> ease state = VNumber e ->
  reps state = VNumber r ->
  nonneg_integer i -> nonneg_integer r ->
  rating <> again ->
  intervalDays (fst (run_nextSrs h state rating w)) = VNumber (spec_interval rating i)
  /\ ease (fst (run_nextSrs h state rating w)) = VNumber (spec_ease rating e).
Proof.
  intros Hi He Hr Hni Hnr Hrating. rewrite run_nextSrs_eq. cbn [fst].
  destruct rating; [congruence | rewrite next_state_hard
                   | rewrite next_state_good | rewrite next_state_easy].
  all: rewrite Hi, He; cbn [intervalDays ease spec_interval spec_ease].
  all: destruct (read_count_integer i Hni) as [Hrc | [Hz Hrc]].
  all: rewrite Hrc; try rewrite Hz; split; reflexivity.
Qed.

Lemma nextSrs_refines_spec_witness :
  intervalDays (fst (run_nextSrs utc
                       (mkSrsState (VNumber (of_Z 3)) (VNumber lit_2_5) (VNumber (of_Z 3)))
                       hard jan30))
  = VNumber (spec_interval hard (of_Z 3))
  /\ ease (fst (run_nextSrs utc
                  (mkSrsState (VNumber (of_Z 3)) (VNumber lit_2_5) (VNumber (of_Z 3)))
                  hard jan30))
     = VNumber (spec_ease hard lit_2_5).
Proof.
  apply (nextSrs_refines_spec utc _ (of_Z 3) lit_2_5 (of_Z 3) hard jan30).
  - reflexivity.
  - reflexivity.
  - reflexivity.
  - split; [reflexivity | split; reflexivity].
  - split; [reflexivity | split; reflexivity].
  - discriminate.
Defined.

(** C2: for every state and every clock reading, rating again returns
    reps 0, intervalDays 1 and ease max(1.3, e - 0.2), [e] being the ease
    as read (2.5 when it is not a Number); nothing else of the state is
    used. *)
Theorem again_is_full_lapse (h : Host) (state : SrsState) (w : World) :
  fst (run_nextSrs h state again w)
  = mkSrsState (VNumber lit_1)
      (VNumber (Math_max lit_1_3 (sub (read_ease (ease state)) lit_0_2)))
      (VNumber lit_0).
Proof. rewrite run_nextSrs_eq. apply next_state_again. Qed.

(** C3 (as amended): on a normalized state the returned reps is 0 after
    again; after hard, good and easy it is never below the input reps,
    and when the input reps has a value [n] below 2^53 it is exactly
    [n + 1]. *)
Theorem reps_counts_successes (h : Host) (state : SrsState) (r : number)
    (rating : SrsRating) (w : World) :
  reps state = VNumber r -> nonneg_integer r ->
  exists r',
    reps (fst (run_nextSrs h state rating w)) = VNumber r'
    /\ (rating = again -> r' = lit_0)
    /\ (rating <> again ->
        leb r r' = true
        /\ forall n, to_integer r = Some n -> n < 2 ^ 53 ->
                     r' = of_Z (n + 1) /\ to_integer r' = Some (n + 1)).
Proof.
  intros Hr Hnr. rewrite run_nextSrs_eq. cbn [fst].
  assert (Hadd : add (read_count (VNumber r)) lit_1 = add r lit_1)
    by (destruct (read_count_integer r Hnr) as [-> | [-> ->]]; reflexivity).
  assert (Hrest : leb r (add r lit_1) = true
                  /\ forall n, to_integer r = Some n -> n < 2 ^ 53 ->
                               add r lit_1 = of_Z (n + 1)
                               /\ to_integer (add r lit_1) = Some (n + 1)).
  { split.
    - destruct Hnr as (Hv & _ & Hp). apply leb_add_pos; assumption.
    - intros n Hn Hlt.
      destruct (integer_of_Z r n Hnr Hn Hlt) as [Hn0 [-> | [-> ->]]].
      + destruct (succ_of_Z n Hn0 Hlt) as [-> H]. split; [reflexivity | exact H].
      + split; reflexivity. }
  destruct rating;
    [rewrite next_state_again | rewrite next_state_hard
     | rewrite next_state_good | rewrite next_state_easy];
    cbn [reps]; rewrite ?Hr, ?Hadd;
    (eexists; split; [reflexivity|]; split; [congruence|]; intros Hne;
     first [congruence | exact Hrest]).
Qed.

Lemma reps_counts_successes_witness :
  exists r',
    reps (fst (run_nextSrs utc
                 (mkSrsState (VNumber (of_Z 3)) (VNumber lit_2_5) (VNumber (of_Z 3)))
                 good jan30)) = VNumber r'
    /\ leb (of_Z 3) r' = true
    /\ r' = of_Z 4 /\ to_integer r' = Some 4.
Proof.
  destruct (reps_counts_successes utc
              (mkSrsState (VNumber (of_Z 3)) (VNumber lit_2_5) (VNumber (of_Z 3)))
              (of_Z 3) good jan30) as (r' & Hr & _ & Hgood).
  - reflexivity.
  - split; [reflexivity | split; reflexivity].
  - destruct Hgood as [Hle Hn]; [discriminate|].
    destruct (Hn 3) as [H1 H2]; [reflexivity | reflexivity |].
    exists r'. split; [exact Hr|]. split; [exact Hle|]. split; [exact H1 | exact H2].
Defined.

(** 2^53 is a non-negative integer Number, and 2^53 + 1 is not a Number:
    a state with reps 2^53 is normalized, and hard, good and easy return
    reps 2^53 again, not 2^53 + 1. *)
Lemma reps_stops_at_2_53 :
  let top := of_Z (2 ^ 53) in
  let state := mkSrsState (VNumber (of_Z 1)) (VNumber lit_2_5) (VNumber top) in
  nonneg_integer (of_Z 1) /\ nonneg_integer top
  /\ to_integer top = Some (2 ^ 53)
  /\ (forall rating, rating <> again ->
        reps (fst (run_nextSrs utc state rating jan30)) = VNumber top)
  /\ to_integer top <> Some (2 ^ 53 + 1).
Proof.
  cbv zeta. split; [repeat split|]. split; [repeat split|].
  split; [reflexivity|]. split; [|discriminate].
  intros rating Hne. rewrite run_nextSrs_eq. cbn [fst].
  destruct rating; [congruence| | |]; vm_compute; reflexivity.
Qed.

Lemma ease_step (state : SrsState) (e : number) (rating : SrsRating) :
  ease state = VNumber e -> valid e = true -> leb lit_1_3 e = true ->
  exists e', ease (next_state state rating) = VNumber e'
             /\ valid e' = true /\ leb lit_1_3 e' = true.
Proof.
  intros He Hv Hle.
  assert (Hnan : e <> S754_nan) by (intros ->; discriminate).
  destruct rating;
    [rewrite next_state_again | rewrite next_state_hard
     | rewrite next_state_good | rewrite next_state_easy];
    cbn [ease]; rewrite He; cbn [read_ease typeof_number ToNumber];
    eexists; (split; [reflexivity|]).
  - split; [apply Math_max_valid; [reflexivity | apply sub_valid; [assumption | reflexivity]]|].
    apply Math_max_ge; [discriminate | apply sub_not_nan; [assumption | reflexivity]].
  - split; [apply Math_max_valid; [reflexivity | apply sub_valid; [assumption | reflexivity]]|].
    apply Math_max_ge; [discriminate | apply sub_not_nan; [assumption | reflexivity]].
  - split; assumption.
  - split; [apply add_valid; [assumption | reflexivity]|].
    apply (leb_trans _ e); [assumption|].
    apply leb_add_pos; [assumption|].
    apply (leb_trans _ lit_1_3); [reflexivity | assumption].
Qed.

(** C4: ease never drops below 1.3: from a state whose ease is at least
    1.3, and so from the initial state, the ease after any sequence of
    reviews, of any length and with any ratings, is at least 1.3. *)
Theorem ease_never_below_floor (h : Host) (steps : list (SrsRating * World))
    (state : SrsState) (e : number) :
  ease state = VNumber e -> valid e = true -> leb lit_1_3 e = true ->
  exists e', ease (review h steps state) = VNumber e' /\ leb lit_1_3 e' = true.
Proof.
  revert state e. induction steps as [| [rating w] rest IH]; intros state e He Hv Hle.
  - exists e. split; assumption.
  - cbn [review]. rewrite run_nextSrs_eq. cbn [fst].
    destruct (ease_step state e rating He Hv Hle) as (e1 & He1 & Hv1 & Hle1).
    apply (IH _ e1); assumption.
Qed.

Lemma ease_never_below_floor_witness :
  exists e',
    ease (review utc [(again, jan30); (hard, jan30); (again, jan30); (easy, jan30)]
            initialSrsState) = VNumber e'
    /\ leb lit_1_3 e' = true.
Proof.
  apply (ease_never_below_floor utc _ initialSrsState lit_2_5); reflexivity.
Defined.

(** C5 (as amended): the state is normalized before any arithmetic, the
    transition being that of the normalized state: an absent intervalDays
    or reps is read as 0 and an absent ease as 2.5; a finite stored
    intervalDays or reps is read as a non-negative integer: as 0 when it
    is zero or negative, and otherwise as its floor, the value read [y]
    satisfying [y <= x < y + 1] for a stored [x] below 2^53 and being [x]
    itself from 2^53 on; a stored ease that is a Number is used as it
    is. intervalDays -5 with rating good gives intervalDays 1. *)
Theorem normalisation_on_read :
  (forall h state rating w,
      run_nextSrs h state rating w = run_nextSrs h (normalize state) rating w)
  /\ read_count VUndefined = lit_0 /\ read_count VNull = lit_0
  /\ read_ease VUndefined = lit_2_5 /\ read_ease VNull = lit_2_5
  /\ (forall x, read_ease (VNumber x) = x)
  /\ (forall x, valid x = true -> is_finite x = true ->
                nonneg_integer (read_count (VNumber x)))
  /\ (forall x, leb x lit_0 = true -> read_count (VNumber x) = lit_0)
  /\ (forall x, valid x = true -> is_finite x = true -> ltb lit_0 x = true ->
                leb (read_count (VNumber x)) x = true
                /\ (ltb x (of_Z (2 ^ 53)) = true ->
                    ltb x (add (read_count (VNumber x)) lit_1) = true)
                /\ (leb (of_Z (2 ^ 53)) x = true -> read_count (VNumber x) = x))
  /\ (forall h e r w,
        intervalDays (fst (run_nextSrs h (mkSrsState (VNumber (of_Z (-5))) e r) good w))
        = VNumber (of_Z 1)).
Proof.
  split; [intros; rewrite !run_nextSrs_eq, next_state_normalize; reflexivity|].
  do 4 (split; [reflexivity|]).
  split; [reflexivity|].
  split; [exact read_count_finite|].
  split; [exact read_count_nonpositive|].
  split; [exact read_count_floor|].
  intros. rewrite run_nextSrs_eq. cbn [fst]. rewrite next_state_good. reflexivity.
Qed.

Lemma normalisation_on_read_witness :
  (nonneg_integer (read_count (VNumber (decimal (-25) 1)))
   /\ read_count (VNumber (decimal (-25) 1)) = lit_0)
  /\ read_count (VNumber (decimal 75 1)) = of_Z 7
  /\ leb (read_count (VNumber (decimal 75 1))) (decimal 75 1) = true
  /\ ltb (decimal 75 1) (add (read_count (VNumber (decimal 75 1))) lit_1) = true.
Proof.
  destruct normalisation_on_read as (_ & _ & _ & _ & _ & _ & Hi & Hz & Hfl & _).
  split; [split; [apply Hi; reflexivity | apply Hz; reflexivity]|].
  split; [reflexivity|].
  destruct (Hfl (decimal 75 1)) as (Hle & Hlt & _); try reflexivity.
  split; [exact Hle | apply Hlt; reflexivity].
Defined.

(** NaN and Infinity are Numbers: a stored NaN interval is read as NaN and
    a stored infinite ease as Infinity, not as 0 and 2.5. *)
Lemma non_finite_is_not_normalized :
  fst (run_nextSrs utc
         (mkSrsState (VNumber NaN) (VNumber pos_infinity) (VNumber pos_infinity))
         good jan30)
  = mkSrsState (VNumber NaN) (VNumber pos_infinity) (VNumber pos_infinity)
  /\ read_count (VNumber NaN) = NaN
  /\ isInteger (read_count (VNumber NaN)) = false
  /\ read_ease (VNumber NaN) = NaN
  /\ read_ease (VNumber pos_infinity) <> lit_2_5.
Proof.
  rewrite run_nextSrs_eq. cbn [fst]. repeat split; try reflexivity. discriminate.
Qed.

(** C6 (as amended): when the next interval is an integer [n], the
    returned date is the instant the host's time-zone rule gives for the
    local time of [now] moved by [n] calendar days, or an Invalid Date
    when that instant falls outside the range of Date, 8.64e15 ms around
    the epoch. When that local time exists on the host (the instant reads
    back as it), as it always does where the offset from UTC is constant,
    the returned date reads, in local time, exactly [n] days later at the
    same time of day. *)
Theorem due_date_calendar_days (h : Host) (state : SrsState) (rating : SrsRating)
    (w : World) (n : Z) :
  ToNumber (intervalDays (fst (run_nextSrs h state rating w))) = of_Z n ->
  0 <= n -> n < 2 ^ 53 - 31 ->
  let target := MakeDate (Day (LocalTime h (clock w)) + n)
                         (TimeWithinDay (LocalTime h (clock w))) in
  snd (run_nextSrs h state rating w) = TimeClip (UTC h target)
  /\ (LocalTime h (UTC h target) = target ->
      forall t, snd (run_nextSrs h state rating w) = Some t ->
                Day (LocalTime h t) = Day (LocalTime h (clock w)) + n
                /\ TimeWithinDay (LocalTime h t) = TimeWithinDay (LocalTime h (clock w)))
  /\ (forall off, fixed_offset h off ->
      forall t, snd (run_nextSrs h state rating w) = Some t ->
                Day (LocalTime h t) = Day (LocalTime h (clock w)) + n
                /\ TimeWithinDay (LocalTime h t) = TimeWithinDay (LocalTime h (clock w))).
Proof.
  intros Hn Hn0 Hn1 target. rewrite run_nextSrs_eq in *. cbn [fst snd] in *.
  assert (Hdue : due_value h (clock w)
                   (ToNumber (intervalDays (next_state state rating)))
                 = TimeClip (UTC h target)).
  { rewrite Hn. unfold due_value, setDate_value.
    rewrite Calendar.MakeDay_from_date by assumption. reflexivity. }
  assert (Hread : LocalTime h (UTC h target) = target ->
                  forall t, due_value h (clock w)
                              (ToNumber (intervalDays (next_state state rating))) = Some t ->
                            Day (LocalTime h t) = Day (LocalTime h (clock w)) + n
                            /\ TimeWithinDay (LocalTime h t)
                               = TimeWithinDay (LocalTime h (clock w))).
  { intros Hex t Ht. rewrite Hdue in Ht. apply TimeClip_value in Ht. subst t.
    rewrite Hex. apply Calendar.MakeDate_Day, Calendar.TimeWithinDay_range. }
  split; [exact Hdue|]. split; [exact Hread|].
  intros off Hoff. apply Hread. unfold LocalTime, UTC. rewrite !Hoff. lia.
Qed.

(** From 30 January 2024, 10:00, an interval of 3 days is due on
    2 February, 10:00. *)
Lemma due_date_calendar_days_witness :
  snd (run_nextSrs utc (mkSrsState (VNumber (of_Z 1)) (VNumber lit_2_5) (VNumber (of_Z 1)))
         good jan30)
  = Some 1706868000000
  /\ Day (LocalTime utc 1706868000000) = Day (LocalTime utc (clock jan30)) + 3
  /\ TimeWithinDay (LocalTime utc 1706868000000) = TimeWithinDay (LocalTime utc (clock jan30))
  /\ (YearFromTime 1706868000000, MonthFromTime 1706868000000, DateFromTime 1706868000000)
     = (2024, 1, 2).
Proof.
  destruct (due_date_calendar_days utc
              (mkSrsState (VNumber (of_Z 1)) (VNumber lit_2_5) (VNumber (of_Z 1)))
              good jan30 3) as (Hdue & Hday & _).
  - vm_compute. reflexivity.
  - lia.
  - reflexivity.
  - split; [rewrite Hdue; reflexivity|].
    assert (Hex : snd (run_nextSrs utc
                         (mkSrsState (VNumber (of_Z 1)) (VNumber lit_2_5) (VNumber (of_Z 1)))
                         good jan30) = Some 1706868000000)
      by (rewrite Hdue; reflexivity).
    destruct (Hday ltac:(reflexivity) _ Hex) as [H1 H2].
    split; [exact H1|]. split; [exact H2 | reflexivity].
Defined.

(** From 30 January, 10:00, an interval of 3 days is due on 2 February,
    10:00. *)
Example due_across_month_boundary :
  let st := mkSrsState (VNumber (of_Z 1)) (VNumber lit_2_5) (VNumber (of_Z 1)) in
  (YearFromTime (clock jan30), MonthFromTime (clock jan30), DateFromTime (clock jan30))
  = (2024, 0, 30)
  /\ intervalDays (fst (run_nextSrs utc st good jan30)) = VNumber (of_Z 3)
  /\ exists t, snd (run_nextSrs utc st good jan30) = Some t
               /\ (YearFromTime t, MonthFromTime t, DateFromTime t) = (2024, 1, 2)
               /\ TimeWithinDay t = TimeWithinDay (clock jan30).
Proof.
  cbv zeta. rewrite run_nextSrs_eq. cbn [fst snd].
  split; [reflexivity|]. split; [reflexivity|].
  eexists. split; [vm_compute; reflexivity|]. split; reflexivity.
Qed.

(** On a host whose clocks go forward in the night, one calendar day from
    11:00 local time the day before lasts 23 hours. *)
Example calendar_day_is_not_24_hours :
  snd (run_nextSrs dst_host initialSrsState good
         {| clock := 1711792800000; dates := [] |})
  = Some (1711792800000 + 23 * 3600000).
Proof. rewrite run_nextSrs_eq. vm_compute. reflexivity. Qed.

(** On the same host, one day from 02:30 local time the day before is a
    local time that does not exist: the date returned is 03:30 local
    time, 24 hours later. *)
Example skipped_local_time :
  let now := 1711762200000 in
  TimeWithinDay (LocalTime dst_host now) = 2 * 3600000 + 1800000
  /\ exists t,
       snd (run_nextSrs dst_host initialSrsState good {| clock := now; dates := [] |})
       = Some t
       /\ t = now + 24 * 3600000
       /\ TimeWithinDay (LocalTime dst_host t) = 3 * 3600000 + 1800000.
Proof.
  cbv zeta. split; [reflexivity|]. rewrite run_nextSrs_eq.
  eexists. split; [vm_compute; reflexivity|]. split; reflexivity.
Qed.

(** Two ways in which the due date is not [now] moved by the interval in
    calendar days. After seventeen ratings easy in a row the interval of
    a new word is 2 * 3^16 = 86093442 days; one more gives 258280326
    days, beyond the range of Date: the returned date is an Invalid Date.
    And on a host whose clocks go forward in the night, one day from
    02:30 local time the day before is a local time that does not exist:
    the returned date reads 03:30, not 02:30. *)
Lemma due_date_not_calendar_days :
  (let st := review utc (repeat (easy, jan30) 17) initialSrsState in
   intervalDays st = VNumber (of_Z 86093442)
   /\ intervalDays (fst (run_nextSrs utc st easy jan30)) = VNumber (of_Z 258280326)
   /\ snd (run_nextSrs utc st easy jan30) = None)
  /\ (let w := {| clock := 1711762200000; dates := [] |} in
      intervalDays (fst (run_nextSrs dst_host initialSrsState good w)) = VNumber (of_Z 1)
      /\ TimeWithinDay (LocalTime dst_host (clock w)) = 2 * 3600000 + 1800000
      /\ exists t, snd (run_nextSrs dst_host initialSrsState good w) = Some t
                   /\ Day (LocalTime dst_host t) = Day (LocalTime dst_host (clock w)) + 1
                   /\ TimeWithinDay (LocalTime dst_host t) = 3 * 3600000 + 1800000
                   /\ TimeWithinDay (LocalTime dst_host t)
                      <> TimeWithinDay (LocalTime dst_host (clock w))).
Proof.
  split; cbv zeta.
  - split; [vm_compute; reflexivity|]. split; vm_compute; reflexivity.
  - rewrite run_nextSrs_eq. cbn [fst snd clock].
    split; [reflexivity|]. split; [reflexivity|].
    eexists. split; [vm_compute; reflexivity|].
    split; [reflexivity|]. split; [reflexivity|]. vm_compute. discriminate.
Qed.

(** C7: the results of the specification's examples, the ease being the
    binary64 value of the decimal shown: from the initial state, good
    gives (1, 2.5, 1), easy (2, 2.65, 1), hard (1, 2.35, 1) and again
    (1, 2.3, 0); from (1, 2.5, 1) good gives interval round(1 * 2.5) = 3
    and reps 2; from (10, 2.5, 5) easy gives (30, 2.65, 6). *)
Theorem specified_examples (h : Host) (w : World) :
  fst (run_nextSrs h initialSrsState good w)
  = mkSrsState (VNumber (of_Z 1)) (VNumber (decimal 25 1)) (VNumber (of_Z 1))
  /\ fst (run_nextSrs h initialSrsState easy w)
     = mkSrsState (VNumber (of_Z 2)) (VNumber (decimal 265 2)) (VNumber (of_Z 1))
  /\ fst (run_nextSrs h initialSrsState hard w)
     = mkSrsState (VNumber (of_Z 1)) (VNumber (decimal 235 2)) (VNumber (of_Z 1))
  /\ fst (run_nextSrs h initialSrsState again w)
     = mkSrsState (VNumber (of_Z 1)) (VNumber (decimal 23 1)) (VNumber (of_Z 0))
  /\ fst (run_nextSrs h
            (mkSrsState (VNumber (of_Z 1)) (VNumber (decimal 25 1)) (VNumber (of_Z 1)))
            good w)
     = mkSrsState (VNumber (of_Z 3)) (VNumber (decimal 25 1)) (VNumber (of_Z 2))
  /\ Math_round (mul (of_Z 1) (decimal 25 1)) = of_Z 3
  /\ fst (run_nextSrs h
            (mkSrsState (VNumber (of_Z 10)) (VNumber (decimal 25 1)) (VNumber (of_Z 5)))
            easy w)
     = mkSrsState (VNumber (of_Z 30)) (VNumber (decimal 265 2)) (VNumber (of_Z 6))
  /\ Math_round (mul (of_Z 10) (of_Z 3)) = of_Z 30.
Proof.
  rewrite !run_nextSrs_eq. cbn [fst]. repeat split; vm_compute; reflexivity.
Qed.

(** Whatever Number other than NaN is stored, the next interval is not
    NaN, has no fractional part and is at least 1, at least 2 for easy;
    it is +Infinity when the product overflows. *)
Lemma next_interval_no_fraction (state : SrsState) (rating : SrsRating) :
  (intervalDays state = VUndefined \/ intervalDays state = VNull
   \/ exists x, intervalDays state = VNumber x /\ x <> NaN) ->
  exists v, intervalDays (next_state state rating) = VNumber v
            /\ Math_floor v = v /\ leb lit_1 v = true
            /\ (rating = easy -> leb lit_2 v = true).
Proof.
  intros Hst.
  assert (Hr : read_count (intervalDays state) <> S754_nan).
  { destruct Hst as [-> | [-> | (x & -> & Hnan)]]; try discriminate.
    unfold read_count. cbn [nullish ToNumber].
    pose proof (floor_not_nan x Hnan) as Hf.
    rewrite Math_max_not_nan by (discriminate || assumption).
    destruct (max_step_cases lit_0 (Math_floor x)) as [-> | ->];
      [discriminate | assumption]. }
  assert (Hgen : forall c mk ek,
             is_finite c = true -> Math_floor c = c ->
             let v := if strict_eq (read_count (intervalDays state)) lit_0 then c
                      else Math_max c (Math_round (mul (read_count (intervalDays state))
                                                         (S754_finite false mk ek))) in
             Math_floor v = v /\ leb c v = true).
  { intros c mk ek Hc Hfc v. unfold v. destruct (strict_eq _ lit_0).
    - split; [assumption | apply leb_refl, finite_not_nan, Hc].
    - split; [apply Math_max_floor; [assumption | apply floor_round]|].
      apply Math_max_ge; [apply finite_not_nan, Hc|].
      apply round_not_nan, mul_not_nan; [assumption | eauto]. }
  destruct rating;
    [rewrite next_state_again | rewrite next_state_hard
     | rewrite next_state_good | rewrite next_state_easy];
    cbn [intervalDays]; eexists; (split; [reflexivity|]).
  - split; [reflexivity|]. split; [reflexivity | discriminate].
  - destruct (Hgen lit_1 5404319552844595%positive (-52)) as [Hf Hl]; try reflexivity.
    split; [exact Hf|]. split; [exact Hl | discriminate].
  - destruct (Hgen lit_1 5629499534213120%positive (-51)) as [Hf Hl]; try reflexivity.
    split; [exact Hf|]. split; [exact Hl | discriminate].
  - destruct (Hgen lit_2 6755399441055744%positive (-51)) as [Hf Hl]; try reflexivity.
    split; [exact Hf|]. split; [|intros _; exact Hl].
    apply (leb_trans _ lit_2); [reflexivity | exact Hl].
Qed.

(** A stored interval of at most 2^53 gives a finite next interval. *)
Lemma next_interval_finite (state : SrsState) (rating : SrsRating) :
  (intervalDays state = VUndefined \/ intervalDays state = VNull
   \/ exists x, intervalDays state = VNumber x /\ valid x = true
                 /\ x <> NaN /\ leb x (of_Z (2 ^ 53)) = true) ->
  exists v, intervalDays (next_state state rating) = VNumber v
            /\ isInteger v = true.
Proof.
  intros Hst.
  assert (Hs : small_count (read_count (intervalDays state))).
  { destruct Hst as [-> | [-> | (x & -> & Hv & Hnan & Hle)]];
      [left; reflexivity | left; reflexivity | apply read_count_small; assumption]. }
  destruct rating;
    [rewrite next_state_again | rewrite next_state_hard
     | rewrite next_state_good | rewrite next_state_easy];
    cbn [intervalDays]; eexists; (split; [reflexivity|]).
  - reflexivity.
  - apply (interval_of_small lit_1 _ 5404319552844595 (-52)
             ltac:(reflexivity) ltac:(reflexivity) ltac:(reflexivity)
             ltac:(cbn; lia) Hs).
  - apply (interval_of_small lit_1 _ 5629499534213120 (-51)
             ltac:(reflexivity) ltac:(reflexivity) ltac:(reflexivity)
             ltac:(cbn; lia) Hs).
  - apply (interval_of_small lit_2 _ 6755399441055744 (-51)
             ltac:(reflexivity) ltac:(reflexivity) ltac:(reflexivity)
             ltac:(cbn; lia) Hs).
Qed.

(** For counts up to a thousand days the next interval is the integer
    one expects: max(1, round(1.2 n)), max(1, round(2.5 n)) and
    max(2, 3 n), halves rounded up. *)
Example intervals_of_small_counts :
  let counts := map Z.of_nat (seq 0 1001) in
  map (fun n => spec_interval hard (of_Z n)) counts
  = map (fun n => of_Z (Z.max 1 ((12 * n + 5) / 10))) counts
  /\ map (fun n => spec_interval good (of_Z n)) counts
     = map (fun n => of_Z (Z.max 1 ((5 * n + 1) / 2))) counts
  /\ map (fun n => spec_interval easy (of_Z n)) counts
     = map (fun n => of_Z (Z.max 2 (3 * n))) counts.
Proof. cbv zeta. split; [|split]; vm_compute; reflexivity. Qed.

(** C8 (as amended): for every state whose stored intervalDays is absent
    or a Number other than NaN, and every rating, the next intervalDays
    is never fractional and is at least 1 (at least 2 for easy); it is a
    non-negative integer whenever the stored value is at most 2^53. *)
Theorem next_interval_is_integer (h : Host) (state : SrsState) (rating : SrsRating)
    (w : World) :
  (intervalDays state = VUndefined \/ intervalDays state = VNull
   \/ exists x, intervalDays state = VNumber x /\ valid x = true /\ x <> NaN) ->
  exists v,
    intervalDays (fst (run_nextSrs h state rating w)) = VNumber v
    /\ Math_floor v = v
    /\ leb lit_1 v = true
    /\ (rating = easy -> leb lit_2 v = true)
    /\ ((forall x, intervalDays state = VNumber x -> leb x (of_Z (2 ^ 53)) = true) ->
        isInteger v = true).
Proof.
  intros Hst. rewrite run_nextSrs_eq. cbn [fst].
  destruct (next_interval_no_fraction state rating) as (v & Hv & Hf & H1 & H2).
  { destruct Hst as [H | [H | (x & H & _ & Hnan)]]; eauto. }
  exists v. repeat (split; [assumption|]).
  intros Hle.
  destruct (next_interval_finite state rating) as (v' & Hv' & Hi).
  { destruct Hst as [H | [H | (x & H & Hval & Hnan)]]; auto.
    right. right. exists x. repeat (split; [assumption|]). apply Hle, H. }
  congruence.
Qed.

Lemma next_interval_is_integer_witness :
  exists v,
    intervalDays (fst (run_nextSrs utc
                         (mkSrsState (VNumber (decimal 75 1)) VNull VUndefined)
                         hard jan30)) = VNumber v
    /\ Math_floor v = v
    /\ leb lit_1 v = true
    /\ (hard = easy -> leb lit_2 v = true)
    /\ ((forall x, VNumber (decimal 75 1) = VNumber x -> leb x (of_Z (2 ^ 53)) = true) ->
        isInteger v = true).
Proof.
  apply (next_interval_is_integer utc
           (mkSrsState (VNumber (decimal 75 1)) VNull VUndefined) hard jan30).
  right. right. exists (decimal 75 1).
  split; [reflexivity|]. split; [reflexivity | discriminate].
Defined.

(** A stored interval of NaN stays NaN, and the largest finite Number
    (an integer) becomes Infinity: neither result is an integer. *)
Lemma next_interval_not_integer :
  intervalDays (fst (run_nextSrs utc
                       (mkSrsState (VNumber NaN) (VNumber lit_2_5) (VNumber lit_0))
                       good jan30)) = VNumber NaN
  /\ isInteger NaN = false
  /\ leb lit_1 NaN = false
  /\ isInteger (SFmax_float prec emax) = true
  /\ intervalDays (fst (run_nextSrs utc
                          (mkSrsState (VNumber (SFmax_float prec emax)) (VNumber lit_2_5)
                                      (VNumber lit_0))
                          easy jan30)) = VNumber pos_infinity
  /\ isInteger pos_infinity = false.
Proof. rewrite !run_nextSrs_eq. repeat split; vm_compute; reflexivity. Qed.

(** C9 (as amended): a call is determined by the state, the rating, the
    clock reading and the time-zone rule of the host: two calls that read
    the same clock on hosts with the same rule, whatever Dates exist in
    their worlds, return the same next state and the same due time; the
    next state is the same on every host and at every clock reading; and
    a call has no side effect: the clock and every Date that existed
    before the call are as they were. *)
Theorem nextSrs_is_deterministic (h1 h2 : Host) (state : SrsState) (rating : SrsRating)
    (w1 w2 : World) :
  clock w1 = clock w2 ->
  (forall t isUTC, LocalTZA h1 t isUTC = LocalTZA h2 t isUTC) ->
  run_nextSrs h1 state rating w1 = run_nextSrs h2 state rating w2
  /\ (forall h w, fst (run_nextSrs h state rating w) = fst (run_nextSrs h1 state rating w1))
  /\ clock (snd (nextSrs h1 state rating w1)) = clock w1
  /\ forall d, (d < length (dates w1))%nat ->
               nth d (dates (snd (nextSrs h1 state rating w1))) None
               = nth d (dates w1) None.
Proof.
  intros Hc Hrule. rewrite !run_nextSrs_eq, Hc, nextSrs_run.
  cbn [snd clock dates].
  split; [rewrite (due_value_same_rule h1 h2) by exact Hrule; reflexivity|].
  split; [intros h w; rewrite run_nextSrs_eq; reflexivity|].
  split; [congruence|].
  intros d Hd. rewrite app_nth1 by (rewrite length_app; lia).
  apply app_nth1. assumption.
Qed.

Lemma nextSrs_is_deterministic_witness :
  run_nextSrs utc initialSrsState good jan30
  = run_nextSrs utc initialSrsState good
      {| clock := 1706608800000; dates := [Some 0; None] |}
  /\ (forall h w, fst (run_nextSrs h initialSrsState good w)
                  = fst (run_nextSrs utc initialSrsState good jan30))
  /\ clock (snd (nextSrs utc initialSrsState good jan30)) = clock jan30
  /\ forall d, (d < length (dates jan30))%nat ->
               nth d (dates (snd (nextSrs utc initialSrsState good jan30))) None
               = nth d (dates jan30) None.
Proof.
  apply (nextSrs_is_deterministic utc utc initialSrsState good jan30
           {| clock := 1706608800000; dates := [Some 0; None] |}).
  - reflexivity.
  - reflexivity.
Defined.

(** At 2024-03-30T10:00:00Z a new word rated good is due 24 hours later
    on a host on UTC and 23 hours later on a host whose clocks go forward
    that night: the same state, rating and instant, and another due
    date. *)
Lemma due_date_depends_on_time_zone :
  let w := {| clock := 1711792800000; dates := [] |} in
  fst (run_nextSrs utc initialSrsState good w)
  = fst (run_nextSrs dst_host initialSrsState good w)
  /\ snd (run_nextSrs utc initialSrsState good w) = Some (1711792800000 + 24 * 3600000)
  /\ snd (run_nextSrs dst_host initialSrsState good w) = Some (1711792800000 + 23 * 3600000)
  /\ run_nextSrs utc initialSrsState good w <> run_nextSrs dst_host initialSrsState good w.
Proof.
  cbv zeta. rewrite !run_nextSrs_eq. cbn [fst snd].
  split; [reflexivity|]. split; [vm_compute; reflexivity|].
  split; [vm_compute; reflexivity|].
  intros H. apply (f_equal snd) in H. vm_compute in H. discriminate.
Qed.

(** C10: the ease has no influence on the interval: two states with the
    same stored intervalDays get the same next intervalDays and, on the
    same clock, the same due time, whatever their ease and reps. *)
Theorem ease_does_not_drive_interval (h : Host) (s1 s2 : SrsState)
    (rating : SrsRating) (w : World) :
  intervalDays s1 = intervalDays s2 ->
  intervalDays (fst (run_nextSrs h s1 rating w))
  = intervalDays (fst (run_nextSrs h s2 rating w))
  /\ snd (run_nextSrs h s1 rating w) = snd (run_nextSrs h s2 rating w).
Proof.
  intros Hi. rewrite !run_nextSrs_eq. cbn [fst snd].
  assert (H : intervalDays (next_state s1 rating) = intervalDays (next_state s2 rating)).
  { destruct rating;
      rewrite ?next_state_again, ?next_state_hard, ?next_state_good, ?next_state_easy;
      cbn [intervalDays]; rewrite ?Hi; reflexivity. }
  rewrite H. split; reflexivity.
Qed.

Lemma ease_does_not_drive_interval_witness :
  intervalDays (fst (run_nextSrs utc
                       (mkSrsState (VNumber (of_Z 4)) (VNumber lit_1_3) (VNumber (of_Z 2)))
                       good jan30))
  = intervalDays (fst (run_nextSrs utc
                         (mkSrsState (VNumber (of_Z 4)) (VNumber lit_2_5) (VNumber (of_Z 2)))
                         good jan30))
  /\ snd (run_nextSrs utc
            (mkSrsState (VNumber (of_Z 4)) (VNumber lit_1_3) (VNumber (of_Z 2)))
            good jan30)
     = snd (run_nextSrs utc
              (mkSrsState (VNumber (of_Z 4)) (VNumber lit_2_5) (VNumber (of_Z 2)))
              good jan30).
Proof.
  apply (ease_does_not_drive_interval utc
           (mkSrsState (VNumber (of_Z 4)) (VNumber lit_1_3) (VNumber (of_Z 2)))
           (mkSrsState (VNumber (of_Z 4)) (VNumber lit_2_5) (VNumber (of_Z 2)))).
  reflexivity.
Defined.

End Srs.

(** * Exact arithmetic on integers *)

Module Exact.

Import Rounding.

Local Abbreviation fexp := (SpecFloat.fexp prec emax).

Lemma int_float_compare (a b : Z) :
  0 < a < 2 ^ 53 -> 0 < b < 2 ^ 53 ->
  SFcompare (int_float false a) (int_float false b) = Some (a ?= b).
Proof.
  intros Ha Hb.
  assert (Hda : Zdigits2 a <= 53) by (apply Zdigits2_le_53; lia).
  assert (Hdb : Zdigits2 b <= 53) by (apply Zdigits2_le_53; lia).
  pose proof (Zdigits2_bounds a ltac:(lia)) as [Hal Hah].
  pose proof (Zdigits2_bounds b ltac:(lia)) as [Hbl Hbh].
  assert (Hpa : 0 < 2 ^ (53 - Zdigits2 a)) by (apply Z.pow_pos_nonneg; lia).
  assert (Hpb : 0 < 2 ^ (53 - Zdigits2 b)) by (apply Z.pow_pos_nonneg; lia).
  unfold int_float, SFcompare.
  change (Pos.compare_cont Eq ?x ?y) with (Pos.compare x y).
  destruct (Z.compare_spec (Zdigits2 a - 53) (Zdigits2 b - 53)) as [He | He | He].
  - assert (Hd : Zdigits2 a = Zdigits2 b) by lia. rewrite Hd in *.
    rewrite <- Z2Pos.inj_compare by nia.
    f_equal.
    destruct (Z.compare_spec (a * 2 ^ (53 - Zdigits2 b)) (b * 2 ^ (53 - Zdigits2 b))),
      (Z.compare_spec a b); try reflexivity; nia.
  - f_equal. symmetry. apply Z.compare_lt_iff.
    assert (2 ^ Zdigits2 a <= 2 ^ (Zdigits2 b - 1)) by (apply Z.pow_le_mono_r; lia). lia.
  - f_equal. symmetry. apply Z.compare_gt_iff.
    assert (2 ^ Zdigits2 b <= 2 ^ (Zdigits2 a - 1)) by (apply Z.pow_le_mono_r; lia). lia.
Qed.

Lemma of_Z_compare (a b : Z) :
  0 <= a < 2 ^ 53 -> 0 <= b < 2 ^ 53 ->
  SFcompare (of_Z a) (of_Z b) = Some (a ?= b).
Proof.
  intros Ha Hb.
  destruct (Z.eq_dec a 0) as [-> | Hna]; destruct (Z.eq_dec b 0) as [-> | Hnb].
  - reflexivity.
  - rewrite (of_Z_pos b) by lia. destruct b; try lia. reflexivity.
  - rewrite (of_Z_pos a) by lia. destruct a; try lia. reflexivity.
  - rewrite !of_Z_pos by lia. apply int_float_compare; lia.
Qed.

Lemma of_Z_leb (a b : Z) :
  0 <= a < 2 ^ 53 -> 0 <= b < 2 ^ 53 -> leb (of_Z a) (of_Z b) = (a <=? b).
Proof.
  intros Ha Hb. unfold leb, SFleb. rewrite of_Z_compare by assumption.
  unfold Z.leb. destruct (a ?= b); reflexivity.
Qed.

Lemma of_Z_ltb (a b : Z) :
  0 <= a < 2 ^ 53 -> 0 <= b < 2 ^ 53 -> ltb (of_Z a) (of_Z b) = (a <? b).
Proof.
  intros Ha Hb. unfold ltb, SFltb. rewrite of_Z_compare by assumption.
  unfold Z.ltb. destruct (a ?= b); reflexivity.
Qed.

Lemma of_Z_eqb (a b : Z) :
  0 <= a < 2 ^ 53 -> 0 <= b < 2 ^ 53 -> strict_eq (of_Z a) (of_Z b) = (a =? b).
Proof.
  intros Ha Hb. unfold strict_eq, SFeqb. rewrite of_Z_compare by assumption.
  destruct (Z.eqb_spec a b) as [-> | Hne]; [rewrite Z.compare_refl; reflexivity|].
  destruct (Z.compare_spec a b); try lia; reflexivity.
Qed.

Lemma Math_max_of_Z (a b : Z) :
  0 <= a < 2 ^ 53 -> 0 <= b < 2 ^ 53 ->
  Math_max (of_Z a) (of_Z b) = of_Z (Z.max a b).
Proof.
  intros Ha Hb.
  rewrite Math_max_not_nan by apply of_Z_not_nan.
  assert (Hs : max_step (of_Z a) (of_Z b)
               = if ltb (of_Z a) (of_Z b) then of_Z b else of_Z a).
  { unfold max_step.
    destruct (Z.eq_dec a 0) as [-> | Hna].
    - change (of_Z 0) with (S754_zero false). destruct (of_Z b) as [[] | | |]; reflexivity.
    - rewrite (of_Z_pos a) by lia. unfold int_float.
      destruct (of_Z b) as [[] | | |]; reflexivity. }
  rewrite Hs, of_Z_ltb by assumption.
  destruct (Z.ltb_spec a b); f_equal; lia.
Qed.

Lemma Zdigits2_ge_1 (z : Z) : 0 < z -> 1 <= Zdigits2 z.
Proof.
  intros Hz. rewrite Zdigits2_pos by lia. pose proof (Z.log2_nonneg z). lia.
Qed.

(** A canonical mantissa of 53 digits sits at the format's exponent. *)
Lemma canonical_at (m : positive) (e e1 q : Z) :
  canonical_mantissa prec emax m e = true ->
  e1 <= e -> -1074 <= e1 -> Zdigits2 q = 53 ->
  Zpos m * 2 ^ (e - e1) = q ->
  e = e1 /\ Zpos m = q.
Proof.
  intros Hc He H1 Hd Hv.
  assert (Hdig : Zdigits2 (Zpos m) + (e - e1) = 53).
  { rewrite <- Zdigits2_mul_pow2 by lia. rewrite Hv. assumption. }
  cbn [Zdigits2] in Hdig.
  unfold canonical_mantissa in Hc. apply Z.eqb_eq in Hc. rewrite fexp_eq in Hc.
  assert (e = e1) by lia. split; [assumption|]. subst e.
  replace (e1 - e1) with 0 in Hv by lia. rewrite Z.pow_0_r, Z.mul_1_r in Hv. assumption.
Qed.

Lemma of_Z_dyadic (z : Z) : 0 < z -> z < 2 ^ 53 -> of_Z z = dyadic z 0.
Proof.
  intros Hz Hlt. rewrite of_Z_pos by assumption. unfold int_float, dyadic.
  rewrite Z.add_0_r. reflexivity.
Qed.

(** A product that fits in 53 bits is exact. *)
Lemma mul_dyadic (a b ja jb : Z) :
  0 < a -> 0 < b -> a * b < 2 ^ 53 ->
  -1074 <= Zdigits2 (a * b) - 53 + (ja + jb) <= 971 ->
  mul (dyadic a ja) (dyadic b jb) = dyadic (a * b) (ja + jb).
Proof.
  intros Ha Hb Hab Hrange.
  assert (Ha53 : a < 2 ^ 53) by nia.
  assert (Hb53 : b < 2 ^ 53) by nia.
  assert (Hda : Zdigits2 a <= 53) by (apply Zdigits2_le_53; lia).
  assert (Hdb : Zdigits2 b <= 53) by (apply Zdigits2_le_53; lia).
  assert (Hdab : Zdigits2 (a * b) <= 53) by (apply Zdigits2_le_53; nia).
  pose proof (Zdigits2_ge_1 a Ha) as H1a.
  pose proof (Zdigits2_ge_1 b Hb) as H1b.
  pose proof (Zdigits2_mul a b Ha Hb) as Hd.
  assert (Hpa : 0 < 2 ^ (53 - Zdigits2 a)) by (apply Z.pow_pos_nonneg; lia).
  assert (Hpb : 0 < 2 ^ (53 - Zdigits2 b)) by (apply Z.pow_pos_nonneg; lia).
  assert (Hpab : 0 < 2 ^ (53 - Zdigits2 (a * b))) by (apply Z.pow_pos_nonneg; lia).
  unfold mul, dyadic, SFmul. cbn [xorb].
  set (ma := Z.to_pos (a * 2 ^ (53 - Zdigits2 a))).
  set (mb := Z.to_pos (b * 2 ^ (53 - Zdigits2 b))).
  set (k0 := 106 - Zdigits2 a - Zdigits2 b).
  assert (HP : Zpos (ma * mb) = a * b * 2 ^ k0).
  { rewrite Pos2Z.inj_mul. unfold ma, mb, k0. rewrite !Z2Pos.id by nia.
    replace (106 - Zdigits2 a - Zdigits2 b)
      with ((53 - Zdigits2 a) + (53 - Zdigits2 b)) by lia.
    rewrite Z.pow_add_r by lia. ring. }
  rewrite HP.
  set (E := Zdigits2 a - 53 + ja + (Zdigits2 b - 53 + jb)).
  set (e1 := Zdigits2 (a * b) - 53 + (ja + jb)).
  assert (HD : fexp (Zdigits2 (a * b * 2 ^ k0) + E) = e1).
  { rewrite Zdigits2_mul_pow2 by (unfold k0; nia || lia).
    rewrite fexp_eq. unfold E, e1, k0. lia. }
  pose proof (binary_round_aux_exact false (a * b * 2 ^ k0) E) as H.
  rewrite HD in H.
  assert (Hpk0 : 0 < 2 ^ k0) by (apply Z.pow_pos_nonneg; unfold k0; lia).
  specialize (H ltac:(nia) ltac:(unfold E, e1; lia)). cbv zeta in H.
  set (q := a * b * 2 ^ (53 - Zdigits2 (a * b))).
  assert (Hk : k0 = (53 - Zdigits2 (a * b)) + (e1 - E)) by (unfold k0, e1, E; lia).
  assert (Hpk : 0 < 2 ^ (e1 - E)) by (apply Z.pow_pos_nonneg; unfold e1, E; lia).
  assert (Hsplit : a * b * 2 ^ k0 = q * 2 ^ (e1 - E)).
  { rewrite Hk, Z.pow_add_r by (unfold e1, E; lia). unfold q. ring. }
  rewrite Hsplit in H. rewrite Z.div_mul, Z.mod_mul in H by lia.
  assert (Hq : 0 < q) by (unfold q; nia).
  assert (Hdq : Zdigits2 q = 53).
  { unfold q. rewrite Zdigits2_mul_pow2 by lia. lia. }
  destruct H as [[H0 _] | (m & e & He & Hc & _ & Hex & Hres)]; [lia|].
  specialize (Hex eq_refl).
  destruct (canonical_at m e e1 q Hc (proj1 He) ltac:(unfold e1; lia) Hdq Hex) as [-> Hm].
  rewrite Hsplit, Hres. unfold rounded.
  destruct (Z.leb_spec e1 (emax - prec)) as [_ | Hgt];
    [|unfold emax, prec, e1 in Hgt; lia].
  f_equal. fold q. rewrite <- Hm. rewrite Pos2Z.id. reflexivity.
Qed.

Lemma round_of_Z (z : Z) : 0 <= z < 2 ^ 53 -> Math_round (of_Z z) = of_Z z.
Proof.
  intros Hz. destruct (Z.eq_dec z 0) as [-> | Hnz]; [reflexivity|].
  rewrite (of_Z_pos z) by lia. unfold int_float, Math_round.
  destruct (Z.leb_spec 0 (Zdigits2 z - 53)) as [|Hneg]; [reflexivity|].
  cbv zeta. unfold signed. cbn [cond_Zopp].
  assert (Hd1 : 1 <= Zdigits2 z) by (apply Zdigits2_ge_1; lia).
  assert (Hp : 0 < 2 ^ (53 - Zdigits2 z)) by (apply Z.pow_pos_nonneg; lia).
  rewrite Z2Pos.id by nia.
  replace (- (Zdigits2 z - 53)) with (53 - Zdigits2 z) by lia.
  set (W := 2 ^ (53 - Zdigits2 z)) in *.
  replace (2 ^ (53 - Zdigits2 z + 1)) with (2 * W)
    by (rewrite Z.pow_add_r by lia; change (2 ^ 1) with 2; unfold W; ring).
  assert (Hq : (2 * (z * W) + W) / (2 * W) = z).
  { symmetry. apply (Z.div_unique _ _ _ W); lia. }
  rewrite Hq. destruct (Z.eqb_spec z 0); [lia|].
  rewrite (of_Z_pos z) by lia. reflexivity.
Qed.

(** [Math.round] of a half-integer [z / 2] rounds the half up. *)
Lemma round_half (z : Z) :
  0 < z -> z < 2 ^ 53 -> Math_round (dyadic z (-1)) = of_Z ((z + 1) / 2).
Proof.
  intros Hz Hlt. unfold dyadic, Math_round.
  assert (Hd : Zdigits2 z <= 53) by (apply Zdigits2_le_53; lia).
  assert (Hd1 : 1 <= Zdigits2 z) by (apply Zdigits2_ge_1; lia).
  destruct (Z.leb_spec 0 (Zdigits2 z - 53 + -1)) as [|Hneg]; [lia|].
  cbv zeta. unfold signed. cbn [cond_Zopp].
  assert (Hp : 0 < 2 ^ (53 - Zdigits2 z)) by (apply Z.pow_pos_nonneg; lia).
  rewrite Z2Pos.id by nia.
  set (W := 2 ^ (53 - Zdigits2 z)) in *.
  replace (2 ^ (- (Zdigits2 z - 53 + -1))) with (2 * W)
    by (replace (- (Zdigits2 z - 53 + -1)) with (53 - Zdigits2 z + 1) by lia;
        rewrite Z.pow_add_r by lia; change (2 ^ 1) with 2; unfold W; ring).
  replace (2 ^ (- (Zdigits2 z - 53 + -1) + 1)) with (4 * W)
    by (replace (- (Zdigits2 z - 53 + -1) + 1) with (53 - Zdigits2 z + 2) by lia;
        rewrite Z.pow_add_r by lia; change (2 ^ 2) with 4; unfold W; ring).
  assert (Hq : (2 * (z * W) + 2 * W) / (4 * W) = (z + 1) / 2).
  { replace (2 * (z * W) + 2 * W) with ((z + 1) * (2 * W)) by ring.
    replace (4 * W) with (2 * (2 * W)) by ring.
    apply Z.div_mul_cancel_r; lia. }
  rewrite Hq.
  assert (1 <= (z + 1) / 2) by (apply Z.div_le_lower_bound; lia).
  destruct (Z.eqb_spec ((z + 1) / 2) 0); [lia | reflexivity].
Qed.

(** The product by the literal 1.2 is not exact, but below 2^40 its error
    is too small to move the rounded result. *)
Lemma round_mul_1_2 (n : Z) :
  1 <= n -> n < 2 ^ 40 ->
  Math_round (mul (of_Z n) lit_1_2) = of_Z ((12 * n + 5) / 10).
Proof.
  intros Hn Hlt.
  set (M := 5404319552844595).
  assert (Hdn : Zdigits2 n <= 40).
  { destruct (Z.le_gt_cases (Zdigits2 n) 40) as [|Hgt]; [assumption|].
    pose proof (Zdigits2_bounds n ltac:(lia)) as [Hlo _].
    assert (2 ^ 40 <= 2 ^ (Zdigits2 n - 1)) by (apply Z.pow_le_mono_r; lia). lia. }
  pose proof (Zdigits2_ge_1 n ltac:(lia)) as Hd1.
  pose proof (Zdigits2_mul n M ltac:(lia) ltac:(unfold M; lia)) as HdnM.
  change (Zdigits2 M) with 53 in HdnM.
  set (t := Zdigits2 (n * M) - 53) in *.
  assert (Ht : 0 <= t <= 40) by (unfold t; lia).
  rewrite of_Z_pos by lia.
  change lit_1_2 with (S754_finite false 5404319552844595 (-52)).
  unfold int_float, mul, SFmul. cbn [xorb].
  assert (Hpn : 0 < 2 ^ (53 - Zdigits2 n)) by (apply Z.pow_pos_nonneg; lia).
  set (mx := Z.to_pos (n * 2 ^ (53 - Zdigits2 n))).
  assert (HP : Zpos (mx * 5404319552844595) = n * M * 2 ^ (53 - Zdigits2 n)).
  { rewrite Pos2Z.inj_mul. unfold mx. rewrite Z2Pos.id by nia. unfold M. ring. }
  rewrite HP.
  set (E := Zdigits2 n - 53 + -52).
  set (e1 := t - 52).
  assert (HD : fexp (Zdigits2 (n * M * 2 ^ (53 - Zdigits2 n)) + E) = e1).
  { rewrite Zdigits2_mul_pow2 by (unfold M in *; nia || lia).
    rewrite fexp_eq. unfold E, e1, t. lia. }
  pose proof (binary_round_aux_exact false (n * M * 2 ^ (53 - Zdigits2 n)) E) as H.
  rewrite HD in H.
  specialize (H ltac:(unfold M in *; nia) ltac:(unfold E, e1; lia)). cbv zeta in H.
  set (W := 2 ^ t).
  assert (HW : 1 <= W <= 2 ^ 40).
  { unfold W. split.
    - change 1 with (2 ^ 0). apply Z.pow_le_mono_r; lia.
    - apply Z.pow_le_mono_r; lia. }
  assert (Hq : n * M * 2 ^ (53 - Zdigits2 n) / 2 ^ (e1 - E) = n * M / W).
  { replace (e1 - E) with (t + (53 - Zdigits2 n)) by (unfold e1, E; lia).
    rewrite Z.pow_add_r by lia. fold W.
    apply Z.div_mul_cancel_r; lia. }
  rewrite Hq in H.
  set (q := n * M / W) in *.
  assert (Hqb : q * W <= n * M < (q + 1) * W).
  { unfold q. pose proof (Z.div_mod (n * M) W ltac:(lia)).
    pose proof (Z.mod_pos_bound (n * M) W ltac:(lia)). lia. }
  set (U := 2 ^ (52 - t)).
  assert (HUW : U * W = 2 ^ 52).
  { unfold U, W. rewrite <- Z.pow_add_r by lia. f_equal. lia. }
  assert (HU : 0 < U) by (apply Z.pow_pos_nonneg; lia).
  set (T := (12 * n + 5) / 10).
  assert (HT : 10 * T + 1 <= 12 * n + 5 <= 10 * T + 9).
  { unfold T. Z.div_mod_to_equations. lia. }
  assert (Hq1 : 1 <= q).
  { unfold q. apply Z.div_le_lower_bound; [lia|].
    assert (W <= 2 ^ (Zdigits2 (n * M) - 1)).
    { unfold W, t. apply Z.pow_le_mono_r; lia. }
    pose proof (Zdigits2_bounds (n * M) ltac:(unfold M; lia)) as [Hlo _]. lia. }
  destruct H as [[H0 _] | (m & e & He & Hc & Hb & _ & ->)]; [lia|].
  unfold rounded.
  destruct (Z.leb_spec e (emax - prec)) as [_ | Hgt];
    [|unfold emax, prec, e1 in *; lia].
  unfold Math_round.
  destruct (Z.leb_spec 0 e) as [Hpos | Hneg]; [unfold e1 in *; lia|].
  cbv zeta. unfold signed. cbn [cond_Zopp].
  set (R := Zpos m * 2 ^ (e - e1)) in *.
  set (c := 2 ^ (e - e1)) in *.
  assert (Hc0 : 0 < c) by (apply Z.pow_pos_nonneg; lia).
  assert (HcU : 2 ^ (- e) * c = U).
  { unfold c, U. rewrite <- Z.pow_add_r by lia. f_equal. unfold e1. lia. }
  assert (HRW : q * W <= R * W <= q * W + W) by nia.
  (* in units of [1 / U]: 2 T U <= 2 R + U < 2 (T + 1) U *)
  assert (Hlo : 2 * T * (U * W) <= (2 * R + U) * W).
  { rewrite HUW. change (2 ^ 52) with 4503599627370496 in *. unfold M in *.
    replace ((2 * R + U) * W) with (2 * (R * W) + U * W) by ring.
    rewrite HUW. lia. }
  assert (Hhi : (2 * R + U) * W < 2 * (T + 1) * (U * W)).
  { replace ((2 * R + U) * W) with (2 * (R * W) + U * W) by ring.
    rewrite HUW. change (2 ^ 52) with 4503599627370496 in *.
    change (2 ^ 40) with 1099511627776 in *. unfold M in *. lia. }
  assert (Hlo' : 2 * T * U <= 2 * R + U) by nia.
  assert (Hhi' : 2 * R + U < 2 * (T + 1) * U) by nia.
  assert (Hp : 0 < 2 ^ (- e)) by (apply Z.pow_pos_nonneg; lia).
  replace (2 ^ (- e + 1)) with (2 * 2 ^ (- e))
    by (rewrite Z.pow_add_r by lia; change (2 ^ 1) with 2; ring).
  assert (HqT : (2 * Zpos m + 2 ^ (- e)) / (2 * 2 ^ (- e)) = T).
  { set (V := 2 ^ (- e)) in *.
    assert (HR : R = Zpos m * c) by reflexivity.
    assert (Hl2 : T * (2 * V) <= 2 * Zpos m + V).
    { apply (Z.mul_le_mono_pos_r _ _ c); [assumption|].
      replace (T * (2 * V) * c) with (2 * T * (V * c)) by ring.
      replace ((2 * Zpos m + V) * c) with (2 * (Zpos m * c) + V * c) by ring.
      rewrite HcU, <- HR. assumption. }
    assert (Hh2 : 2 * Zpos m + V < (T + 1) * (2 * V)).
    { apply (Z.mul_lt_mono_pos_r c); [assumption|].
      replace ((T + 1) * (2 * V) * c) with (2 * (T + 1) * (V * c)) by ring.
      replace ((2 * Zpos m + V) * c) with (2 * (Zpos m * c) + V * c) by ring.
      rewrite HcU, <- HR. assumption. }
    symmetry. apply (Z.div_unique _ _ _ (2 * Zpos m + V - T * (2 * V))); lia. }
  rewrite HqT.
  destruct (Z.eqb_spec T 0); [lia | reflexivity].
Qed.

(** Subtracting a positive Number never gives more. *)
Lemma sub_le (mx my : positive) (ex ey : Z) :
  valid (S754_finite false mx ex) = true ->
  leb (sub (S754_finite false mx ex) (S754_finite false my ey))
      (S754_finite false mx ex) = true.
Proof.
  intros Hv. pose proof (Srs.valid_canonical _ _ _ Hv) as Hc.
  pose proof (Srs.canonical_lt _ _ Hc) as Hmx.
  assert (Hex : ex <= 971).
  { unfold valid, valid_binary, bounded in Hv. apply andb_true_iff in Hv.
    destruct Hv as [_ Hv]. apply Z.leb_le in Hv. exact Hv. }
  unfold canonical_mantissa in Hc. apply Z.eqb_eq in Hc.
  change (Zpos (digits2_pos mx)) with (Zdigits2 (Zpos mx)) in Hc.
  unfold sub, SFsub. cbn [cond_Zopp].
  set (ez := Z.min ex ey).
  pose proof (shl_align_spec mx ex ez) as [_ Hpx].
  pose proof (shl_align_spec my ey ez) as [_ Hpy].
  replace (Z.min ex ez) with ez in Hpx by lia.
  replace (Z.min ey ez) with ez in Hpy by lia.
  set (px := fst (shl_align mx ex ez)) in *.
  set (py := fst (shl_align my ey ez)) in *.
  destruct (Zpos px - Zpos py) as [| p | p] eqn:Hdiff; cbn [binary_normalize].
  - reflexivity.
  - assert (Hpk : 0 < 2 ^ (ex - ez)) by (apply Z.pow_pos_nonneg; lia).
    assert (Hdx : Zdigits2 (Zpos px) = Zdigits2 (Zpos mx) + (ex - ez))
      by (rewrite Hpx; apply Zdigits2_mul_pow2; lia).
    assert (Hdm : Zdigits2 (Zpos p) <= Zdigits2 (Zpos px))
      by (apply Zdigits2_mono; lia).
    pose proof (binary_round_spec false p ez) as H.
    change (Zpos (digits2_pos p)) with (Zdigits2 (Zpos p)) in H.
    cbv zeta in H.
    set (e1 := fexp (Zdigits2 (Zpos p) + ez)) in *.
    assert (He1 : e1 <= ex).
    { rewrite <- Hc. apply fexp_mono. lia. }
    assert (He1lo : -1074 <= e1) by (unfold e1; rewrite fexp_eq; lia).
    set (q := if e1 <=? ez then Zpos p * 2 ^ (ez - e1)
              else Zpos p / 2 ^ (e1 - ez)) in *.
    assert (Hpe : 0 < 2 ^ (ex - e1)) by (apply Z.pow_pos_nonneg; lia).
    assert (Hq : q + 1 <= Zpos mx * 2 ^ (ex - e1)).
    { unfold q. destruct (Z.leb_spec e1 ez) as [Hle | Hlt].
      - assert (0 < 2 ^ (ez - e1)) by (apply Z.pow_pos_nonneg; lia).
        replace (ex - e1) with ((ex - ez) + (ez - e1)) by lia.
        rewrite Z.pow_add_r, Z.mul_assoc, <- Hpx by lia. nia.
      - assert (0 < 2 ^ (e1 - ez)) by (apply Z.pow_pos_nonneg; lia).
        assert (Hs : Zpos px = Zpos mx * 2 ^ (ex - e1) * 2 ^ (e1 - ez)).
        { rewrite Hpx, <- Z.mul_assoc, <- Z.pow_add_r by lia. do 2 f_equal. lia. }
        assert (Zpos p / 2 ^ (e1 - ez) < Zpos mx * 2 ^ (ex - e1)); [|lia].
        apply Z.div_lt_upper_bound; [assumption|]. lia. }
    destruct H as [[_ ->] | (m' & e' & He' & Hc' & [_ Hhi] & _ & ->)]; [reflexivity|].
    assert (Hp' : 0 < 2 ^ (e' - e1)) by (apply Z.pow_pos_nonneg; lia).
    assert (He'x : e' <= ex).
    { destruct (Z.le_gt_cases e' ex) as [|Hgt]; [assumption|].
      assert (e1 = ex) by lia. assert (e' = ex + 1) by lia. subst e'.
      replace (ex + 1 - e1) with 1 in * by lia. replace (ex - e1) with 0 in * by lia.
      change (2 ^ 1) with 2 in *. rewrite Z.pow_0_r, Z.mul_1_r in Hq.
      unfold canonical_mantissa in Hc'. apply Z.eqb_eq in Hc'. rewrite fexp_eq in Hc'.
      assert (Hd53 : Zdigits2 (Zpos m') = 53) by (cbn [Zdigits2]; lia).
      pose proof (Zdigits2_bounds (Zpos m') ltac:(lia)) as [Hlo _].
      rewrite Hd53 in Hlo. change (2 ^ (53 - 1)) with 4503599627370496 in Hlo.
      change (2 ^ 53) with 9007199254740992 in Hmx. lia. }
    unfold rounded.
    destruct (Z.leb_spec e' (emax - prec)) as [_ | Hgt];
      [|unfold emax, prec in Hgt; lia].
    unfold leb, SFleb, SFcompare.
    change (Pos.compare_cont Eq m' mx) with (Pos.compare m' mx).
    destruct (Z.compare_spec e' ex) as [Heq | Hlt | Hgt]; [|reflexivity|lia].
    subst e'. destruct (Pos.compare_spec m' mx); try reflexivity. nia.
  - destruct (binary_round_spec true p ez) as [[_ ->] | (m' & e' & _ & _ & _ & _ & ->)];
      [reflexivity|].
    unfold rounded. destruct (e' <=? emax - prec); reflexivity.
Qed.

(** [x - c <= x] for a positive finite [c]. *)
Lemma leb_sub_pos (x : number) (my : positive) (ey : Z) :
  valid x = true -> leb pos_zero x = true ->
  leb (sub x (S754_finite false my ey)) x = true.
Proof.
  intros Hv Hx. destruct x as [sx | [] | | [] mx ex]; try discriminate.
  - destruct sx; reflexivity.
  - reflexivity.
  - apply sub_le, Hv.
Qed.

Lemma read_count_of_Z (n : Z) :
  0 <= n < 2 ^ 53 -> read_count (VNumber (of_Z n)) = of_Z n.
Proof.
  intros Hn. unfold read_count. cbn [nullish ToNumber]. rewrite floor_of_Z.
  change lit_0 with (of_Z 0). rewrite Math_max_of_Z by lia. f_equal. lia.
Qed.

(** The transition on integers: the next interval of a count below 2^40
    is the integer [interval_Z] gives. *)
Lemma spec_interval_of_Z (rating : SrsRating) (n : Z) :
  0 <= n < 2 ^ 40 -> spec_interval rating (of_Z n) = of_Z (interval_Z rating n).
Proof.
  intros Hn. change (2 ^ 40) with 1099511627776 in Hn.
  assert (H53 : 2 ^ 53 = 9007199254740992) by reflexivity.
  destruct (Z.eq_dec n 0) as [-> | Hnz]; [destruct rating; reflexivity|].
  assert (Hs : strict_eq (of_Z n) lit_0 = false).
  { change lit_0 with (of_Z 0). rewrite of_Z_eqb by lia. apply Z.eqb_neq, Hnz. }
  destruct rating; unfold spec_interval, interval_Z; rewrite ?Hs.
  - reflexivity.
  - rewrite round_mul_1_2 by (change (2 ^ 40) with 1099511627776; lia).
    change lit_1 with (of_Z 1).
    assert (0 <= (12 * n + 5) / 10 <= 12 * n + 5) by (Z.div_mod_to_equations; lia).
    apply Math_max_of_Z; lia.
  - rewrite of_Z_dyadic by lia. change lit_2_5 with (dyadic 5 (-1)).
    assert (Hd : 1 <= Zdigits2 (n * 5) <= 53).
    { split; [apply Zdigits2_ge_1; lia | apply Zdigits2_le_53; lia]. }
    rewrite mul_dyadic by lia. change (0 + -1) with (-1).
    rewrite round_half by lia.
    change lit_1 with (of_Z 1).
    assert (0 <= (n * 5 + 1) / 2 <= n * 5 + 1) by (Z.div_mod_to_equations; lia).
    rewrite Math_max_of_Z by lia. do 3 f_equal. lia.
  - rewrite of_Z_dyadic by lia. change lit_3 with (dyadic 3 0).
    assert (Hd : 1 <= Zdigits2 (n * 3) <= 53).
    { split; [apply Zdigits2_ge_1; lia | apply Zdigits2_le_53; lia]. }
    rewrite mul_dyadic by lia. change (0 + 0) with 0.
    rewrite <- of_Z_dyadic by lia. rewrite round_of_Z by lia.
    change lit_2 with (of_Z 2).
    rewrite Math_max_of_Z by lia. do 2 f_equal. lia.
Qed.

Lemma next_interval_of_Z (state : SrsState) (rating : SrsRating) (n : Z) :
  intervalDays state = VNumber (of_Z n) -> 0 <= n < 2 ^ 40 ->
  intervalDays (next_state state rating) = VNumber (of_Z (interval_Z rating n)).
Proof.
  intros Hi Hn.
  assert (Hr : read_count (intervalDays state) = of_Z n).
  { rewrite Hi. apply read_count_of_Z. change (2 ^ 40) with 1099511627776 in Hn.
    change (2 ^ 53) with 9007199254740992. lia. }
  rewrite <- spec_interval_of_Z by assumption.
  destruct rating;
    [rewrite Srs.next_state_again | rewrite Srs.next_state_hard
     | rewrite Srs.next_state_good | rewrite Srs.next_state_easy];
    cbn [intervalDays spec_interval]; rewrite ?Hr; reflexivity.
Qed.

End Exact.

(** * The schedule: further properties *)

Module Schedule.

Import Rounding Exact.

(** ** [addDays] *)

Lemma run_addDays_eq (h : Host) (date : date_ref) (days : number) (w : World) :
  run_addDays h date days w
  = (match nth date (dates w) None with
     | None => None
     | Some t0 => due_value h t0 days
     end,
     {| clock := clock w;
        dates := dates w ++ [match nth date (dates w) None with
                             | None => None
                             | Some t0 => due_value h t0 days
                             end] |}).
Proof.
  unfold run_addDays. rewrite Srs.addDays_run.
  cbn [thisTimeValue fst dates]. rewrite Srs.nth_length. reflexivity.
Qed.

(** On a host whose offset is constant a calendar day is 24 hours. *)
Lemma due_value_fixed (h : Host) (off t0 n : Z) :
  fixed_offset h off -> 0 <= n -> n < 2 ^ 53 - 31 ->
  due_value h t0 (of_Z n) = TimeClip (t0 + n * msPerDay).
Proof.
  intros Hfix Hn0 Hn. unfold due_value, setDate_value.
  rewrite Calendar.MakeDay_from_date by assumption.
  unfold UTC, LocalTime. rewrite !Hfix. f_equal.
  unfold MakeDate, Day, TimeWithinDay, msPerDay.
  pose proof (Z.div_mod (t0 + off) 86400000 ltac:(lia)). lia.
Qed.

(** A number of days that is not finite leaves no day to move to. *)
Lemma due_value_not_finite (h : Host) (t0 : Z) (days : number) :
  is_finite days = false -> due_value h t0 days = None.
Proof.
  intros Hd. unfold due_value, setDate_value.
  pose proof (Calendar.DateFromTime_range (LocalTime h t0)) as Hr.
  rewrite (of_Z_pos (DateFromTime (LocalTime h t0)))
    by (change (2 ^ 53) with 9007199254740992; lia).
  unfold int_float.
  destruct days as [sd | sd | | sd md ed]; try discriminate; reflexivity.
Qed.

Lemma TimeClip_Some (t : Z) : Z.abs t <= 8640000000000000 -> TimeClip t = Some t.
Proof. intros H. unfold TimeClip. destruct (Z.ltb_spec 8640000000000000 (Z.abs t)); [lia | reflexivity]. Qed.

Lemma TimeClip_None (t : Z) : 8640000000000000 < Z.abs t -> TimeClip t = None.
Proof. intros H. unfold TimeClip. destruct (Z.ltb_spec 8640000000000000 (Z.abs t)); [reflexivity | lia]. Qed.

Lemma TimeClip_inv (t u : Z) : TimeClip t = Some u -> u = t /\ Z.abs t <= 8640000000000000.
Proof.
  unfold TimeClip. destruct (Z.ltb_spec 8640000000000000 (Z.abs t)); [discriminate|].
  intros [= <-]. split; [reflexivity | assumption].
Qed.

(** X1: [addDays] never changes the Date it is given: it returns a Date
    that did not exist before the call, and the clock and every Date that
    existed, its argument among them, hold what they held. *)
Theorem addDays_leaves_its_argument (h : Host) (date : date_ref) (days : number)
    (w : World) :
  fst (addDays h date days w) = length (dates w)
  /\ clock (snd (addDays h date days w)) = clock w
  /\ length (dates (snd (addDays h date days w))) = S (length (dates w))
  /\ forall d, (d < length (dates w))%nat ->
               nth d (dates (snd (addDays h date days w))) None = nth d (dates w) None.
Proof.
  rewrite Srs.addDays_run. cbn [fst snd clock dates].
  split; [reflexivity|]. split; [reflexivity|].
  split; [rewrite length_app; cbn [length]; lia|].
  intros d Hd. apply app_nth1. assumption.
Qed.

(** X2: on a host whose offset from UTC is constant, [addDays(date, n)]
    for an integer [0 <= n < 2^53 - 31] is the instant exactly [n] times
    24 hours after [date], or an Invalid Date when that instant is more
    than 8.64e15 ms away from the epoch. *)
Theorem addDays_on_fixed_offset (h : Host) (off : Z) (date : date_ref) (w : World)
    (t0 n : Z) :
  fixed_offset h off ->
  nth date (dates w) None = Some t0 ->
  0 <= n -> n < 2 ^ 53 - 31 ->
  fst (run_addDays h date (of_Z n) w) = TimeClip (t0 + n * msPerDay).
Proof.
  intros Hfix Ht0 Hn0 Hn. rewrite run_addDays_eq. cbn [fst]. rewrite Ht0.
  apply (due_value_fixed h off); assumption.
Qed.

Lemma addDays_on_fixed_offset_witness :
  fst (run_addDays utc 0%nat (of_Z 3) {| clock := 0; dates := [Some 1706608800000] |})
  = TimeClip (1706608800000 + 3 * msPerDay).
Proof.
  apply (addDays_on_fixed_offset utc 0 0%nat
           {| clock := 0; dates := [Some 1706608800000] |} 1706608800000 3).
  - intros t b. reflexivity.
  - reflexivity.
  - lia.
  - reflexivity.
Defined.

(** X3: on a host whose offset is constant, adding [a] days and then [b]
    days to the result is adding [a + b] days at once, an Invalid Date in
    between included: it stays invalid, as the sum is. *)
Theorem addDays_composes (h : Host) (off : Z) (date : date_ref) (w : World)
    (t0 a b : Z) :
  fixed_offset h off ->
  nth date (dates w) None = Some t0 ->
  - 8640000000000000 <= t0 ->
  0 <= a -> 0 <= b -> a + b < 2 ^ 53 - 31 ->
  fst (run_addDays h (fst (addDays h date (of_Z a) w)) (of_Z b)
         (snd (addDays h date (of_Z a) w)))
  = fst (run_addDays h date (of_Z (a + b)) w).
Proof.
  intros Hfix Ht0 Hlo Ha Hb Hab.
  rewrite Srs.addDays_run. cbn [fst snd].
  rewrite !run_addDays_eq. cbn [fst dates]. rewrite Srs.nth_length, Ht0.
  rewrite !(due_value_fixed h off) by (assumption || lia).
  destruct (TimeClip (t0 + a * msPerDay)) as [t1 |] eqn:E1.
  - apply TimeClip_inv in E1. destruct E1 as [-> _].
    rewrite (due_value_fixed h off) by (assumption || lia). f_equal. lia.
  - symmetry. apply TimeClip_None.
    unfold TimeClip in E1.
    destruct (Z.ltb_spec 8640000000000000 (Z.abs (t0 + a * msPerDay))); [|discriminate].
    unfold msPerDay in *. lia.
Qed.

Lemma addDays_composes_witness :
  let w := {| clock := 0; dates := [Some 1706608800000] |} in
  fst (run_addDays utc (fst (addDays utc 0%nat (of_Z 2) w)) (of_Z 5)
         (snd (addDays utc 0%nat (of_Z 2) w)))
  = fst (run_addDays utc 0%nat (of_Z (2 + 5)) w).
Proof.
  apply (addDays_composes utc 0 0%nat
           {| clock := 0; dates := [Some 1706608800000] |} 1706608800000 2 5).
  - intros t b. reflexivity.
  - reflexivity.
  - lia.
  - lia.
  - lia.
  - reflexivity.
Defined.

(** X4: [addDays] does not throw on bad input: for an Invalid Date, and
    for a number of days that is NaN or an infinity, it returns an
    Invalid Date. *)
Theorem addDays_invalid_date (h : Host) (date : date_ref) (days : number) (w : World) :
  nth date (dates w) None = None \/ is_finite days = false ->
  fst (run_addDays h date days w) = None.
Proof.
  intros H. rewrite run_addDays_eq. cbn [fst].
  destruct (nth date (dates w) None) as [t0 |]; [|reflexivity].
  destruct H as [H | H]; [discriminate|].
  apply due_value_not_finite, H.
Qed.

Lemma addDays_invalid_date_witness :
  fst (run_addDays utc 0%nat NaN {| clock := 0; dates := [Some 1706608800000] |}) = None.
Proof.
  apply (addDays_invalid_date utc 0%nat NaN
           {| clock := 0; dates := [Some 1706608800000] |}).
  right. reflexivity.
Defined.

(** X5: on any host, when the local time [n] calendar days after that
    of [date] exists there (the host maps it to an instant that reads
    back as that local time), the Date returned by [addDays(date, n)]
    reads, in local time, [n] days later at the same time of day. *)
Theorem addDays_keeps_local_time (h : Host) (date : date_ref) (w : World)
    (t0 n t : Z) :
  nth date (dates w) None = Some t0 ->
  0 <= n -> n < 2 ^ 53 - 31 ->
  LocalTime h (UTC h (MakeDate (Day (LocalTime h t0) + n) (TimeWithinDay (LocalTime h t0))))
  = MakeDate (Day (LocalTime h t0) + n) (TimeWithinDay (LocalTime h t0)) ->
  fst (run_addDays h date (of_Z n) w) = Some t ->
  Day (LocalTime h t) = Day (LocalTime h t0) + n
  /\ TimeWithinDay (LocalTime h t) = TimeWithinDay (LocalTime h t0).
Proof.
  intros Ht0 Hn0 Hn Hex Hres.
  rewrite run_addDays_eq in Hres. cbn [fst] in Hres. rewrite Ht0 in Hres.
  unfold due_value, setDate_value in Hres.
  rewrite Calendar.MakeDay_from_date in Hres by assumption.
  apply TimeClip_inv in Hres. destruct Hres as [-> _].
  rewrite Hex. apply Calendar.MakeDate_Day, Calendar.TimeWithinDay_range.
Qed.

Lemma addDays_keeps_local_time_witness :
  Day (LocalTime dst_host (1711792800000 + 23 * 3600000))
  = Day (LocalTime dst_host 1711792800000) + 1
  /\ TimeWithinDay (LocalTime dst_host (1711792800000 + 23 * 3600000))
     = TimeWithinDay (LocalTime dst_host 1711792800000).
Proof.
  apply (addDays_keeps_local_time dst_host 0%nat
           {| clock := 0; dates := [Some 1711792800000] |} 1711792800000 1).
  - reflexivity.
  - lia.
  - reflexivity.
  - reflexivity.
  - vm_compute. reflexivity.
Defined.

(** ** The intervals in integers *)

Lemma interval_Z_range (rating : SrsRating) (n : Z) :
  0 <= n < 2 ^ 40 -> 1 <= interval_Z rating n < 2 ^ 42.
Proof.
  intros Hn. change (2 ^ 40) with 1099511627776 in Hn.
  change (2 ^ 42) with 4398046511104.
  destruct rating; unfold interval_Z; try lia.
  - Z.div_mod_to_equations. lia.
  - Z.div_mod_to_equations. lia.
Qed.

(** X6: in integers: from a stored interval [n] with [0 <= n < 2^40] the
    next interval is exactly 1 for again, max(1, floor((12 n + 5) / 10))
    for hard, max(1, floor((5 n + 1) / 2)) for good and max(2, 3 n) for
    easy: the products by 1.2 and 2.5 in binary64 and the rounding of
    halves upwards never give another integer in that range. *)
Theorem interval_in_integers (h : Host) (state : SrsState) (rating : SrsRating)
    (w : World) (n : Z) :
  intervalDays state = VNumber (of_Z n) -> 0 <= n -> n < 2 ^ 40 ->
  intervalDays (fst (run_nextSrs h state rating w))
  = VNumber (of_Z (interval_Z rating n)).
Proof.
  intros Hi Hn0 Hn. rewrite Srs.run_nextSrs_eq. cbn [fst].
  apply next_interval_of_Z; [assumption | lia].
Qed.

Lemma interval_in_integers_witness :
  intervalDays (fst (run_nextSrs utc
                       (mkSrsState (VNumber (of_Z 1000003)) (VNumber lit_2_5) (VNumber lit_0))
                       hard jan30))
  = VNumber (of_Z (interval_Z hard 1000003)).
Proof.
  apply (interval_in_integers utc
           (mkSrsState (VNumber (of_Z 1000003)) (VNumber lit_2_5) (VNumber lit_0))
           hard jan30 1000003).
  - reflexivity.
  - lia.
  - reflexivity.
Defined.

(** X7: a review rated hard, good or easy never shortens the interval:
    from an interval of [n] days, [1 <= n < 2^40], the next one is at
    least [n]; it is [n] again only for hard at 1 or 2 days, which
    repeated ratings of hard never get past. *)
Theorem success_never_shortens (h : Host) (state : SrsState) (rating : SrsRating)
    (w : World) (n : Z) :
  intervalDays state = VNumber (of_Z n) -> 1 <= n -> n < 2 ^ 40 ->
  rating <> again ->
  exists v,
    intervalDays (fst (run_nextSrs h state rating w)) = VNumber v
    /\ leb (of_Z n) v = true
    /\ (strict_eq v (of_Z n) = true <-> rating = hard /\ n <= 2).
Proof.
  intros Hi Hn1 Hn Hr. rewrite Srs.run_nextSrs_eq. cbn [fst].
  rewrite (next_interval_of_Z state rating n Hi) by lia.
  pose proof (interval_Z_range rating n ltac:(lia)) as Hk.
  change (2 ^ 40) with 1099511627776 in Hn.
  change (2 ^ 42) with 4398046511104 in Hk.
  assert (H53 : 2 ^ 53 = 9007199254740992) by reflexivity.
  eexists. split; [reflexivity|].
  rewrite of_Z_leb, of_Z_eqb by lia.
  rewrite Z.leb_le, Z.eqb_eq.
  destruct rating; [congruence | | |]; unfold interval_Z in *.
  - split; [Z.div_mod_to_equations; lia|].
    split; [intros H; split; [reflexivity|]; Z.div_mod_to_equations; lia|].
    intros [_ H]. Z.div_mod_to_equations. lia.
  - split; [Z.div_mod_to_equations; lia|].
    split; [intros H; exfalso; Z.div_mod_to_equations; lia | intros [H _]; discriminate].
  - split; [lia|].
    split; [intros H; exfalso; lia | intros [H _]; discriminate].
Qed.

Lemma success_never_shortens_witness :
  exists v,
    intervalDays (fst (run_nextSrs utc
                         (mkSrsState (VNumber (of_Z 2)) (VNumber lit_2_5) (VNumber lit_0))
                         hard jan30)) = VNumber v
    /\ leb (of_Z 2) v = true
    /\ (strict_eq v (of_Z 2) = true <-> hard = hard /\ 2 <= 2).
Proof.
  apply (success_never_shortens utc
           (mkSrsState (VNumber (of_Z 2)) (VNumber lit_2_5) (VNumber lit_0))
           hard jan30 2).
  - reflexivity.
  - lia.
  - reflexivity.
  - discriminate.
Defined.

(** X8: for one and the same state, with a stored interval
    [0 <= n < 2^40], an easier rating never gives a shorter interval:
    again <= hard <= good <= easy. *)
Theorem easier_rating_no_sooner (h : Host) (state : SrsState) (w : World) (n : Z) :
  intervalDays state = VNumber (of_Z n) -> 0 <= n -> n < 2 ^ 40 ->
  exists va vh vg ve,
    intervalDays (fst (run_nextSrs h state again w)) = VNumber va
    /\ intervalDays (fst (run_nextSrs h state hard w)) = VNumber vh
    /\ intervalDays (fst (run_nextSrs h state good w)) = VNumber vg
    /\ intervalDays (fst (run_nextSrs h state easy w)) = VNumber ve
    /\ leb va vh = true /\ leb vh vg = true /\ leb vg ve = true.
Proof.
  intros Hi Hn0 Hn. rewrite !Srs.run_nextSrs_eq. cbn [fst].
  rewrite !(next_interval_of_Z state _ n Hi) by lia.
  pose proof (interval_Z_range again n ltac:(lia)) as Ha.
  pose proof (interval_Z_range hard n ltac:(lia)) as Hh.
  pose proof (interval_Z_range good n ltac:(lia)) as Hg.
  pose proof (interval_Z_range easy n ltac:(lia)) as He.
  change (2 ^ 42) with 4398046511104 in *.
  assert (H53 : 2 ^ 53 = 9007199254740992) by reflexivity.
  do 4 eexists. do 4 (split; [reflexivity|]).
  rewrite !of_Z_leb by lia. rewrite !Z.leb_le.
  unfold interval_Z in *. clear Ha Hh Hg He.
  change (2 ^ 40) with 1099511627776 in Hn.
  split; [lia|]. split; Z.div_mod_to_equations; lia.
Qed.

Lemma easier_rating_no_sooner_witness :
  exists va vh vg ve,
    intervalDays (fst (run_nextSrs utc initialSrsState again jan30)) = VNumber va
    /\ intervalDays (fst (run_nextSrs utc initialSrsState hard jan30)) = VNumber vh
    /\ intervalDays (fst (run_nextSrs utc initialSrsState good jan30)) = VNumber vg
    /\ intervalDays (fst (run_nextSrs utc initialSrsState easy jan30)) = VNumber ve
    /\ leb va vh = true /\ leb vh vg = true /\ leb vg ve = true.
Proof.
  apply (easier_rating_no_sooner utc initialSrsState jan30 0).
  - reflexivity.
  - lia.
  - reflexivity.
Defined.

(** X16: a longer interval never makes the next one shorter: of two
    stored intervals [n <= m], both below 2^40, the one rated like the
    other gets a next interval that is no longer. *)
Theorem longer_interval_no_sooner (h : Host) (s1 s2 : SrsState) (rating : SrsRating)
    (w1 w2 : World) (n m : Z) :
  intervalDays s1 = VNumber (of_Z n) -> intervalDays s2 = VNumber (of_Z m) ->
  0 <= n -> n <= m -> m < 2 ^ 40 ->
  exists v1 v2,
    intervalDays (fst (run_nextSrs h s1 rating w1)) = VNumber v1
    /\ intervalDays (fst (run_nextSrs h s2 rating w2)) = VNumber v2
    /\ leb v1 v2 = true.
Proof.
  intros H1 H2 Hn0 Hnm Hm. rewrite !Srs.run_nextSrs_eq. cbn [fst].
  rewrite (next_interval_of_Z s1 rating n H1), (next_interval_of_Z s2 rating m H2) by lia.
  pose proof (interval_Z_range rating n ltac:(lia)) as Hr1.
  pose proof (interval_Z_range rating m ltac:(lia)) as Hr2.
  change (2 ^ 42) with 4398046511104 in *.
  assert (H53 : 2 ^ 53 = 9007199254740992) by reflexivity.
  do 2 eexists. do 2 (split; [reflexivity|]).
  rewrite of_Z_leb by lia. rewrite Z.leb_le.
  clear Hr1 Hr2. destruct rating; unfold interval_Z; try lia;
    Z.div_mod_to_equations; lia.
Qed.

Lemma longer_interval_no_sooner_witness :
  exists v1 v2,
    intervalDays (fst (run_nextSrs utc
                         (mkSrsState (VNumber (of_Z 3)) (VNumber lit_2_5) (VNumber lit_0))
                         hard jan30)) = VNumber v1
    /\ intervalDays (fst (run_nextSrs utc
                            (mkSrsState (VNumber (of_Z 4)) VNull VUndefined)
                            hard jan30)) = VNumber v2
    /\ leb v1 v2 = true.
Proof.
  apply (longer_interval_no_sooner utc
           (mkSrsState (VNumber (of_Z 3)) (VNumber lit_2_5) (VNumber lit_0))
           (mkSrsState (VNumber (of_Z 4)) VNull VUndefined) hard jan30 jan30 3 4).
  - reflexivity.
  - reflexivity.
  - lia.
  - lia.
  - reflexivity.
Defined.

(** ** The ease *)

(** X9: from an ease of at least 1.3, again and hard never raise the
    ease, good keeps it, and easy never lowers it. *)
Theorem ease_moves_with_rating (h : Host) (state : SrsState) (e : number) (w : World) :
  ease state = VNumber e -> valid e = true -> leb lit_1_3 e = true ->
  exists ea eh eg ee,
    ease (fst (run_nextSrs h state again w)) = VNumber ea
    /\ ease (fst (run_nextSrs h state hard w)) = VNumber eh
    /\ ease (fst (run_nextSrs h state good w)) = VNumber eg
    /\ ease (fst (run_nextSrs h state easy w)) = VNumber ee
    /\ leb ea e = true /\ leb eh e = true /\ eg = e /\ leb e ee = true.
Proof.
  intros He Hv Hle. rewrite !Srs.run_nextSrs_eq. cbn [fst].
  rewrite Srs.next_state_again, Srs.next_state_hard, Srs.next_state_good,
    Srs.next_state_easy.
  cbn [ease]. rewrite He. cbn [read_ease typeof_number ToNumber].
  assert (Hnan : e <> S754_nan) by (intros ->; discriminate).
  assert (H0 : leb pos_zero e = true)
    by (apply (leb_trans _ lit_1_3); [reflexivity | assumption]).
  assert (Hmax : forall my ey,
             leb (Math_max lit_1_3 (sub e (S754_finite false my ey))) e = true).
  { intros my ey.
    rewrite Math_max_not_nan
      by first [discriminate | apply sub_not_nan; [assumption | reflexivity]].
    destruct (max_step_cases lit_1_3 (sub e (S754_finite false my ey))) as [-> | ->];
      [assumption | apply leb_sub_pos; assumption]. }
  do 4 eexists. do 4 (split; [reflexivity|]).
  split; [apply Hmax|]. split; [apply Hmax|]. split; [reflexivity|].
  apply leb_add_pos; assumption.
Qed.

Lemma ease_moves_with_rating_witness :
  exists ea eh eg ee,
    ease (fst (run_nextSrs utc initialSrsState again jan30)) = VNumber ea
    /\ ease (fst (run_nextSrs utc initialSrsState hard jan30)) = VNumber eh
    /\ ease (fst (run_nextSrs utc initialSrsState good jan30)) = VNumber eg
    /\ ease (fst (run_nextSrs utc initialSrsState easy jan30)) = VNumber ee
    /\ leb ea lit_2_5 = true /\ leb eh lit_2_5 = true /\ eg = lit_2_5
    /\ leb lit_2_5 ee = true.
Proof.
  apply (ease_moves_with_rating utc initialSrsState lit_2_5 jan30).
  - reflexivity.
  - reflexivity.
  - reflexivity.
Defined.

(** ** Successive reviews *)

Lemma review_cons (h : Host) (rating : SrsRating) (w : World)
    (steps : list (SrsRating * World)) (state : SrsState) :
  review h ((rating, w) :: steps) state = review h steps (next_state state rating).
Proof. cbn [review]. rewrite Srs.run_nextSrs_eq. reflexivity. Qed.

Lemma next_reps_of_Z (state : SrsState) (rating : SrsRating) (k : Z) :
  reps state = VNumber (of_Z k) -> 0 <= k -> k + 1 < 2 ^ 53 ->
  reps (next_state state rating) = VNumber (of_Z (streak k [rating])).
Proof.
  intros Hr Hk0 Hk.
  assert (Hc : read_count (reps state) = of_Z k)
    by (rewrite Hr; apply read_count_of_Z; lia).
  destruct rating;
    [rewrite Srs.next_state_again | rewrite Srs.next_state_hard
     | rewrite Srs.next_state_good | rewrite Srs.next_state_easy];
    cbn [reps streak]; rewrite ?Hc; try reflexivity;
    change lit_1 with (of_Z 1); rewrite add_of_Z by lia; reflexivity.
Qed.

Lemma streak_bounds (ratings : list SrsRating) (k : Z) :
  0 <= k -> 0 <= streak k ratings <= k + Z.of_nat (length ratings).
Proof.
  revert k. induction ratings as [| r rest IH]; intros k Hk; cbn [streak length].
  - lia.
  - destruct r; [specialize (IH 0 ltac:(lia)) | specialize (IH (k + 1) ltac:(lia)) ..]; lia.
Qed.

(** X10: over successive reviews, each starting from the state the one
    before returned, [reps] is the number of ratings since the last
    again: from [reps = k], after the ratings [steps], it is
    [streak k steps], as long as the count stays below 2^53. *)
Theorem reps_is_the_streak (h : Host) (steps : list (SrsRating * World))
    (state : SrsState) (k : Z) :
  reps state = VNumber (of_Z k) -> 0 <= k ->
  k + Z.of_nat (length steps) < 2 ^ 53 ->
  reps (review h steps state) = VNumber (of_Z (streak k (map fst steps))).
Proof.
  revert state k. induction steps as [| [rating w] rest IH]; intros state k Hr Hk0 Hk.
  - exact Hr.
  - rewrite review_cons. cbn [length map fst] in *.
    pose proof (next_reps_of_Z state rating k Hr Hk0 ltac:(lia)) as Hn.
    destruct rating; cbn [streak] in *;
      apply (IH _ _ Hn); lia.
Qed.

Lemma reps_is_the_streak_witness :
  reps (review utc [(good, jan30); (again, jan30); (hard, jan30); (easy, jan30)]
          initialSrsState)
  = VNumber (of_Z (streak 0 (map fst [(good, jan30); (again, jan30); (hard, jan30);
                                      (easy, jan30)]))).
Proof.
  apply (reps_is_the_streak utc
           [(good, jan30); (again, jan30); (hard, jan30); (easy, jan30)]
           initialSrsState 0).
  - reflexivity.
  - lia.
  - reflexivity.
Defined.

(** ** What is written back is read back unchanged *)

Lemma Math_max_0_ge_1 (v : number) : leb lit_1 v = true -> Math_max lit_0 v = v.
Proof. destruct v as [[] | [] | | [] m e]; try discriminate; reflexivity. Qed.

Lemma Math_max_nan_r (c : number) : Math_max c NaN = NaN.
Proof. unfold Math_max. cbn [is_nan]. rewrite orb_true_r. reflexivity. Qed.

Lemma read_count_interval (c x : number) :
  is_finite c = true -> Math_floor c = c -> leb lit_1 c = true ->
  Math_floor x = x ->
  read_count (VNumber (Math_max c x)) = Math_max c x.
Proof.
  intros Hc Hfc H1 Hfx.
  destruct x as [sx | sx | | sx mx ex] eqn:Ex;
    try (rewrite Math_max_nan_r; reflexivity);
    rewrite <- Ex in *;
    assert (Hx : x <> S754_nan) by (rewrite Ex; discriminate);
    unfold read_count; cbn [nullish ToNumber];
    rewrite (Math_max_floor c x Hfc Hfx);
    apply Math_max_0_ge_1;
    apply (leb_trans _ c); [assumption | | assumption | | assumption |];
    apply Math_max_ge; try assumption; apply Srs.finite_not_nan, Hc.
Qed.

Lemma read_count_next_interval (state : SrsState) (rating : SrsRating) :
  exists v, intervalDays (next_state state rating) = VNumber v
            /\ read_count (VNumber v) = v.
Proof.
  destruct rating;
    [rewrite Srs.next_state_again | rewrite Srs.next_state_hard
     | rewrite Srs.next_state_good | rewrite Srs.next_state_easy];
    cbn [intervalDays]; eexists; (split; [reflexivity|]);
    try reflexivity;
    destruct (strict_eq _ lit_0); try reflexivity;
    apply read_count_interval; try reflexivity; apply floor_round.
Qed.

(** One more than a count that was read is read back as it is. *)
Lemma read_count_succ (r : number) :
  valid r = true -> Math_floor r = r -> (r = NaN \/ leb lit_0 r = true) ->
  read_count (VNumber (add r lit_1)) = add r lit_1.
Proof.
  intros Hv Hf Hr.
  destruct r as [sr | [] | | [] m e]; try reflexivity;
    try (destruct Hr as [Hr | Hr]; discriminate).
  pose proof (Srs.valid_canonical _ _ _ Hv) as Hc.
  destruct (Z.leb_spec 0 e) as [He | He].
  - (* no fractional bits: the sum has none either *)
    pose proof (add_ge m 4503599627370496 e (-52) Hc) as Hge.
    change (S754_finite false 4503599627370496 (-52)) with lit_1 in Hge.
    destruct (add (S754_finite false m e) lit_1) as [sr | [] | | [] m' e'];
      try discriminate; try reflexivity.
    assert (He' : e <= e').
    { unfold leb, SFleb, SFcompare in Hge.
      destruct (Z.compare_spec e e'); try lia; discriminate. }
    unfold read_count. cbn [nullish ToNumber Math_floor].
    destruct (Z.leb_spec 0 e'); [reflexivity | lia].
  - (* an integer below 2^52 *)
    pose proof (Srs.canonical_lt _ _ Hc) as Hm.
    cbn [Math_floor] in Hf.
    destruct (Z.leb_spec 0 e) as [|_]; [lia|].
    unfold signed in Hf. cbn [cond_Zopp] in Hf.
    assert (Hp : 0 < 2 ^ (- e)) by (apply Z.pow_pos_nonneg; lia).
    assert (Hq : 0 <= Zpos m / 2 ^ (- e) <= Zpos m).
    { split; [apply Z.div_pos; lia|]. apply Z.div_le_upper_bound; [assumption | nia]. }
    set (q := Zpos m / 2 ^ (- e)) in *.
    destruct (Z.eq_dec q 0) as [Hq0 | Hq0]; [rewrite Hq0 in Hf; discriminate|].
    assert (Hq52 : q < 2 ^ 52).
    { rewrite (of_Z_pos q) in Hf by lia. unfold int_float in Hf.
      injection Hf as _ Hd.
      assert (Zdigits2 q <= 52) by lia.
      pose proof (Zdigits2_bounds q ltac:(lia)) as [_ Hhi].
      assert (2 ^ Zdigits2 q <= 2 ^ 52)
        by (apply Z.pow_le_mono_r; [lia | assumption]).
      lia. }
    rewrite <- Hf. change lit_1 with (of_Z 1).
    change (2 ^ 52) with 4503599627370496 in Hq52.
    assert (H53 : 2 ^ 53 = 9007199254740992) by reflexivity.
    rewrite add_of_Z by lia. apply read_count_of_Z. lia.
Qed.

Lemma read_count_next_reps (state : SrsState) (rating : SrsRating) :
  (reps state = VUndefined \/ reps state = VNull
   \/ exists r, reps state = VNumber r /\ valid r = true) ->
  exists v, reps (next_state state rating) = VNumber v
            /\ read_count (VNumber v) = v.
Proof.
  intros Hst.
  assert (Hs : read_count (VNumber (add (read_count (reps state)) lit_1))
               = add (read_count (reps state)) lit_1).
  { destruct Hst as [-> | [-> | (r & -> & Hv)]]; try reflexivity.
    apply read_count_succ.
    - unfold read_count. cbn [nullish ToNumber].
      apply Math_max_valid; [reflexivity | apply floor_valid, Hv].
    - unfold read_count. cbn [nullish ToNumber].
      apply Math_max_floor; [reflexivity | apply floor_floor].
    - unfold read_count. cbn [nullish ToNumber].
      destruct r as [sr | sr | | sr m e] eqn:Er; try (left; reflexivity);
        right; rewrite <- Er;
        (apply Math_max_ge; [discriminate | apply floor_not_nan; rewrite Er; discriminate]). }
  destruct rating;
    [rewrite Srs.next_state_again | rewrite Srs.next_state_hard
     | rewrite Srs.next_state_good | rewrite Srs.next_state_easy];
    cbn [reps]; eexists; (split; [reflexivity|]); try exact Hs; reflexivity.
Qed.

Lemma next_ease_number (state : SrsState) (rating : SrsRating) :
  exists v, ease (next_state state rating) = VNumber v.
Proof.
  destruct rating;
    [rewrite Srs.next_state_again | rewrite Srs.next_state_hard
     | rewrite Srs.next_state_good | rewrite Srs.next_state_easy];
    cbn [ease]; eexists; reflexivity.
Qed.

(** X11: the state [nextSrs] returns is already in the form the next
    call reads it in: normalizing it changes nothing, whatever the state
    it was computed from, provided the stored [reps] was absent or a
    Number. What a review writes back is what the next review computes
    with. *)
Theorem written_state_reads_back (h : Host) (state : SrsState) (rating : SrsRating)
    (w : World) :
  (reps state = VUndefined \/ reps state = VNull
   \/ exists r, reps state = VNumber r /\ valid r = true) ->
  normalize (fst (run_nextSrs h state rating w)) = fst (run_nextSrs h state rating w).
Proof.
  intros Hst. rewrite Srs.run_nextSrs_eq. cbn [fst].
  destruct (read_count_next_interval state rating) as (vi & Hi & Hri).
  destruct (read_count_next_reps state rating Hst) as (vr & Hr & Hrr).
  destruct (next_ease_number state rating) as (ve & He).
  destruct (next_state state rating) as [i e r]. cbn [intervalDays ease reps] in *.
  subst. unfold normalize. cbn [intervalDays ease reps read_ease typeof_number ToNumber].
  rewrite Hri, Hrr. reflexivity.
Qed.

Lemma written_state_reads_back_witness :
  normalize (fst (run_nextSrs utc
                    (mkSrsState (VNumber (decimal 75 1)) VNull (VNumber (decimal 25 1)))
                    hard jan30))
  = fst (run_nextSrs utc
           (mkSrsState (VNumber (decimal 75 1)) VNull (VNumber (decimal 25 1)))
           hard jan30).
Proof.
  apply (written_state_reads_back utc
           (mkSrsState (VNumber (decimal 75 1)) VNull (VNumber (decimal 25 1)))
           hard jan30).
  right. right. exists (decimal 25 1). split; reflexivity.
Defined.

(** X12: once a word has been reviewed its interval never returns to 0:
    after one review or more, with any ratings, from a state whose stored
    interval is absent or not NaN, the interval has no fractional part
    and is at least 1. *)
Theorem interval_stays_whole (h : Host) (step : SrsRating * World)
    (steps : list (SrsRating * World)) (state : SrsState) :
  (intervalDays state = VUndefined \/ intervalDays state = VNull
   \/ exists x, intervalDays state = VNumber x /\ x <> NaN) ->
  exists v, intervalDays (review h (step :: steps) state) = VNumber v
            /\ Math_floor v = v /\ leb lit_1 v = true.
Proof.
  revert step state. induction steps as [| s2 rest IH]; intros [rating w] state Hst;
    rewrite review_cons;
    destruct (Srs.next_interval_no_fraction state rating Hst) as (v & Hv & Hf & H1 & _).
  - exists v. cbn [review]. auto.
  - apply IH. right. right. exists v. split; [assumption|].
    intros ->. discriminate.
Qed.

Lemma interval_stays_whole_witness :
  exists v, intervalDays (review utc ((hard, jan30) :: [(good, jan30); (again, jan30)])
                            initialSrsState) = VNumber v
            /\ Math_floor v = v /\ leb lit_1 v = true.
Proof.
  apply (interval_stays_whole utc (hard, jan30) [(good, jan30); (again, jan30)]
           initialSrsState).
  right. right. exists lit_0. split; [reflexivity | discriminate].
Defined.

(** ** The due date *)

(** X13: on a host whose offset is constant, from a stored interval
    [0 <= n < 2^40] the due date is the clock reading plus the next
    interval times 24 hours (an Invalid Date beyond the range of Date);
    a valid due date is at least 24 hours after the clock reading, so
    the word is not due any more right after the review. *)
Theorem due_after_the_interval (h : Host) (off : Z) (state : SrsState)
    (rating : SrsRating) (w : World) (n : Z) :
  fixed_offset h off ->
  intervalDays state = VNumber (of_Z n) -> 0 <= n -> n < 2 ^ 40 ->
  snd (run_nextSrs h state rating w)
  = TimeClip (clock w + interval_Z rating n * msPerDay)
  /\ forall t, snd (run_nextSrs h state rating w) = Some t -> clock w + msPerDay <= t.
Proof.
  intros Hfix Hi Hn0 Hn. rewrite Srs.run_nextSrs_eq. cbn [snd].
  rewrite (next_interval_of_Z state rating n Hi) by lia. cbn [ToNumber].
  pose proof (interval_Z_range rating n ltac:(lia)) as Hk.
  change (2 ^ 42) with 4398046511104 in Hk.
  rewrite (due_value_fixed h off)
    by (try assumption; change (2 ^ 53) with 9007199254740992; lia).
  split; [reflexivity|].
  intros t Ht. apply TimeClip_inv in Ht. destruct Ht as [-> _].
  unfold msPerDay. lia.
Qed.

Lemma due_after_the_interval_witness :
  snd (run_nextSrs utc (mkSrsState (VNumber (of_Z 4)) (VNumber lit_2_5) (VNumber (of_Z 2)))
         good jan30)
  = TimeClip (clock jan30 + interval_Z good 4 * msPerDay)
  /\ forall t, snd (run_nextSrs utc
                      (mkSrsState (VNumber (of_Z 4)) (VNumber lit_2_5) (VNumber (of_Z 2)))
                      good jan30) = Some t ->
               clock jan30 + msPerDay <= t.
Proof.
  apply (due_after_the_interval utc 0
           (mkSrsState (VNumber (of_Z 4)) (VNumber lit_2_5) (VNumber (of_Z 2)))
           good jan30 4).
  - intros t b. reflexivity.
  - reflexivity.
  - lia.
  - reflexivity.
Defined.

(** X14: on a host whose offset is constant, a rating of again makes
    the word due exactly 24 hours after the clock reading, whatever the
    state holds, absent fields and NaN included. *)
Theorem again_is_due_tomorrow (h : Host) (off : Z) (state : SrsState) (w : World) :
  fixed_offset h off ->
  snd (run_nextSrs h state again w) = TimeClip (clock w + msPerDay).
Proof.
  intros Hfix. rewrite Srs.run_nextSrs_eq. cbn [snd].
  rewrite Srs.next_state_again. cbn [intervalDays ToNumber].
  change lit_1 with (of_Z 1).
  rewrite (due_value_fixed h off) by (try assumption; try reflexivity; lia).
  f_equal; lia.
Qed.

Lemma again_is_due_tomorrow_witness :
  snd (run_nextSrs utc (mkSrsState (VNumber NaN) VUndefined VNull) again jan30)
  = TimeClip (clock jan30 + msPerDay).
Proof.
  apply (again_is_due_tomorrow utc 0 (mkSrsState (VNumber NaN) VUndefined VNull) jan30).
  intros t b. reflexivity.
Defined.

(** X15: a stored interval of NaN or +Infinity is never repaired by
    hard, good or easy: the next interval is the same NaN or +Infinity
    and the due date is an Invalid Date. *)
Theorem unbounded_interval_has_no_due_date (h : Host) (state : SrsState)
    (rating : SrsRating) (w : World) :
  intervalDays state = VNumber NaN \/ intervalDays state = VNumber pos_infinity ->
  rating <> again ->
  intervalDays (fst (run_nextSrs h state rating w)) = intervalDays state
  /\ snd (run_nextSrs h state rating w) = None.
Proof.
  intros Hi Hr. rewrite Srs.run_nextSrs_eq. cbn [fst snd].
  assert (Hn : intervalDays (next_state state rating) = intervalDays state).
  { destruct rating; [congruence | rewrite Srs.next_state_hard
                      | rewrite Srs.next_state_good | rewrite Srs.next_state_easy];
      cbn [intervalDays]; destruct Hi as [-> | ->]; reflexivity. }
  rewrite Hn. split; [reflexivity|].
  apply due_value_not_finite. destruct Hi as [-> | ->]; reflexivity.
Qed.

Lemma unbounded_interval_has_no_due_date_witness :
  intervalDays (fst (run_nextSrs utc
                       (mkSrsState (VNumber pos_infinity) (VNumber lit_2_5) (VNumber lit_0))
                       good jan30))
  = intervalDays (mkSrsState (VNumber pos_infinity) (VNumber lit_2_5) (VNumber lit_0))
  /\ snd (run_nextSrs utc
            (mkSrsState (VNumber pos_infinity) (VNumber lit_2_5) (VNumber lit_0))
            good jan30) = None.
Proof.
  apply (unbounded_interval_has_no_due_date utc
           (mkSrsState (VNumber pos_infinity) (VNumber lit_2_5) (VNumber lit_0))
           good jan30).
  - right. reflexivity.
  - discriminate.
Defined.

End Schedule.

(** * The day headings of the reading log *)

Module Headings.

Import Rounding Exact Schedule.

(** ** Integers of either sign *)

Lemma compare_negated (m1 m2 : positive) (e1 e2 : Z) :
  SFcompare (S754_finite true m1 e1) (S754_finite true m2 e2)
  = option_map CompOpp (SFcompare (S754_finite false m1 e1) (S754_finite false m2 e2)).
Proof. unfold SFcompare. cbn [option_map]. destruct (e1 ?= e2); reflexivity. Qed.

Lemma of_Z_compare_signed (a b : Z) :
  - 2 ^ 53 < a < 2 ^ 53 -> - 2 ^ 53 < b < 2 ^ 53 ->
  SFcompare (of_Z a) (of_Z b) = Some (a ?= b).
Proof.
  intros Ha Hb.
  destruct (Z.lt_trichotomy a 0) as [Han | [-> | Hap]];
    destruct (Z.lt_trichotomy b 0) as [Hbn | [-> | Hbp]].
  - assert (Hpa : a = - (- a)) by lia. assert (Hpb : b = - (- b)) by lia.
    set (p := - a) in *. set (q := - b) in *. rewrite Hpa, Hpb.
    rewrite !of_Z_neg by lia. unfold int_float. rewrite compare_negated.
    fold (int_float false p). fold (int_float false q).
    rewrite int_float_compare by lia. cbn [option_map]. f_equal.
    rewrite Z.compare_opp. symmetry. apply Z.compare_antisym.
  - assert (Hpa : a = - (- a)) by lia. set (p := - a) in *. rewrite Hpa.
    rewrite of_Z_neg by lia. destruct p; try lia. reflexivity.
  - assert (Hpa : a = - (- a)) by lia. set (p := - a) in *. rewrite Hpa.
    rewrite of_Z_neg, (of_Z_pos b) by lia. destruct p, b; try lia. reflexivity.
  - assert (Hpb : b = - (- b)) by lia. set (q := - b) in *. rewrite Hpb.
    rewrite of_Z_neg by lia. destruct q; try lia. reflexivity.
  - reflexivity.
  - rewrite (of_Z_pos b) by lia. destruct b; try lia. reflexivity.
  - assert (Hpb : b = - (- b)) by lia. set (q := - b) in *. rewrite Hpb.
    rewrite of_Z_neg, (of_Z_pos a) by lia. destruct a, q; try lia. reflexivity.
  - rewrite (of_Z_pos a) by lia. destruct a; try lia. reflexivity.
  - rewrite !of_Z_pos by lia. apply int_float_compare; lia.
Qed.

Lemma of_Z_eqb_signed (a b : Z) :
  - 2 ^ 53 < a < 2 ^ 53 -> - 2 ^ 53 < b < 2 ^ 53 ->
  strict_eq (of_Z a) (of_Z b) = (a =? b).
Proof.
  intros Ha Hb. unfold strict_eq, SFeqb. rewrite of_Z_compare_signed by assumption.
  destruct (Z.eqb_spec a b) as [-> | Hne]; [rewrite Z.compare_refl; reflexivity|].
  destruct (Z.compare_spec a b); try lia; reflexivity.
Qed.

Lemma to_integer_of_Z_signed (z : Z) :
  - 2 ^ 53 < z < 2 ^ 53 -> to_integer (of_Z z) = Some z.
Proof.
  intros Hz. destruct (Z.lt_trichotomy z 0) as [Hn | [-> | Hp]].
  - assert (Hz' : z = - (- z)) by lia. set (p := - z) in *. rewrite Hz'.
    assert (Hp : 0 < p < 2 ^ 53) by lia. rewrite of_Z_neg by lia.
    unfold int_float, to_integer, signed. cbn [cond_Zopp].
    assert (Hd : Zdigits2 p <= 53) by (apply Zdigits2_le_53; lia).
    assert (Hpw : 0 < 2 ^ (53 - Zdigits2 p)) by (apply Z.pow_pos_nonneg; lia).
    rewrite Z2Pos.id by nia. f_equal.
    destruct (Z.leb_spec 0 (Zdigits2 p - 53)).
    + replace (53 - Zdigits2 p) with 0 by lia. replace (Zdigits2 p - 53) with 0 by lia.
      lia.
    + replace (- (Zdigits2 p - 53)) with (53 - Zdigits2 p) by lia.
      rewrite Z.quot_opp_l by lia. rewrite Z.quot_mul by lia. reflexivity.
  - reflexivity.
  - apply Calendar.to_integer_of_Z. lia.
Qed.

(** ** The calendar fields of a day *)

Lemma Day_of_fields (t : Z) :
  Day t = DayFromYear (YearFromTime t)
          + DaysBeforeMonth (MonthFromTime t) (InLeapYear t) + DateFromTime t - 1.
Proof. rewrite Calendar.DateFromTime_eq. unfold DayWithinYear. lia. Qed.

Lemma fields_of_Day (t u : Z) :
  Day t = Day u ->
  YearFromTime t = YearFromTime u /\ MonthFromTime t = MonthFromTime u
  /\ DateFromTime t = DateFromTime u.
Proof.
  intros H.
  assert (HY : YearFromTime t = YearFromTime u) by (unfold YearFromTime; rewrite H; reflexivity).
  assert (HL : InLeapYear t = InLeapYear u) by (unfold InLeapYear; rewrite HY; reflexivity).
  assert (HW : DayWithinYear t = DayWithinYear u)
    by (unfold DayWithinYear; rewrite HY, H; reflexivity).
  assert (HM : MonthFromTime t = MonthFromTime u)
    by (unfold MonthFromTime; rewrite HW, HL; reflexivity).
  split; [assumption|]. split; [assumption|].
  unfold DateFromTime. rewrite HW, HL, HM. reflexivity.
Qed.

(** Year, month and day of the month name the day, and nothing else does. *)
Lemma same_fields (t u : Z) :
  (YearFromTime t =? YearFromTime u) && (MonthFromTime t =? MonthFromTime u)
  && (DateFromTime t =? DateFromTime u)
  = (Day t =? Day u).
Proof.
  destruct (Z.eqb_spec (Day t) (Day u)) as [H | H].
  - destruct (fields_of_Day t u H) as (-> & -> & ->). rewrite !Z.eqb_refl. reflexivity.
  - destruct (Z.eqb_spec (YearFromTime t) (YearFromTime u)) as [HY | HY]; [|reflexivity].
    destruct (Z.eqb_spec (MonthFromTime t) (MonthFromTime u)) as [HM | HM]; [|reflexivity].
    destruct (Z.eqb_spec (DateFromTime t) (DateFromTime u)) as [HD | HD]; [|reflexivity].
    exfalso. apply H. rewrite (Day_of_fields t), (Day_of_fields u).
    unfold InLeapYear. rewrite HY, HM, HD. reflexivity.
Qed.

Lemma YearFromTime_bound (t : Z) :
  Z.abs t < 2 ^ 53 -> - 300000 < YearFromTime t < 300000.
Proof.
  intros Ht. pose proof (Calendar.YearFromTime_spec t) as H.
  change (2 ^ 53) with 9007199254740992 in Ht.
  assert (Hd : - 104249992 <= Day t <= 104249992).
  { unfold Day, msPerDay. Z.div_mod_to_equations. lia. }
  unfold DayFromYear in H. Z.div_mod_to_equations. lia.
Qed.

(** [MakeDay] on the year and the month of [t]: the day of [t] moved to day
    [k] of the month. *)
Lemma MakeDay_of_month (t k : Z) :
  0 <= k < 2 ^ 53 ->
  MakeDay (YearFromTime t) (MonthFromTime t) (of_Z k)
  = Some (Day t - DateFromTime t + k).
Proof.
  intros Hk. pose proof (Calendar.MonthFromTime_range t) as Hm.
  unfold MakeDay. rewrite Calendar.to_integer_of_Z by lia.
  replace (MonthFromTime t / 12) with 0 by (symmetry; apply Z.div_small; lia).
  rewrite Z.mod_small, Z.add_0_r by lia.
  fold (InLeapYear t). rewrite (Day_of_fields t). f_equal. lia.
Qed.

Lemma strict_eq_nan_r (x : number) : strict_eq x NaN = false.
Proof. destruct x as [[] | [] | | [] m e]; reflexivity. Qed.

Lemma isSameDay_run (h : Host) (a b : date_ref) (w : World) :
  local_range h (nth a (dates w) None) -> local_range h (nth b (dates w) None) ->
  isSameDay h a b w = (same_day h (nth a (dates w) None) (nth b (dates w) None), w).
Proof.
  intros Ha Hb.
  unfold isSameDay, getFullYear, getMonth, getDate, thisTimeValue, ret, bind.
  cbv beta iota.
  destruct (nth a (dates w) None) as [ta |] eqn:Ea;
    [|reflexivity].
  destruct (nth b (dates w) None) as [tb |] eqn:Eb;
    [|rewrite strict_eq_nan_r; reflexivity].
  cbn [same_day local_range] in *.
  pose proof (YearFromTime_bound _ Ha) as Hya.
  pose proof (YearFromTime_bound _ Hb) as Hyb.
  pose proof (Calendar.MonthFromTime_range (LocalTime h ta)) as Hma.
  pose proof (Calendar.MonthFromTime_range (LocalTime h tb)) as Hmb.
  pose proof (Calendar.DateFromTime_range (LocalTime h ta)) as Hda.
  pose proof (Calendar.DateFromTime_range (LocalTime h tb)) as Hdb.
  assert (H53 : 2 ^ 53 = 9007199254740992) by reflexivity.
  rewrite <- same_fields.
  rewrite of_Z_eqb_signed by lia.
  destruct (YearFromTime (LocalTime h ta) =? YearFromTime (LocalTime h tb));
    [|reflexivity].
  cbv beta iota. rewrite Ea, Eb. rewrite of_Z_eqb_signed by lia.
  destruct (MonthFromTime (LocalTime h ta) =? MonthFromTime (LocalTime h tb));
    [|reflexivity].
  cbv beta iota. rewrite Ea, Eb. rewrite of_Z_eqb_signed by lia. reflexivity.
Qed.

Lemma startOfDay_run (h : Host) (d : date_ref) (w : World) :
  startOfDay h d w
  = (length (dates w),
     {| clock := clock w;
        dates := dates w ++ [start_value h (nth d (dates w) None)] |}).
Proof.
  unfold startOfDay, getFullYear, getMonth, getDate, thisTimeValue, ret,
    Date_of_fields, alloc, start_value, bind.
  cbv beta iota.
  destruct (nth d (dates w) None) as [t |]; reflexivity.
Qed.

Lemma MakeFullYear_out (y : Z) : ~ (0 <= y <= 99) -> MakeFullYear y = y.
Proof.
  intros H. unfold MakeFullYear.
  destruct (Z.leb_spec 0 y), (Z.leb_spec y 99); cbn [andb]; try reflexivity. lia.
Qed.

Lemma MakeFullYear_in (y : Z) : 0 <= y <= 99 -> MakeFullYear y = 1900 + y.
Proof.
  intros H. unfold MakeFullYear.
  destruct (Z.leb_spec 0 y), (Z.leb_spec y 99); cbn [andb]; try reflexivity; lia.
Qed.

Lemma start_value_midnight (h : Host) (t : Z) :
  Z.abs (LocalTime h t) < 2 ^ 53 ->
  ~ (0 <= YearFromTime (LocalTime h t) <= 99) ->
  start_value h (Some t) = TimeClip (UTC h (Day (LocalTime h t) * msPerDay)).
Proof.
  intros Hr Hy. unfold start_value, Date_fields_value.
  pose proof (YearFromTime_bound _ Hr) as Hyb.
  pose proof (Calendar.MonthFromTime_range (LocalTime h t)) as Hm.
  pose proof (Calendar.DateFromTime_range (LocalTime h t)) as Hd.
  assert (H53 : 2 ^ 53 = 9007199254740992) by reflexivity.
  rewrite to_integer_of_Z_signed by lia.
  rewrite Calendar.to_integer_of_Z by lia.
  rewrite MakeFullYear_out by assumption.
  rewrite MakeDay_of_month by lia.
  unfold MakeDate. do 2 f_equal. lia.
Qed.

Lemma DaysBeforeMonth_shift (m l l' : Z) :
  0 <= m <= 11 -> (l = 0 \/ l = 1) -> (l' = 0 \/ l' = 1) ->
  DaysBeforeMonth m l - 1 <= DaysBeforeMonth m l' <= DaysBeforeMonth m l + 1
  /\ (m <= 1 -> DaysBeforeMonth m l' = DaysBeforeMonth m l).
Proof.
  intros Hm Hl Hl'.
  assert (Hc : m = 0 \/ m = 1 \/ m = 2 \/ m = 3 \/ m = 4 \/ m = 5 \/ m = 6
               \/ m = 7 \/ m = 8 \/ m = 9 \/ m = 10 \/ m = 11) by lia.
  repeat (destruct Hc as [-> | Hc]; [cbn [DaysBeforeMonth]; lia|]).
  subst m. cbn [DaysBeforeMonth]. lia.
Qed.

Lemma fields_within_year (t l' : Z) :
  l' = 0 \/ l' = 1 ->
  0 <= DaysBeforeMonth (MonthFromTime t) l' + DateFromTime t - 1 < 365 + l'.
Proof.
  intros Hl'.
  pose proof (Calendar.DayWithinYear_range t) as Hw.
  pose proof (Calendar.InLeapYear_range t) as Hl.
  unfold DateFromTime, MonthFromTime. cbv zeta.
  Calendar.month_cases; cbn [DaysBeforeMonth]; lia.
Qed.

Lemma start_value_two_digit (h : Host) (t : Z) :
  0 <= YearFromTime (LocalTime h t) <= 99 ->
  exists day,
    start_value h (Some t) = TimeClip (UTC h (day * msPerDay))
    /\ YearFromTime (day * msPerDay) = 1900 + YearFromTime (LocalTime h t)
    /\ day <> Day (LocalTime h t).
Proof.
  intros Hy. unfold start_value, Date_fields_value.
  pose proof (Calendar.MonthFromTime_range (LocalTime h t)) as Hm.
  pose proof (Calendar.DateFromTime_range (LocalTime h t)) as Hd.
  assert (H53 : 2 ^ 53 = 9007199254740992) by reflexivity.
  rewrite !Calendar.to_integer_of_Z by lia.
  rewrite MakeFullYear_in by assumption.
  unfold MakeDay. rewrite Calendar.to_integer_of_Z by lia.
  replace (MonthFromTime (LocalTime h t) / 12) with 0
    by (symmetry; apply Z.div_small; lia).
  rewrite Z.mod_small, Z.add_0_r by lia.
  set (Y := 1900 + YearFromTime (LocalTime h t)).
  set (l' := if DaysInYear Y =? 366 then 1 else 0).
  assert (Hl' : l' = 0 \/ l' = 1) by (unfold l'; destruct (_ =? 366); auto).
  assert (Hleap : DaysInYear Y = 365 + l').
  { unfold l', DaysInYear. destruct (_ && _); reflexivity. }
  pose proof (fields_within_year (LocalTime h t) l' Hl') as Hin.
  assert (HY : YearFromTime
                 ((DayFromYear Y + DaysBeforeMonth (MonthFromTime (LocalTime h t)) l'
                   + DateFromTime (LocalTime h t) - 1) * msPerDay) = Y).
  { apply Calendar.YearFromTime_unique.
    unfold Day, msPerDay. rewrite !Z.div_mul by lia.
    rewrite Calendar.DayFromYear_succ, Hleap. lia. }
  eexists. split; [|split].
  - unfold MakeDate. rewrite Z.add_0_r. reflexivity.
  - exact HY.
  - intros Heq.
    assert (HD : Day ((DayFromYear Y + DaysBeforeMonth (MonthFromTime (LocalTime h t)) l'
                       + DateFromTime (LocalTime h t) - 1) * msPerDay)
                 = Day (LocalTime h t))
      by (unfold Day at 1; unfold msPerDay at 1 2; rewrite Z.div_mul by lia; exact Heq).
    destruct (fields_of_Day _ _ HD) as (HYe & _ & _).
    rewrite HY in HYe. unfold Y in HYe. lia.
Qed.

Lemma sub_date_1 (d : Z) : 1 <= d <= 31 -> sub (of_Z d) lit_1 = of_Z (d - 1).
Proof.
  intros Hd.
  assert (Hc : d = 1 \/ d = 2 \/ d = 3 \/ d = 4 \/ d = 5 \/ d = 6 \/ d = 7 \/ d = 8
               \/ d = 9 \/ d = 10 \/ d = 11 \/ d = 12 \/ d = 13 \/ d = 14 \/ d = 15
               \/ d = 16 \/ d = 17 \/ d = 18 \/ d = 19 \/ d = 20 \/ d = 21 \/ d = 22
               \/ d = 23 \/ d = 24 \/ d = 25 \/ d = 26 \/ d = 27 \/ d = 28 \/ d = 29
               \/ d = 30 \/ d = 31) by lia.
  repeat (destruct Hc as [-> | Hc]; [vm_compute; reflexivity|]).
  subst d. vm_compute. reflexivity.
Qed.

Lemma nth_Some_lt {A} (l : list (option A)) (d : nat) (x : A) :
  nth d l None = Some x -> (d < length l)%nat.
Proof.
  intros H. destruct (Nat.lt_ge_cases d (length l)) as [|Hge]; [assumption|].
  rewrite nth_overflow in H by assumption. discriminate.
Qed.

(** X17: [isSameDay(a, b)] is true exactly when the two Dates are valid
    and read, in local time, as the same calendar day; it leaves every
    Date as it was and does not depend on the order of its arguments.
    An Invalid Date is the same day as no Date, itself included. *)
Theorem isSameDay_compares_local_days (h : Host) (a b : date_ref) (w : World) :
  local_range h (nth a (dates w) None) -> local_range h (nth b (dates w) None) ->
  isSameDay h a b w = (same_day h (nth a (dates w) None) (nth b (dates w) None), w)
  /\ fst (isSameDay h a b w) = fst (isSameDay h b a w)
  /\ (nth a (dates w) None = None -> fst (isSameDay h a a w) = false).
Proof.
  intros Ha Hb. rewrite !isSameDay_run by assumption. cbn [fst].
  split; [reflexivity|]. split.
  - destruct (nth a (dates w) None), (nth b (dates w) None); cbn [same_day];
      try reflexivity. apply Z.eqb_sym.
  - intros ->. reflexivity.
Qed.

Lemma isSameDay_compares_local_days_witness :
  let w := {| clock := 0; dates := [Some 1706608800000; Some 1706655600000] |} in
  isSameDay dst_host 0%nat 1%nat w
  = (same_day dst_host (nth 0%nat (dates w) None) (nth 1%nat (dates w) None), w)
  /\ fst (isSameDay dst_host 0%nat 1%nat w) = fst (isSameDay dst_host 1%nat 0%nat w)
  /\ (nth 0%nat (dates w) None = None -> fst (isSameDay dst_host 0%nat 0%nat w) = false).
Proof.
  apply (isSameDay_compares_local_days dst_host 0%nat 1%nat
           {| clock := 0; dates := [Some 1706608800000; Some 1706655600000] |}).
  - vm_compute. reflexivity.
  - vm_compute. reflexivity.
Defined.

(** X18: [startOfDay(d)] returns a new Date at midnight, local time, of
    the day [d] reads as in local time, and leaves [d] as it was; this
    for every valid [d] whose local year is not one of 0 to 99. *)
Theorem startOfDay_is_local_midnight (h : Host) (d : date_ref) (w : World) (t : Z) :
  nth d (dates w) None = Some t ->
  Z.abs (LocalTime h t) < 2 ^ 53 ->
  ~ (0 <= YearFromTime (LocalTime h t) <= 99) ->
  nth (fst (startOfDay h d w)) (dates (snd (startOfDay h d w))) None
  = TimeClip (UTC h (Day (LocalTime h t) * msPerDay))
  /\ nth d (dates (snd (startOfDay h d w))) None = Some t.
Proof.
  intros Ht Hr Hy. rewrite startOfDay_run. cbn [fst snd dates].
  rewrite Srs.nth_length, Ht, start_value_midnight by assumption.
  split; [reflexivity|].
  rewrite app_nth1 by (apply (nth_Some_lt _ _ t), Ht). exact Ht.
Qed.

Lemma startOfDay_is_local_midnight_witness :
  let w := {| clock := 0; dates := [Some 1711792800000] |} in
  nth (fst (startOfDay dst_host 0%nat w)) (dates (snd (startOfDay dst_host 0%nat w))) None
  = TimeClip (UTC dst_host (Day (LocalTime dst_host 1711792800000) * msPerDay))
  /\ nth 0%nat (dates (snd (startOfDay dst_host 0%nat w))) None = Some 1711792800000.
Proof.
  apply (startOfDay_is_local_midnight dst_host 0%nat
           {| clock := 0; dates := [Some 1711792800000] |} 1711792800000).
  - reflexivity.
  - vm_compute. reflexivity.
  - vm_compute. intros [_ H]. apply H. reflexivity.
Defined.

(** X19: for a Date whose local year [y] is one of 0 to 99,
    [startOfDay(d)] is not the day of [d]: [new Date(y, m, d)] reads such
    a year as [1900 + y], and the Date returned is midnight, local time,
    of a day of the year [1900 + y], another day than that of [d]. *)
Theorem startOfDay_two_digit_year (h : Host) (d : date_ref) (w : World) (t : Z) :
  nth d (dates w) None = Some t ->
  0 <= YearFromTime (LocalTime h t) <= 99 ->
  exists day,
    nth (fst (startOfDay h d w)) (dates (snd (startOfDay h d w))) None
    = TimeClip (UTC h (day * msPerDay))
    /\ YearFromTime (day * msPerDay) = 1900 + YearFromTime (LocalTime h t)
    /\ day <> Day (LocalTime h t).
Proof.
  intros Ht Hy. rewrite startOfDay_run. cbn [fst snd dates].
  rewrite Srs.nth_length, Ht. apply start_value_two_digit, Hy.
Qed.

Lemma startOfDay_two_digit_year_witness :
  let w := {| clock := 0; dates := [Some (- 60000000000000)] |} in
  exists day,
    nth (fst (startOfDay utc 0%nat w)) (dates (snd (startOfDay utc 0%nat w))) None
    = TimeClip (UTC utc (day * msPerDay))
    /\ YearFromTime (day * msPerDay)
       = 1900 + YearFromTime (LocalTime utc (- 60000000000000))
    /\ day <> Day (LocalTime utc (- 60000000000000)).
Proof.
  apply (startOfDay_two_digit_year utc 0%nat
           {| clock := 0; dates := [Some (- 60000000000000)] |} (- 60000000000000)).
  - reflexivity.
  - vm_compute. split; discriminate.
Defined.

Lemma Day_mul (k : Z) : Day (k * msPerDay) = k.
Proof. unfold Day, msPerDay. apply Z.div_mul. lia. Qed.

Lemma TimeWithinDay_mul (k : Z) : TimeWithinDay (k * msPerDay) = 0.
Proof. unfold TimeWithinDay, msPerDay. apply Z.mod_mul. lia. Qed.

Lemma Day_bounds (t : Z) : Day t * msPerDay <= t < Day t * msPerDay + msPerDay.
Proof. unfold Day, msPerDay. Z.div_mod_to_equations. lia. Qed.

Lemma year_after_1969 (t : Z) : - msPerDay <= t -> 1969 <= YearFromTime t.
Proof.
  intros Ht. pose proof (Calendar.YearFromTime_spec t) as [_ H].
  destruct (Z.le_gt_cases 1969 (YearFromTime t)) as [|Hlt]; [assumption|].
  pose proof (Calendar.DayFromYear_mono (YearFromTime t + 1) 1969 ltac:(lia)) as Hm.
  change (DayFromYear 1969) with (-365) in Hm.
  pose proof (Day_bounds t). unfold msPerDay in *. lia.
Qed.

(** X20: on a host whose offset is constant and below a day, with the
    clock after 1970, [formatDayHeading(d)] is 'Today' when [d] reads as
    the local calendar day of the clock, 'Yesterday' when it reads as
    the day before, across the ends of months and years too, and else
    what the locale prints for [d]; for an Invalid Date it is what the
    locale prints for one. *)
Theorem formatDayHeading_labels (h : Host) (off : Z) (l : Locale) (d : date_ref)
    (w : World) (tv : option Z) :
  fixed_offset h off -> Z.abs off <= msPerDay ->
  0 <= clock w <= 8640000000000000 ->
  (d < length (dates w))%nat -> nth d (dates w) None = tv -> local_range h tv ->
  fst (formatDayHeading h l d w)
  = match tv with
    | Some td =>
        if Day (td + off) =? Day (clock w + off) then "Today"%string
        else if Day (td + off) =? Day (clock w + off) - 1 then "Yesterday"%string
        else toLocaleDateString l (Some td)
    | None => toLocaleDateString l None
    end.
Proof.
  intros Hfix Hoff Hc Hd Htv Hr.
  set (c := clock w) in *. set (l0 := dates w) in *.
  set (Ln := c + off).
  pose proof (Day_bounds Ln) as HLn.
  unfold msPerDay in Hoff, HLn.
  assert (H53 : 2 ^ 53 = 9007199254740992) by reflexivity.
  (* today *)
  assert (Htoday : start_value h (Some c) = Some (Day Ln * msPerDay - off)).
  { rewrite start_value_midnight.
    - unfold UTC, LocalTime. rewrite !Hfix. fold Ln.
      apply TimeClip_Some. unfold msPerDay, Ln in *. lia.
    - unfold LocalTime. rewrite Hfix. fold Ln. unfold Ln. lia.
    - unfold LocalTime. rewrite Hfix. fold Ln.
      pose proof (year_after_1969 Ln ltac:(unfold msPerDay, Ln; lia)). lia. }
  set (t1 := Day Ln * msPerDay - off) in *.
  assert (HLt : LocalTime h t1 = Day Ln * msPerDay)
    by (unfold LocalTime, t1; rewrite Hfix; lia).
  (* yesterday *)
  assert (Hyest : setDate_value h t1 (sub (of_Z (DateFromTime (LocalTime h t1))) lit_1)
                  = Some ((Day Ln - 1) * msPerDay - off)).
  { rewrite sub_date_1 by apply Calendar.DateFromTime_range.
    unfold setDate_value.
    pose proof (Calendar.DateFromTime_range (LocalTime h t1)).
    rewrite MakeDay_of_month by lia.
    rewrite HLt, Day_mul, TimeWithinDay_mul. unfold UTC, MakeDate. rewrite Hfix.
    replace ((Day Ln - DateFromTime (Day Ln * msPerDay)
              + (DateFromTime (Day Ln * msPerDay) - 1)) * msPerDay + 0 - off)
      with ((Day Ln - 1) * msPerDay - off) by lia.
    apply TimeClip_Some. unfold msPerDay, Ln in *. lia. }
  set (ty := (Day Ln - 1) * msPerDay - off) in *.
  unfold formatDayHeading, bind, Date_new, alloc. cbn [clock dates].
  fold c l0.
  rewrite startOfDay_run. cbn [clock dates]. rewrite Srs.nth_length, Htoday.
  unfold Date_copy, bind, thisTimeValue, alloc. cbn [clock dates].
  rewrite Srs.nth_length.
  unfold getDate, bind, thisTimeValue, ret. cbn [clock dates].
  set (l1 := l0 ++ [Some c]).
  assert (Hl1 : forall x y, nth (length l1) ((l1 ++ [x]) ++ [y]) None = x).
  { intros x y. rewrite app_nth1 by (rewrite length_app; cbn [length]; lia).
    apply Srs.nth_length. }
  assert (Hd3 : forall x y, nth d ((l1 ++ [x]) ++ [y]) None = tv).
  { intros x y. unfold l1.
    rewrite !app_nth1 by (rewrite ?length_app; cbn [length]; lia). exact Htv. }
  rewrite Hl1.
  unfold setDate, bind, thisTimeValue, setTimeValue, ret. cbn [clock dates].
  rewrite Srs.nth_length. cbv beta iota. cbn [clock dates].
  rewrite Hyest, Srs.list_set_length.
  assert (Hrt : local_range h (Some t1)).
  { cbn [local_range]. rewrite HLt. unfold msPerDay, Ln in *. lia. }
  assert (Hry : local_range h (Some ty)).
  { cbn [local_range]. unfold LocalTime, ty. rewrite Hfix. unfold msPerDay, Ln in *. lia. }
  rewrite isSameDay_run by (cbn [dates]; rewrite ?Hl1, ?Hd3; assumption).
  cbn [dates]. rewrite Hl1, Hd3.
  assert (Hst : same_day h tv (Some t1)
                = match tv with Some td => Day (td + off) =? Day Ln | None => false end).
  { destruct tv as [td |]; [|reflexivity]. cbn [same_day].
    rewrite HLt, Day_mul. unfold LocalTime. rewrite Hfix. reflexivity. }
  assert (Hsy : same_day h tv (Some ty)
                = match tv with Some td => Day (td + off) =? Day Ln - 1 | None => false end).
  { destruct tv as [td |]; [|reflexivity]. cbn [same_day].
    unfold LocalTime. rewrite !Hfix. unfold ty.
    replace ((Day Ln - 1) * msPerDay - off + off) with ((Day Ln - 1) * msPerDay) by lia.
    rewrite Day_mul. reflexivity. }
  rewrite Hst.
  destruct tv as [td |].
  - destruct (Day (td + off) =? Day Ln); [reflexivity|].
    rewrite isSameDay_run
      by (cbn [dates]; rewrite ?Srs.nth_length, ?Hd3; assumption).
    cbn [dates]. rewrite Srs.nth_length, Hd3, Hsy.
    destruct (Day (td + off) =? Day Ln - 1); cbn [fst dates]; [reflexivity|].
    rewrite Hd3. reflexivity.
  - rewrite isSameDay_run
      by (cbn [dates]; rewrite ?Srs.nth_length, ?Hd3; assumption).
    cbn [dates]. rewrite Srs.nth_length, Hd3, Hsy. cbn [fst dates].
    rewrite Hd3. reflexivity.
Qed.

Lemma formatDayHeading_labels_witness :
  let l := {| toLocaleDateString := fun _ => "Jan 1, 2024"%string |} in
  let w := {| clock := 1706608800000; dates := [Some (1706608800000 - 86400000)] |} in
  fst (formatDayHeading utc l 0%nat w)
  = if Day (1706608800000 - 86400000 + 0) =? Day (clock w + 0) then "Today"%string
    else if Day (1706608800000 - 86400000 + 0) =? Day (clock w + 0) - 1
         then "Yesterday"%string
         else toLocaleDateString l (Some (1706608800000 - 86400000)).
Proof.
  apply (formatDayHeading_labels utc 0
           {| toLocaleDateString := fun _ => "Jan 1, 2024"%string |} 0%nat
           {| clock := 1706608800000; dates := [Some (1706608800000 - 86400000)] |}
           (Some (1706608800000 - 86400000))).
  - intros t b. reflexivity.
  - vm_compute. discriminate.
  - cbn [clock]. lia.
  - cbn [dates length]. lia.
  - reflexivity.
  - vm_compute. reflexivity.
Defined.

End Headings.

(** * The timeline of the reading log *)

Module Timeline.

Import Rounding Exact Schedule Headings.

Lemma isSameDay_world (h : Host) (a b : date_ref) (w : World) :
  snd (isSameDay h a b w) = w.
Proof.
  unfold isSameDay, getFullYear, getMonth, getDate, thisTimeValue, ret, bind.
  cbv beta iota.
  destruct (strict_eq _ _); [|reflexivity]. cbv beta iota.
  destruct (strict_eq _ _); reflexivity.
Qed.

Lemma rev_cons_inv {A} (l : list A) (x : A) (r : list A) :
  rev l = x :: r -> l = rev r ++ [x].
Proof. intros H. rewrite <- (rev_involutive l), H. reflexivity. Qed.

Section Groups.

Context {E : Type} (at_ : E -> date_ref) (h : Host).

(** What a round of the loop does to the groups, whatever the Dates hold. *)
Lemma group_event_cases (groups : list (Group E)) (e : E) (w : World) :
  let r := group_event at_ h groups e w in
  snd r = snd (startOfDay h (at_ e) w)
  /\ ((fst r = groups ++ [mkGroup (length (dates w)) [e]]
       /\ (groups = []
           \/ exists rest last,
                groups = rest ++ [last]
                /\ fst (isSameDay h (day last) (length (dates w)) (snd r)) = false))
      \/ exists rest last,
           groups = rest ++ [last]
           /\ fst (isSameDay h (day last) (length (dates w)) (snd r)) = true
           /\ fst r = rest ++ [mkGroup (day last) (events last ++ [e])]).
Proof.
  cbv zeta. unfold group_event, bind. rewrite startOfDay_run. cbn [snd].
  set (w1 := {| clock := clock w; dates := _ |}).
  destruct (rev groups) as [| last r] eqn:Er.
  - split; [reflexivity|]. left. split; [reflexivity|]. left.
    destruct groups as [| g groups]; [reflexivity|].
    apply (f_equal (@length _)) in Er. rewrite length_rev in Er. discriminate.
  - apply rev_cons_inv in Er.
    pose proof (isSameDay_world h (day last) (length (dates w)) w1) as Hw.
    destruct (isSameDay h (day last) (length (dates w)) w1) as [same w2] eqn:Es.
    cbn [snd] in Hw. subst w2.
    destruct same; cbn [ret fst snd].
    + split; [reflexivity|]. right. exists (rev r), last.
      split; [assumption|]. split; [rewrite Es; reflexivity|].
      rewrite Er, removelast_last. reflexivity.
    + split; [reflexivity|]. left. split; [reflexivity|]. right.
      exists (rev r), last. split; [assumption|]. rewrite Es. reflexivity.
Qed.

Lemma group_event_concat (groups : list (Group E)) (e : E) (w : World) :
  concat (map events (fst (group_event at_ h groups e w)))
  = concat (map events groups) ++ [e].
Proof.
  destruct (group_event_cases groups e w) as [_ [[-> _] | (rest & last & -> & _ & ->)]];
    rewrite !map_app, !concat_app; cbn [map concat events];
    rewrite ?app_nil_r, ?app_assoc; reflexivity.
Qed.

Lemma group_event_nonempty (groups : list (Group E)) (e : E) (w : World) :
  Forall (fun g => events g <> []) groups ->
  Forall (fun g => events g <> []) (fst (group_event at_ h groups e w)).
Proof.
  intros H.
  destruct (group_event_cases groups e w) as [_ [[-> _] | (rest & last & -> & _ & ->)]].
  - apply Forall_app. split; [assumption|]. constructor; [discriminate | constructor].
  - apply Forall_app in H. destruct H as [H _].
    apply Forall_app. split; [assumption|].
    constructor; [|constructor]. cbn [events]. destruct (events last); discriminate.
Qed.

Lemma group_events_concat (es : list E) (groups : list (Group E)) (w : World) :
  concat (map events (fst (group_events at_ h es groups w)))
  = concat (map events groups) ++ es
  /\ (Forall (fun g => events g <> []) groups ->
      Forall (fun g => events g <> []) (fst (group_events at_ h es groups w))).
Proof.
  revert groups w. induction es as [| e rest IH]; intros groups w; cbn [group_events].
  - cbn [ret fst]. rewrite app_nil_r. auto.
  - unfold bind.
    pose proof (group_event_concat groups e w) as Hc.
    pose proof (group_event_nonempty groups e w) as Hn.
    destruct (group_event at_ h groups e w) as [groups' w']. cbn [fst] in Hc, Hn.
    destruct (IH groups' w') as [IH1 IH2]. split.
    + rewrite IH1, Hc, <- app_assoc. reflexivity.
    + intros H. apply IH2, Hn, H.
Qed.

End Groups.

(** X21: [grouped] loses no event, adds none and keeps their order: the
    events of its groups, one group after the other, are the visible
    events it was given; and no group is empty. This whatever the Dates
    of the events hold, Invalid Dates included, on any host. *)
Theorem grouped_keeps_the_events {E : Type} (at_ : E -> date_ref) (h : Host)
    (visibleEvents : list E) (w : World) :
  concat (map events (fst (grouped at_ h visibleEvents w))) = visibleEvents
  /\ Forall (fun g => events g <> []) (fst (grouped at_ h visibleEvents w)).
Proof.
  unfold grouped.
  destruct (group_events_concat at_ h visibleEvents [] w) as [H1 H2].
  split; [exact H1 | apply H2; constructor].
Qed.

Lemma start_value_fixed (h : Host) (off t : Z) :
  fixed_offset h off -> Z.abs off <= msPerDay -> 0 <= t <= 8640000000000000 ->
  start_value h (Some t) = Some (Day (t + off) * msPerDay - off)
  /\ local_range h (Some (Day (t + off) * msPerDay - off)).
Proof.
  intros Hfix Hoff Ht.
  pose proof (Day_bounds (t + off)) as HL. unfold msPerDay in Hoff, HL.
  assert (H53 : 2 ^ 53 = 9007199254740992) by reflexivity.
  split.
  - rewrite start_value_midnight.
    + unfold UTC, LocalTime. rewrite !Hfix. apply TimeClip_Some. unfold msPerDay. lia.
    + unfold LocalTime. rewrite Hfix. lia.
    + unfold LocalTime. rewrite Hfix.
      pose proof (year_after_1969 (t + off) ltac:(unfold msPerDay; lia)). lia.
  - cbn [local_range]. unfold LocalTime. rewrite Hfix. unfold msPerDay. lia.
Qed.

Lemma same_day_midnights (h : Host) (off k1 k2 : Z) :
  fixed_offset h off ->
  same_day h (Some (k1 * msPerDay - off)) (Some (k2 * msPerDay - off)) = (k1 =? k2).
Proof.
  intros Hfix. cbn [same_day]. unfold LocalTime. rewrite !Hfix.
  replace (k1 * msPerDay - off + off) with (k1 * msPerDay) by lia.
  replace (k2 * msPerDay - off + off) with (k2 * msPerDay) by lia.
  rewrite !Day_mul. reflexivity.
Qed.

Section Days.

Context {E : Type} (at_ : E -> date_ref) (h : Host) (off : Z).
Context (Hfix : fixed_offset h off) (Hoff : Z.abs off <= msPerDay).
Context (w : World).

Lemma group_event_days (groups : list (Group E)) (e : E) (w1 : World) (t : Z)
    (ext : list (option Z)) :
  dates w1 = dates w ++ ext ->
  nth (at_ e) (dates w) None = Some t -> 0 <= t <= 8640000000000000 ->
  (forall g, In g groups ->
     group_is_day at_ h off w w1 g /\ local_range h (nth (day g) (dates w1) None)) ->
  neighbours_differ w1 groups ->
  dates (snd (group_event at_ h groups e w1))
  = dates w ++ (ext ++ [Some (Day (t + off) * msPerDay - off)])
  /\ (forall g, In g (fst (group_event at_ h groups e w1)) ->
        group_is_day at_ h off w (snd (group_event at_ h groups e w1)) g
        /\ local_range h (nth (day g) (dates (snd (group_event at_ h groups e w1))) None))
  /\ neighbours_differ (snd (group_event at_ h groups e w1))
       (fst (group_event at_ h groups e w1)).
Proof.
  intros Hext Ht Htr Hok Hnb.
  destruct (start_value_fixed h off t Hfix Hoff Htr) as [Hsv Hkr].
  set (ke := Day (t + off)) in *.
  assert (Ht1 : nth (at_ e) (dates w1) None = Some t).
  { rewrite Hext, app_nth1 by (apply (nth_Some_lt _ _ t), Ht). exact Ht. }
  destruct (group_event_cases at_ h groups e w1) as [Hw Hcases]. cbv zeta in Hw, Hcases.
  rewrite startOfDay_run in Hw. cbn [snd] in Hw. rewrite Ht1, Hsv in Hw.
  set (r := group_event at_ h groups e w1) in *.
  assert (Hd2 : dates (snd r) = dates w1 ++ [Some (ke * msPerDay - off)])
    by (rewrite Hw; reflexivity).
  assert (Hold : forall g, In g groups ->
            nth (day g) (dates (snd r)) None = nth (day g) (dates w1) None).
  { intros g Hg. destruct (Hok g Hg) as [(k & Hk & _) _].
    rewrite Hd2, app_nth1 by (apply (nth_Some_lt _ _ _ Hk)). reflexivity. }
  assert (Hnew : nth (length (dates w1)) (dates (snd r)) None = Some (ke * msPerDay - off))
    by (rewrite Hd2; apply Srs.nth_length).
  assert (Hle : local_day at_ h w e = Some ke).
  { unfold local_day. rewrite Ht. unfold LocalTime. rewrite Hfix. reflexivity. }
  assert (Hkeep : forall g, In g groups ->
            group_is_day at_ h off w (snd r) g
            /\ local_range h (nth (day g) (dates (snd r)) None)).
  { intros g Hg. destruct (Hok g Hg) as [(k & Hk & Hev) Hr].
    rewrite (Hold g Hg). split; [|assumption].
    exists k. rewrite (Hold g Hg). split; assumption. }
  assert (Hsame : forall last, In last groups ->
            exists k, nth (day last) (dates w1) None = Some (k * msPerDay - off)
                      /\ (forall e', In e' (events last) -> local_day at_ h w e' = Some k)
                      /\ fst (isSameDay h (day last) (length (dates w1)) (snd r))
                         = (k =? ke)).
  { intros last Hl. destruct (Hok last Hl) as [(k & Hk & Hev) Hr].
    exists k. split; [assumption|]. split; [assumption|].
    rewrite isSameDay_run
      by (rewrite ?Hnew, ?(Hold last Hl), ?Hk; try assumption; rewrite <- Hk; assumption).
    cbn [fst]. rewrite Hnew, (Hold last Hl), Hk. apply same_day_midnights, Hfix. }
  assert (Hnb2 : forall i d1 d2,
            nth_error (map day groups) i = Some d1 ->
            nth_error (map day groups) (S i) = Some d2 ->
            nth d1 (dates (snd r)) None <> nth d2 (dates (snd r)) None).
  { intros i d1 d2 H1 H2.
    pose proof (nth_error_In _ _ H1) as I1. pose proof (nth_error_In _ _ H2) as I2.
    apply in_map_iff in I1, I2.
    destruct I1 as (g1 & <- & I1). destruct I2 as (g2 & <- & I2).
    rewrite (Hold g1 I1), (Hold g2 I2). apply (Hnb i); assumption. }
  split; [rewrite Hd2, Hext, <- app_assoc; reflexivity|].
  destruct Hcases as [[Hr Hwhy] | (rest & last & Hg & Hs & Hr)]; rewrite Hr.
  - (* a new group *)
    split.
    + intros g Hg. apply in_app_or in Hg. destruct Hg as [Hg | [<- | []]].
      * apply Hkeep, Hg.
      * cbn [day]. rewrite Hnew. split; [|assumption].
        exists ke. cbn [day events]. split; [assumption|].
        intros e' [<- | []]. assumption.
    + intros i d1 d2 H1 H2. rewrite map_app in H1, H2. cbn [map day] in H1, H2.
      destruct (Nat.lt_ge_cases (S i) (length (map day groups))) as [Hlt | Hge].
      * rewrite nth_error_app1 in H1, H2 by lia. apply (Hnb2 i); assumption.
      * destruct Hwhy as [-> | (rest & last & Hg & Hs)].
        { destruct i; discriminate. }
        assert (Hlen : length (map day groups) = S (length rest))
          by (rewrite Hg, length_map, length_app; cbn [length]; lia).
        rewrite nth_error_app2 in H2 by lia.
        destruct (S i - length (map day groups))%nat as [| j] eqn:Hj;
          [|destruct j; discriminate].
        injection H2 as <-.
        assert (Hi : i = length rest) by lia. subst i.
        rewrite nth_error_app1 in H1 by lia.
        rewrite Hg, map_app in H1. cbn [map] in H1.
        rewrite nth_error_app2 in H1 by (rewrite length_map; lia).
        rewrite length_map, Nat.sub_diag in H1. injection H1 as <-.
        assert (Hl : In last groups) by (rewrite Hg; apply in_or_app; right; left; reflexivity).
        destruct (Hsame last Hl) as (k & Hk & _ & Hb).
        rewrite Hs in Hb. symmetry in Hb. apply Z.eqb_neq in Hb.
        rewrite (Hold last Hl), Hk, Hnew. intros [= Heq]. unfold msPerDay in Heq. lia.
  - (* the event joins the last group *)
    assert (Hl : In last groups) by (rewrite Hg; apply in_or_app; right; left; reflexivity).
    destruct (Hsame last Hl) as (k & Hk & Hev & Hb).
    rewrite Hs in Hb. symmetry in Hb. apply Z.eqb_eq in Hb. subst k.
    split.
    + intros g Hin. apply in_app_or in Hin. destruct Hin as [Hin | [<- | []]].
      * apply Hkeep. rewrite Hg. apply in_or_app. left. assumption.
      * cbn [day]. destruct (Hkeep last Hl) as [_ Hrl]. split; [|assumption].
        exists ke. cbn [day events]. rewrite (Hold last Hl). split; [assumption|].
        intros e' He'. apply in_app_or in He'. destruct He' as [He' | [<- | []]];
          [apply Hev, He' | assumption].
    + intros i d1 d2 H1 H2. apply (Hnb2 i).
      * rewrite Hg. rewrite map_app in *. exact H1.
      * rewrite Hg. rewrite map_app in *. exact H2.
Qed.

Lemma group_events_days (es : list E) (groups : list (Group E)) (w1 : World)
    (ext : list (option Z)) :
  dates w1 = dates w ++ ext ->
  (forall e, In e es ->
     exists t, nth (at_ e) (dates w) None = Some t /\ 0 <= t <= 8640000000000000) ->
  (forall g, In g groups ->
     group_is_day at_ h off w w1 g /\ local_range h (nth (day g) (dates w1) None)) ->
  neighbours_differ w1 groups ->
  (forall g, In g (fst (group_events at_ h es groups w1)) ->
     group_is_day at_ h off w (snd (group_events at_ h es groups w1)) g)
  /\ neighbours_differ (snd (group_events at_ h es groups w1))
       (fst (group_events at_ h es groups w1)).
Proof.
  revert groups w1 ext. induction es as [| e rest IH]; intros groups w1 ext Hext Hes Hok Hnb;
    cbn [group_events].
  - cbn [ret fst snd]. split; [|assumption]. intros g Hg. apply Hok, Hg.
  - unfold bind.
    destruct (Hes e (or_introl eq_refl)) as (t & Ht & Htr).
    pose proof (group_event_days groups e w1 t ext Hext Ht Htr Hok Hnb) as (H1 & H2 & H3).
    destruct (group_event at_ h groups e w1) as [groups' w2]. cbn [fst snd] in *.
    apply (IH groups' w2 _ H1); try assumption.
    intros e' He'. apply Hes. right. assumption.
Qed.

End Days.

(** X22: on a host whose offset is constant and at most a day, for
    events dated from 1970 on, every group of [grouped] is one local
    calendar day: its Date is midnight, local time, of a day [k], and
    all its events read as day [k]; and the Dates of two groups that
    follow one another are different, so a run of events of one day is
    never split. *)
Theorem grouped_by_local_day {E : Type} (at_ : E -> date_ref) (h : Host) (off : Z)
    (visibleEvents : list E) (w : World) :
  fixed_offset h off -> Z.abs off <= msPerDay ->
  (forall e, In e visibleEvents ->
     exists t, nth (at_ e) (dates w) None = Some t /\ 0 <= t <= 8640000000000000) ->
  (forall g, In g (fst (grouped at_ h visibleEvents w)) ->
     group_is_day at_ h off w (snd (grouped at_ h visibleEvents w)) g)
  /\ neighbours_differ (snd (grouped at_ h visibleEvents w))
       (fst (grouped at_ h visibleEvents w)).
Proof.
  intros Hfix Hoff Hes. unfold grouped.
  apply (group_events_days at_ h off Hfix Hoff w visibleEvents [] w []).
  - rewrite app_nil_r. reflexivity.
  - assumption.
  - intros g [].
  - intros i d1 d2 H. destruct i; discriminate.
Qed.

Lemma grouped_by_local_day_witness :
  let w := {| clock := 0; dates := [Some 1706608800000; Some 1706612400000;
                                    Some 1706500000000] |} in
  (forall g, In g (fst (grouped (fun e : nat => e) utc [0%nat; 1%nat; 2%nat] w)) ->
     group_is_day (fun e : nat => e) utc 0 w
       (snd (grouped (fun e : nat => e) utc [0%nat; 1%nat; 2%nat] w)) g)
  /\ neighbours_differ (snd (grouped (fun e : nat => e) utc [0%nat; 1%nat; 2%nat] w))
       (fst (grouped (fun e : nat => e) utc [0%nat; 1%nat; 2%nat] w)).
Proof.
  apply (grouped_by_local_day (fun e : nat => e) utc 0 [0%nat; 1%nat; 2%nat]
           {| clock := 0; dates := [Some 1706608800000; Some 1706612400000;
                                    Some 1706500000000] |}).
  - intros t b. reflexivity.
  - vm_compute. discriminate.
  - intros e [<- | [<- | [<- | []]]]; eexists; (split; [reflexivity | lia]).
Defined.

Lemma StronglySorted_snoc {A} (R : A -> A -> Prop) (l : list A) (x : A) :
  StronglySorted R l -> (forall a, In a l -> R a x) -> StronglySorted R (l ++ [x]).
Proof.
  induction 1 as [| a l Hs IH Ha]; intros Hx; cbn [app].
  - constructor; constructor.
  - constructor.
    + apply IH. intros b Hb. apply Hx. right. assumption.
    + apply Forall_app. split; [assumption|].
      constructor; [apply Hx; left; reflexivity | constructor].
Qed.

Lemma StronglySorted_last {A} (R : A -> A -> Prop) (l : list A) (x : A) :
  StronglySorted R (l ++ [x]) -> forall a, In a l -> R a x.
Proof.
  induction l as [| b l IH]; intros Hs a Ha; [destruct Ha|].
  cbn [app] in Hs. inversion Hs as [| ? ? Hs' Hb]; subst.
  destruct Ha as [<- | Ha].
  - rewrite Forall_forall in Hb. apply Hb. apply in_or_app. right. left. reflexivity.
  - apply IH; assumption.
Qed.

Section Sorted.

Context {E : Type} (at_ : E -> date_ref) (h : Host) (off : Z).
Context (Hfix : fixed_offset h off) (Hoff : Z.abs off <= msPerDay).
Context (w : World) (time : E -> Z).

Lemma group_event_sorted (groups : list (Group E)) (e : E) (w1 : World)
    (ext : list (option Z)) (ts : list Z) :
  dates w1 = dates w ++ ext ->
  nth (at_ e) (dates w) None = Some (time e) -> 0 <= time e <= 8640000000000000 ->
  (forall g, In g groups ->
     group_is_day at_ h off w w1 g /\ local_range h (nth (day g) (dates w1) None)) ->
  neighbours_differ w1 groups ->
  map (fun g => nth (day g) (dates w1) None) groups = map Some ts ->
  StronglySorted (fun a b => b < a) ts ->
  (forall a, In a ts -> Day (time e + off) * msPerDay - off <= a) ->
  exists ts',
    map (fun g => nth (day g) (dates (snd (group_event at_ h groups e w1))) None)
      (fst (group_event at_ h groups e w1)) = map Some ts'
    /\ StronglySorted (fun a b => b < a) ts'
    /\ (forall a, In a ts' -> In a ts \/ a = Day (time e + off) * msPerDay - off).
Proof.
  intros Hext Ht Htr Hok Hnb Hts Hs Hlo.
  pose proof (group_event_days at_ h off Hfix Hoff w groups e w1 (time e) ext
                Hext Ht Htr Hok Hnb) as (H1 & H2 & H3).
  destruct (group_event_cases at_ h groups e w1) as [_ Hcases]. cbv zeta in Hcases.
  set (r := group_event at_ h groups e w1) in *.
  set (x := Day (time e + off) * msPerDay - off) in *.
  assert (Hd2 : dates (snd r) = dates w1 ++ [Some x])
    by (rewrite H1, Hext, <- app_assoc; reflexivity).
  assert (Hold : forall g, In g groups ->
            nth (day g) (dates (snd r)) None = nth (day g) (dates w1) None).
  { intros g Hg. destruct (Hok g Hg) as [(k & Hk & _) _].
    rewrite Hd2, app_nth1 by (apply (nth_Some_lt _ _ _ Hk)). reflexivity. }
  assert (Hmap : map (fun g => nth (day g) (dates (snd r)) None) groups = map Some ts).
  { rewrite <- Hts. apply map_ext_in. intros g Hg. apply Hold, Hg. }
  destruct Hcases as [[Hr Hwhy] | (rest & last & Hg & _ & Hr)].
  - (* a new group *)
    exists (ts ++ [x]). rewrite Hr, !map_app, Hmap. cbn [map day].
    rewrite Hd2, Srs.nth_length.
    split; [reflexivity|]. split.
    + apply StronglySorted_snoc; [assumption|].
      intros a Ha.
      destruct Hwhy as [-> | (rest & last & Hg & _)];
        [destruct ts; [destruct Ha | discriminate]|].
      rewrite Hg, map_app in Hmap. cbn [map] in Hmap.
      symmetry in Hmap. apply map_eq_app in Hmap.
      destruct Hmap as (ts0 & tsl & Hts0 & Hm0 & Hml).
      destruct tsl as [| tl [| ? ?]]; try discriminate.
      cbn [map] in Hml. injection Hml as Hml.
      assert (Hne : tl <> x).
      { intros ->.
        assert (Hlen : length (map day groups) = S (length rest))
          by (rewrite Hg, length_map, length_app; cbn [length]; lia).
        apply (H3 (length rest) (day last) (length (dates w1))).
        - rewrite Hr, Hg, !map_app. cbn [map day].
          rewrite nth_error_app1 by (rewrite length_app, length_map; cbn [length]; lia).
          rewrite nth_error_app2 by (rewrite length_map; lia).
          rewrite length_map, Nat.sub_diag. reflexivity.
        - rewrite Hr, map_app. cbn [map day].
          rewrite nth_error_app2 by lia.
          rewrite Hlen, Nat.sub_diag. reflexivity.
        - rewrite <- Hml, Hd2, Srs.nth_length. reflexivity. }
      subst ts.
      pose proof (Hlo tl ltac:(apply in_or_app; right; left; reflexivity)) as Hle.
      apply in_app_or in Ha. destruct Ha as [Ha | [<- | []]]; [|lia].
      pose proof (StronglySorted_last _ _ _ Hs a Ha). cbv beta in *. lia.
    + intros a Ha. apply in_app_or in Ha. destruct Ha as [Ha | [<- | []]]; auto.
  - (* the event joins the last group *)
    exists ts. split; [|split; [assumption | auto]].
    rewrite Hr, <- Hmap, Hg, !map_app. cbn [map day]. reflexivity.
Qed.

Lemma group_events_sorted (es : list E) (groups : list (Group E)) (w1 : World)
    (ext : list (option Z)) (ts : list Z) :
  dates w1 = dates w ++ ext ->
  (forall e, In e es ->
     nth (at_ e) (dates w) None = Some (time e) /\ 0 <= time e <= 8640000000000000) ->
  StronglySorted (fun a b => time b <= time a) es ->
  (forall g, In g groups ->
     group_is_day at_ h off w w1 g /\ local_range h (nth (day g) (dates w1) None)) ->
  neighbours_differ w1 groups ->
  map (fun g => nth (day g) (dates w1) None) groups = map Some ts ->
  StronglySorted (fun a b => b < a) ts ->
  (forall a e, In a ts -> In e es -> Day (time e + off) * msPerDay - off <= a) ->
  exists ts',
    map (fun g => nth (day g) (dates (snd (group_events at_ h es groups w1))) None)
      (fst (group_events at_ h es groups w1)) = map Some ts'
    /\ StronglySorted (fun a b => b < a) ts'.
Proof.
  revert groups w1 ext ts.
  induction es as [| e rest IH]; intros groups w1 ext ts Hext Hes Hsort Hok Hnb Hts Hs Hlo;
    cbn [group_events].
  - cbn [ret fst snd]. exists ts. split; assumption.
  - unfold bind.
    destruct (Hes e (or_introl eq_refl)) as [Ht Htr].
    pose proof (group_event_days at_ h off Hfix Hoff w groups e w1 (time e) ext
                  Hext Ht Htr Hok Hnb) as (H1 & H2 & H3).
    destruct (group_event_sorted groups e w1 ext ts Hext Ht Htr Hok Hnb Hts Hs)
      as (ts' & Hts' & Hs' & Hin).
    { intros a Ha. apply (Hlo a e Ha). left. reflexivity. }
    destruct (group_event at_ h groups e w1) as [groups' w2]. cbn [fst snd] in *.
    inversion Hsort as [| ? ? Hsort' Hall]; subst.
    apply (IH groups' w2 _ ts' H1); try assumption.
    + intros e' He'. apply Hes. right. assumption.
    + intros a e' Ha He'. destruct (Hin a Ha) as [Ha' | ->].
      * apply (Hlo a e' Ha'). right. assumption.
      * rewrite Forall_forall in Hall. specialize (Hall e' He').
        assert (Day (time e' + off) <= Day (time e + off)).
        { unfold Day, msPerDay. apply Z.div_le_mono; lia. }
        unfold msPerDay. lia.
Qed.

End Sorted.

(** X26: with the visible events sorted newest first, as the timeline
    sorts them, every day appears once: on a host whose offset is
    constant and at most a day, for events dated from 1970 on, the Dates
    of the groups of [grouped] are valid and strictly decreasing from
    one group to the next. *)
Theorem grouped_days_appear_once {E : Type} (at_ : E -> date_ref) (h : Host) (off : Z)
    (time : E -> Z) (visibleEvents : list E) (w : World) :
  fixed_offset h off -> Z.abs off <= msPerDay ->
  (forall e, In e visibleEvents ->
     nth (at_ e) (dates w) None = Some (time e) /\ 0 <= time e <= 8640000000000000) ->
  StronglySorted (fun a b => time b <= time a) visibleEvents ->
  exists ts,
    map (fun g => nth (day g) (dates (snd (grouped at_ h visibleEvents w))) None)
      (fst (grouped at_ h visibleEvents w)) = map Some ts
    /\ StronglySorted (fun a b => b < a) ts.
Proof.
  intros Hfix Hoff Hes Hsort. unfold grouped.
  apply (group_events_sorted at_ h off Hfix Hoff w time visibleEvents [] w [] []).
  - rewrite app_nil_r. reflexivity.
  - assumption.
  - assumption.
  - intros g [].
  - intros i d1 d2 H. destruct i; discriminate.
  - reflexivity.
  - constructor.
  - intros a e [].
Qed.

Lemma grouped_days_appear_once_witness :
  let w := {| clock := 0; dates := [Some 1706612400000; Some 1706608800000;
                                    Some 1706500000000] |} in
  exists ts,
    map (fun g => nth (day g)
                    (dates (snd (grouped (fun e : nat => e) utc [0%nat; 1%nat; 2%nat] w)))
                    None)
      (fst (grouped (fun e : nat => e) utc [0%nat; 1%nat; 2%nat] w)) = map Some ts
    /\ StronglySorted (fun a b => b < a) ts.
Proof.
  apply (grouped_days_appear_once (fun e : nat => e) utc 0
           (fun e : nat => nth e [1706612400000; 1706608800000; 1706500000000] 0)
           [0%nat; 1%nat; 2%nat]
           {| clock := 0; dates := [Some 1706612400000; Some 1706608800000;
                                    Some 1706500000000] |}).
  - intros t b. reflexivity.
  - vm_compute. discriminate.
  - intros e [<- | [<- | [<- | []]]]; (split; [reflexivity | cbn [nth]; lia]).
  - repeat constructor; cbn [nth]; lia.
Defined.

End Timeline.

(** * The value of a datetime-local input *)

Module InputValue.

Import Rounding Exact Schedule Headings.

Lemma Number_toString_of_Z (n : Z) :
  - 2 ^ 53 < n < 2 ^ 53 ->
  Number_toString (of_Z n)
  = Some (DecimalString.NilZero.string_of_int (Z.to_int n)).
Proof.
  intros Hn. destruct (Z.eq_dec n 0) as [-> | Hnz]; [reflexivity|].
  assert (Hx : exists s m e, of_Z n = S754_finite s m e).
  { destruct (Z.lt_trichotomy n 0) as [Hneg | [-> | Hpos]]; [|lia|].
    - assert (Hn' : n = - (- n)) by lia. rewrite Hn', of_Z_neg by lia.
      unfold int_float. eauto.
    - rewrite of_Z_pos by lia. unfold int_float. eauto. }
  destruct Hx as (s & m & e & Hx).
  assert (Hi : isInteger (of_Z n) = true)
    by (apply Srs.isInteger_intro; [apply Srs.of_Z_finite; lia | apply floor_of_Z]).
  unfold Number_toString. rewrite Hx. cbv beta iota. rewrite <- Hx.
  rewrite to_integer_of_Z_signed, Hi by assumption.
  destruct (Z.ltb_spec (Z.abs n) (2 ^ 53)); [reflexivity | lia].
Qed.

Lemma forall_range (P : Z -> bool) (lo len : Z) :
  forallb P (map (fun i => lo + Z.of_nat i) (seq 0 (Z.to_nat len))) = true ->
  forall n, lo <= n < lo + len -> P n = true.
Proof.
  intros H n Hn. rewrite forallb_forall in H. apply H.
  apply in_map_iff. exists (Z.to_nat (n - lo)). split; [lia|].
  apply in_seq. lia.
Qed.

Lemma pad_two_digits (n : Z) :
  0 <= n <= 99 -> pad (of_Z n) = Some (two_digits n).
Proof.
  intros Hn. unfold pad.
  rewrite Number_toString_of_Z by (change (2 ^ 53) with 9007199254740992; lia).
  cbn [option_map]. f_equal. apply String.eqb_eq.
  apply (forall_range
           (fun n => String.eqb
                       (padStart 2 "0"%string (DecimalString.NilZero.string_of_int (Z.to_int n)))
                       (two_digits n)) 0 100); [vm_compute; reflexivity | lia].
Qed.

Lemma year_four_digits (y : Z) :
  1000 <= y <= 9999 -> Number_toString (of_Z y) = Some (four_digits y).
Proof.
  intros Hy.
  rewrite Number_toString_of_Z by (change (2 ^ 53) with 9007199254740992; lia).
  f_equal. apply String.eqb_eq.
  apply (forall_range
           (fun n => String.eqb (DecimalString.NilZero.string_of_int (Z.to_int n))
                       (four_digits n)) 1000 9000); [vm_compute; reflexivity | lia].
Qed.

Lemma year_short (y : Z) :
  0 <= y <= 999 ->
  exists s, Number_toString (of_Z y) = Some s /\ (String.length s <= 3)%nat.
Proof.
  intros Hy.
  rewrite Number_toString_of_Z by (change (2 ^ 53) with 9007199254740992; lia).
  eexists. split; [reflexivity|]. apply Nat.leb_le.
  apply (forall_range
           (fun n => (String.length (DecimalString.NilZero.string_of_int (Z.to_int n))
                      <=? 3)%nat) 0 1000); [vm_compute; reflexivity | lia].
Qed.

Lemma length_append (s1 s2 : String.string) :
  String.length (String.append s1 s2) = (String.length s1 + String.length s2)%nat.
Proof.
  induction s1 as [| c s1 IH]; cbn [String.append String.length]; [reflexivity|].
  rewrite IH. reflexivity.
Qed.

Lemma HourFromTime_range (t : Z) : 0 <= HourFromTime t <= 23.
Proof. unfold HourFromTime. pose proof (Z.mod_pos_bound (t / msPerHour) 24). lia. Qed.

Lemma MinFromTime_range (t : Z) : 0 <= MinFromTime t <= 59.
Proof. unfold MinFromTime. pose proof (Z.mod_pos_bound (t / msPerMinute) 60). lia. Qed.

Lemma toLocalDateTimeInputValue_run (h : Host) (date : date_ref) (w : World) :
  toLocalDateTimeInputValue h date w
  = (match nth date (dates w) None with
     | None => Some "NaN-NaN-NaNTNaN:NaN"%string
     | Some t =>
         let L := LocalTime h t in
         match Number_toString (of_Z (YearFromTime L)) with
         | Some yyyy =>
             Some (String.concat ""%string
                     [yyyy; "-"; two_digits (MonthFromTime L + 1); "-";
                      two_digits (DateFromTime L); "T"; two_digits (HourFromTime L); ":";
                      two_digits (MinFromTime L)]%string)
         | None => None
         end
     end, w).
Proof.
  unfold toLocalDateTimeInputValue, getFullYear, getMonth, getDate, getHours, getMinutes,
    thisTimeValue, ret, bind.
  cbv beta iota.
  destruct (nth date (dates w) None) as [t |]; [|reflexivity].
  cbv zeta.
  pose proof (Calendar.MonthFromTime_range (LocalTime h t)) as Hm.
  pose proof (Calendar.DateFromTime_range (LocalTime h t)) as Hd.
  pose proof (HourFromTime_range (LocalTime h t)) as Hh.
  pose proof (MinFromTime_range (LocalTime h t)) as Hmi.
  change lit_1 with (of_Z 1).
  rewrite add_of_Z by (change (2 ^ 53) with 9007199254740992; lia).
  rewrite !pad_two_digits by lia.
  reflexivity.
Qed.

(** X23: for a valid Date whose local year is one of 1000 to 9999,
    [toLocalDateTimeInputValue] returns the 16 characters
    YYYY-MM-DDTHH:mm: the local year in four digits, then the month
    (counted from 1), the day of the month, the hour and the minute of
    the local time, each in two digits with a zero in front where
    needed; it changes no Date. *)
Theorem toLocalDateTimeInputValue_format (h : Host) (date : date_ref) (w : World)
    (t : Z) :
  nth date (dates w) None = Some t ->
  1000 <= YearFromTime (LocalTime h t) <= 9999 ->
  toLocalDateTimeInputValue h date w
  = (Some (String.concat ""%string
             [four_digits (YearFromTime (LocalTime h t)); "-";
              two_digits (MonthFromTime (LocalTime h t) + 1); "-";
              two_digits (DateFromTime (LocalTime h t)); "T";
              two_digits (HourFromTime (LocalTime h t)); ":";
              two_digits (MinFromTime (LocalTime h t))]%string), w)
  /\ forall s, fst (toLocalDateTimeInputValue h date w) = Some s ->
               String.length s = 16%nat.
Proof.
  intros Ht Hy. rewrite toLocalDateTimeInputValue_run, Ht. cbv zeta.
  rewrite year_four_digits by assumption.
  split; [reflexivity|]. cbn [fst]. intros s [= <-]. reflexivity.
Qed.

Lemma toLocalDateTimeInputValue_format_witness :
  let w := {| clock := 0; dates := [Some 1706608800000] |} in
  toLocalDateTimeInputValue utc 0%nat w
  = (Some (String.concat ""%string
             [four_digits (YearFromTime (LocalTime utc 1706608800000)); "-";
              two_digits (MonthFromTime (LocalTime utc 1706608800000) + 1); "-";
              two_digits (DateFromTime (LocalTime utc 1706608800000)); "T";
              two_digits (HourFromTime (LocalTime utc 1706608800000)); ":";
              two_digits (MinFromTime (LocalTime utc 1706608800000))]%string), w)
  /\ forall s, fst (toLocalDateTimeInputValue utc 0%nat w) = Some s ->
               String.length s = 16%nat.
Proof.
  apply (toLocalDateTimeInputValue_format utc 0%nat
           {| clock := 0; dates := [Some 1706608800000] |} 1706608800000).
  - reflexivity.
  - vm_compute. split; discriminate.
Defined.

(** X24: for an Invalid Date [toLocalDateTimeInputValue] does not throw: it
    returns the text NaN-NaN-NaNTNaN:NaN. *)
Theorem toLocalDateTimeInputValue_invalid (h : Host) (date : date_ref) (w : World) :
  nth date (dates w) None = None ->
  toLocalDateTimeInputValue h date w = (Some "NaN-NaN-NaNTNaN:NaN"%string, w).
Proof.
  intros Hn. rewrite toLocalDateTimeInputValue_run, Hn. reflexivity.
Qed.

Lemma toLocalDateTimeInputValue_invalid_witness :
  toLocalDateTimeInputValue utc 0%nat {| clock := 0; dates := [None] |}
  = (Some "NaN-NaN-NaNTNaN:NaN"%string, {| clock := 0; dates := [None] |}).
Proof.
  apply (toLocalDateTimeInputValue_invalid utc 0%nat {| clock := 0; dates := [None] |}).
  reflexivity.
Defined.

(** X25: the year is not padded: for a Date whose local year is one of 0
    to 999 the text has fewer than 16 characters, so it is not of the
    form YYYY-MM-DDTHH:mm. *)
Theorem toLocalDateTimeInputValue_short_year (h : Host) (date : date_ref) (w : World)
    (t : Z) :
  nth date (dates w) None = Some t ->
  0 <= YearFromTime (LocalTime h t) <= 999 ->
  exists s, toLocalDateTimeInputValue h date w = (Some s, w)
            /\ (String.length s < 16)%nat.
Proof.
  intros Ht Hy. rewrite toLocalDateTimeInputValue_run, Ht. cbv zeta.
  destruct (year_short _ Hy) as (s & -> & Hs).
  eexists. split; [reflexivity|].
  cbn [String.concat]. rewrite !length_append. cbn [String.length two_digits].
  lia.
Qed.

Lemma toLocalDateTimeInputValue_short_year_witness :
  exists s, toLocalDateTimeInputValue utc 0%nat
              {| clock := 0; dates := [Some (- 60000000000000)] |}
            = (Some s, {| clock := 0; dates := [Some (- 60000000000000)] |})
            /\ (String.length s < 16)%nat.
Proof.
  apply (toLocalDateTimeInputValue_short_year utc 0%nat
           {| clock := 0; dates := [Some (- 60000000000000)] |} (- 60000000000000)).
  - reflexivity.
  - vm_compute. split; discriminate.
Defined.

End InputValue.
